(** * Workout tracker: schedule, completion and history derivations

    A shallow embedding of the decision logic of [workout_app.py]:
    [parse_actual], [load_and_process_history],
    [calculate_overall_completion] and [find_next_workout_and_exercises],
    together with the properties stated about them.

    Modelling conventions.
    - A Python [str] is a [string]; a character stands for its code point
      (below 256).  The character classes of [str.isdigit], [str.split] and
      [str.lower] are the Unicode ones restricted to that range.
    - A Python [int] is a [Z]; list positions coming from [enumerate] and
      [range] are [nat].
    - A spreadsheet snapshot is a [list (list string)]; the dict of all
      snapshots is an association list in insertion order, the order in
      which [dict.items()] yields it.
    - [IndexError] and [ValueError] are explicit: a computation returns
      [Ok v] or [Raise e], sequenced by [x ← c; k].
    - A Python [float] is a binary64 number; a finite one is the rational
      it stands for, and every operation rounds its exact result to the
      nearest binary64 number, ties to even ([round64]). *)

From Stdlib Require Import ZArith QArith Qround Qpower Qabs Lia Lqa Ascii String.
From stdpp Require Import base list strings sorting.

Local Open Scope string_scope.
Local Open Scope list_scope.
Local Open Scope Z_scope.

(** ** Python primitives *)

Module Py.

Inductive exn : Type := IndexError | ValueError.

Inductive result (A : Type) : Type :=
| Ok (a : A)
| Raise (e : exn).
Arguments Ok {A} a.
Arguments Raise {A} e.

Definition bind {A B : Type} (c : result A) (k : A -> result B) : result B :=
  match c with
  | Ok a => k a
  | Raise e => Raise e
  end.

(** [try: ... except Exception: return None] *)
Definition try_except {A : Type} (c : result A) : option A :=
  match c with
  | Ok a => Some a
  | Raise _ => None
  end.

Definition is_Ok {A : Type} (c : result A) : bool :=
  match c with
  | Ok _ => true
  | Raise _ => false
  end.

(** [l[i]] for a list and [i >= 0]. *)
Definition index {A : Type} (l : list A) (i : nat) : result A :=
  match l !! i with
  | Some x => Ok x
  | None => Raise IndexError
  end.

(** [s[i]] for a string and [i >= 0]. *)
Definition str_index (s : string) (i : nat) : result ascii :=
  match String.get i s with
  | Some c => Ok c
  | None => Raise IndexError
  end.

(** Truth value of a string and of a list: non-empty. *)
Definition truthy (s : string) : bool :=
  match s with
  | EmptyString => false
  | String _ _ => true
  end.

Definition list_truthy {A : Type} (l : list A) : bool :=
  match l with
  | [] => false
  | _ :: _ => true
  end.

Definition code (c : ascii) : N := N_of_ascii c.

Definition between (lo hi : N) (c : ascii) : bool :=
  ((lo <=? code c) && (code c <=? hi))%N.

(** The characters [int] reads as a decimal digit: ['0'..'9']. *)
Definition isdecimal_char (c : ascii) : bool := between 48 57 c.

(** [str.isdigit] on one character: the decimal digits and the
    superscripts two, three and one (U+00B2, U+00B3, U+00B9). *)
Definition isdigit_char (c : ascii) : bool :=
  isdecimal_char c
  || (code c =? 178)%N || (code c =? 179)%N || (code c =? 185)%N.

(** [str.isspace] on one character, the separators of [str.split()]. *)
Definition isspace_char (c : ascii) : bool :=
  between 9 13 c || between 28 32 c
  || (code c =? 133)%N || (code c =? 160)%N.

(** [str.lower] on one character. *)
Definition lower_char (c : ascii) : ascii :=
  if between 65 90 c || (between 192 222 c && negb (code c =? 215)%N)
  then ascii_of_N (code c + 32)
  else c.

Fixpoint lower (s : string) : string :=
  match s with
  | EmptyString => EmptyString
  | String c s' => String (lower_char c) (lower s')
  end.

Fixpoint str_forallb (p : ascii -> bool) (s : string) : bool :=
  match s with
  | EmptyString => true
  | String c s' => p c && str_forallb p s'
  end.

(** [s.isdigit()]: at least one character, all of them digits. *)
Definition isdigit (s : string) : bool := truthy s && str_forallb isdigit_char s.

(** [sub in s] *)
Fixpoint contains (sub s : string) : bool :=
  String.prefix sub s
  || match s with
     | EmptyString => false
     | String _ s' => contains sub s'
     end.

(** ["".join(filter(p, s))] *)
Fixpoint filter_join (p : ascii -> bool) (s : string) : string :=
  match s with
  | EmptyString => EmptyString
  | String c s' => if p c then String c (filter_join p s') else filter_join p s'
  end.

(** [s.split(sep)] for a one-character separator: never empty. *)
Fixpoint split_on (sep : ascii) (s : string) : list string :=
  match s with
  | EmptyString => [EmptyString]
  | String c s' =>
      if Ascii.eqb c sep then EmptyString :: split_on sep s'
      else match split_on sep s' with
           | t :: ts => String c t :: ts
           | [] => [String c EmptyString]
           end
  end.

(** [s.replace(old, new)] for one-character [old] and [new]. *)
Fixpoint replace_char (old new : ascii) (s : string) : string :=
  match s with
  | EmptyString => EmptyString
  | String c s' =>
      String (if Ascii.eqb c old then new else c) (replace_char old new s')
  end.

(** Maximal runs of characters that are not separators, left to right;
    [cur] is the run being read, [out] the runs already closed. *)
Fixpoint tokens_loop (sep : ascii -> bool) (s cur : string) (out : list string)
  : list string :=
  match s with
  | EmptyString => if truthy cur then out ++ [cur] else out
  | String c s' =>
      if sep c
      then tokens_loop sep s' EmptyString (if truthy cur then out ++ [cur] else out)
      else tokens_loop sep s' (cur ++ String c EmptyString) out
  end.

Definition tokens (sep : ascii -> bool) (s : string) : list string :=
  tokens_loop sep s EmptyString [].

(** [s.split()] *)
Definition split (s : string) : list string := tokens isspace_char s.

Fixpoint lstrip (s : string) : string :=
  match s with
  | EmptyString => EmptyString
  | String c s' => if isspace_char c then lstrip s' else s
  end.

Definition str_rev (s : string) : string :=
  string_of_list_ascii (rev (list_ascii_of_string s)).

(** [s.strip()] *)
Definition strip (s : string) : string := str_rev (lstrip (str_rev (lstrip s))).

(** Value of a string of decimal digits read left to right from [acc]. *)
Fixpoint decimal_value (s : string) (acc : Z) : Z :=
  match s with
  | EmptyString => acc
  | String c s' => decimal_value s' (10 * acc + (Z.of_N (code c) - 48))
  end.

(** [sys.get_int_max_str_digits()] as the interpreter starts with it. *)
Definition int_max_str_digits : Z := 4300.

(** [int(s)] on the strings [parse_actual] and the history scan pass to
    it: one character of a header, or characters that all satisfy
    [str.isdigit].  On these [int] succeeds exactly when the string is a
    non-empty run of at most [int_max_str_digits] characters ['0'..'9']
    (a sign, blank or underscore alone, the empty string, the superscript
    digits and a longer run raise [ValueError]). *)
Definition int (s : string) : result Z :=
  if truthy s && str_forallb isdecimal_char s
  then if int_max_str_digits <? Z.of_nat (String.length s)
       then Raise ValueError
       else Ok (decimal_value s 0)
  else Raise ValueError.

(** [sum(l)] *)
Definition sum (l : list Z) : Z := fold_left Z.add l 0.

End Py.

Import Py.

#[global] Instance result_ret : MRet result := @Ok.
#[global] Instance result_bind : MBind result :=
  fun A B k c => Py.bind c k.
#[global] Instance result_fmap : FMap result :=
  fun A B f c => Py.bind c (fun a => Ok (f a)).

(** ** Floats *)

(** The integer nearest to [q], the even one of two equally near. *)
Definition round_half_even (q : Q) : Z :=
  let fl := Qfloor q in
  match (q - inject_Z fl ?= 1 # 2)%Q with
  | Lt => fl
  | Gt => fl + 1
  | Eq => if Z.even fl then fl else fl + 1
  end.

(** For [q > 0], the exponent [b] with [2^b <= q < 2^(b+1)]. *)
Definition binade (q : Q) : Z :=
  let c := Z.log2 (Qnum q) - Z.log2 (Z.pos (Qden q)) in
  if Qle_bool (2 ^ c) q then c else c - 1.

(** For [q > 0]: [q] in units of [2^e], rounded to an integer, where [e]
    leaves 53 bits to the integer and is not below the exponent of the
    subnormal numbers. *)
Definition round64_pos (q : Q) : Q :=
  let e := Z.max (binade q - 52) (-1074) in
  (inject_Z (round_half_even (q / 2 ^ e)) * 2 ^ e)%Q.

(** The binary64 number nearest to [q], ties to even, as the conversion
    of an [int], the quotient [int / int] and the float operations
    compute it.  The exponent is not bounded above: a result of
    magnitude [2^1024] and more is one that overflows. *)
Definition round64 (q : Q) : Q :=
  match Qnum q with
  | Z0 => 0%Q
  | Z.pos _ => round64_pos q
  | Z.neg _ => (- round64_pos (- q))%Q
  end.

Definition float_finite (x : Q) : bool := negb (Qle_bool (2 ^ 1024) (Qabs x)).

(** [float(n)] as the operations on an [int] and a float take it: [None]
    is [OverflowError]. *)
Definition float_of_int (n : Z) : option Q :=
  let x := round64 (inject_Z n) in
  if float_finite x then Some x else None.

(** [x - y] on floats: [None] is an infinite result. *)
Definition float_sub (x y : Q) : option Q :=
  let z := round64 (x - y) in
  if float_finite z then Some z else None.

(** [int(x)] for a finite float: the fraction is dropped. *)
Definition int_of_float (x : Q) : Z :=
  if Qle_bool 0 x then Qfloor x else Qceiling x.

(** ** [parse_actual] (nested in [load_and_process_history]) *)

(** [[int(s.strip()) for s in toks if s.isdigit()]] *)
Fixpoint parse_parts (toks : list string) : result (list Z) :=
  match toks with
  | [] => Ok []
  | s :: rest =>
      if isdigit s
      then v ← int (strip s);
           vs ← parse_parts rest;
           Ok (v :: vs)
      else parse_parts rest
  end.

Definition parse_actual_body (value_str : string) : result Z :=
  if contains "sec" (lower value_str)
  then first ← index (split_on "-" value_str) 0;
       int (filter_join isdigit_char first)
  else parts ← parse_parts (split (replace_char "," " " value_str));
       Ok (sum parts).

Definition parse_actual (value_str : string) : option Z :=
  try_except (parse_actual_body value_str).

(** ** Data model *)

Abbreviation row := (list string) (only parsing).
Abbreviation snapshot := (list (list string)) (only parsing).
(** [all_sheets_data]: sheet title and snapshot, in [items()] order. *)
Abbreviation sheets := (list (string * list (list string))) (only parsing).

(** [enumerate(l)] *)
Fixpoint enumerate_from {A : Type} (i : nat) (l : list A) : list (nat * A) :=
  match l with
  | [] => []
  | x :: l' => (i, x) :: enumerate_from (S i) l'
  end.

Definition enumerate {A : Type} (l : list A) : list (nat * A) := enumerate_from 0 l.

(** ["Workout" in header and "Actual" in header] *)
Definition is_workout_actual (header : string) : bool :=
  contains "Workout" header && contains "Actual" header.

(** [{i: header for i, header in enumerate(headers) if ...}], in key order. *)
Definition workout_cols (headers : row) : list (nat * string) :=
  List.filter (fun ih => is_workout_actual ih.2) (enumerate headers).

(** [[i for i, header in enumerate(headers) if ...]] *)
Definition workout_col_indices (headers : row) : list nat :=
  List.map fst (List.filter (fun ih => is_workout_actual ih.2) (enumerate headers)).

(** [row and row[0]] *)
Definition row_named (r : row) : bool :=
  list_truthy r && match r !! 0%nat with Some name => truthy name | None => false end.

(** ** [load_and_process_history] *)

(** One dict appended to [history_records]. *)
Record history_record : Type := {
  Sheet : string;
  Day : string;
  Exercise : string;
  Actual_Raw : string;
  Workout_Order : Z
}.

(** One row of the returned frame: the record, and in [Metric] the value
    [parse_actual] returns for the row, as [.apply(parse_actual)] computes
    it.  How pandas then stores the column (numbers next to [None] become
    floats and [NaN]) is not modelled, and nothing is stated of the stored
    column.  The display column [Workout_Label] plays no part in what
    follows and is left out. *)
Record history_row : Type := {
  record : history_record;
  Metric : option Z
}.

(** [for col_idx, day_title in workout_cols.items(): ...] *)
Fixpoint history_cols (sheet_title exercise_name : string) (r : row)
    (workout_counter : Z) (cols : list (nat * string))
  : result (list history_record) :=
  match cols with
  | [] => Ok []
  | (col_idx, day_title) :: rest =>
      actual_result ← index r col_idx;
      if truthy actual_result
      then c ← str_index day_title 8;
           d ← int (String c EmptyString);
           recs ← history_cols sheet_title exercise_name r workout_counter rest;
           Ok ({| Sheet := sheet_title; Day := day_title;
                  Exercise := exercise_name; Actual_Raw := actual_result;
                  Workout_Order := workout_counter + d |} :: recs)
      else history_cols sheet_title exercise_name r workout_counter rest
  end.

(** [for row_idx, row in enumerate(exercise_rows): ...] *)
Fixpoint history_rows (sheet_title : string) (workout_counter : Z)
    (cols : list (nat * string)) (exercise_rows : list row)
  : result (list history_record) :=
  match exercise_rows with
  | [] => Ok []
  | r :: rest =>
      exercise_name ← index r 0;
      if negb (truthy exercise_name)
      then history_rows sheet_title workout_counter cols rest
      else recs ← history_cols sheet_title exercise_name r workout_counter cols;
           recs' ← history_rows sheet_title workout_counter cols rest;
           Ok (recs ++ recs')
  end.

(** [for sheet_title, data in _all_sheets_data.items(): ...], from the
    given value of [workout_counter]. *)
Fixpoint history_sheets (workout_counter : Z) (all : sheets)
  : result (list history_record) :=
  match all with
  | [] => Ok []
  | (sheet_title, data) :: rest =>
      if (length data <? 3)%nat then history_sheets workout_counter rest
      else
        headers ← index data 1;
        let exercise_rows := drop 2 data in
        let cols := workout_cols headers in
        if negb (list_truthy cols) then history_sheets workout_counter rest
        else
          recs ← history_rows sheet_title workout_counter cols exercise_rows;
          recs' ← history_sheets (workout_counter + Z.of_nat (length cols)) rest;
          Ok (recs ++ recs')
  end.

(** [df.sort_values(by="Workout_Order")]: ascending.  Rows with equal keys
    are kept here in their order of insertion, where pandas, whose default
    sort is not stable, may order them otherwise; what is stated of the
    result does not depend on the order of such rows. *)
Fixpoint insert_sorted (x : history_row) (l : list history_row) : list history_row :=
  match l with
  | [] => [x]
  | y :: l' =>
      if Workout_Order (record y) <=? Workout_Order (record x)
      then y :: insert_sorted x l'
      else x :: l
  end.

Definition sort_values (l : list history_row) : list history_row :=
  fold_left (fun acc x => insert_sorted x acc) l [].

Definition with_metric (r : history_record) : history_row :=
  {| record := r; Metric := parse_actual (Actual_Raw r) |}.

Definition load_and_process_history (all : sheets) : result (list history_row) :=
  history_records ← history_sheets 0 all;
  if negb (list_truthy history_records) then Ok []
  else Ok (sort_values (List.map with_metric history_records)).

(** ** [calculate_overall_completion] *)

(** [for row in exercise_rows: if row and row[0]: n += 1 else: break] *)
Fixpoint count_exercises (exercise_rows : list row) (num : nat) : nat :=
  match exercise_rows with
  | [] => num
  | r :: rest => if row_named r then count_exercises rest (S num) else num
  end.

(** [for col_idx in workout_col_indices: if exercise_rows[i][col_idx]: ...] *)
Fixpoint count_filled_cols (exercise_rows : list row) (i : nat)
    (cols : list nat) (filled_slots : Z) : result Z :=
  match cols with
  | [] => Ok filled_slots
  | col_idx :: rest =>
      r ← index exercise_rows i;
      cell ← index r col_idx;
      count_filled_cols exercise_rows i rest
        (if truthy cell then filled_slots + 1 else filled_slots)
  end.

(** [for i in range(num_exercises_in_sheet): ...], [range] given as a list. *)
Fixpoint count_filled_rows (exercise_rows : list row) (range : list nat)
    (cols : list nat) (filled_slots : Z) : result Z :=
  match range with
  | [] => Ok filled_slots
  | i :: rest =>
      filled_slots' ← count_filled_cols exercise_rows i cols filled_slots;
      count_filled_rows exercise_rows rest cols filled_slots'
  end.

Fixpoint completion_sheets (all : sheets) (total_slots filled_slots : Z)
  : result (Z * Z) :=
  match all with
  | [] => Ok (total_slots, filled_slots)
  | (sheet_title, data) :: rest =>
      if (length data <? 3)%nat then completion_sheets rest total_slots filled_slots
      else
        headers ← index data 1;
        let exercise_rows := drop 2 data in
        let cols := workout_col_indices headers in
        if negb (list_truthy cols)
        then completion_sheets rest total_slots filled_slots
        else
          let num_exercises_in_sheet := count_exercises exercise_rows 0 in
          if (num_exercises_in_sheet =? 0)%nat
          then completion_sheets rest total_slots filled_slots
          else
            let total_slots' :=
              total_slots + Z.of_nat num_exercises_in_sheet * Z.of_nat (length cols) in
            filled_slots' ←
              count_filled_rows exercise_rows (seq 0 num_exercises_in_sheet)
                cols filled_slots;
            completion_sheets rest total_slots' filled_slots'
  end.

(** [(filled_slots / total_slots) * 100]: the quotient of the two
    integers rounded to a float, and its product with 100.0 rounded
    again.  The program divides with [0 <= filled_slots <= total_slots]
    and [total_slots > 0], where nothing overflows. *)
Definition percentage_of (filled_slots total_slots : Z) : Q :=
  round64 (round64 (inject_Z filled_slots / inject_Z total_slots) * 100).

Definition calculate_overall_completion (all : sheets) : result (Z * Z * Q) :=
  '(total_slots, filled_slots) ← completion_sheets all 0 0;
  if total_slots =? 0 then Ok (0, 0, 0%Q)
  else Ok (total_slots, filled_slots, percentage_of filled_slots total_slots).

(** ** [find_next_workout_and_exercises] *)

(** One dict appended to [exercises_to_do]. *)
Record exercise : Type := {
  name : string;
  sets_goal : string;
  reps_goal : string;
  rest : string;
  gspread_row : Z;
  gspread_col : Z
}.

(** The loop that sets [last_exercise_row_index], entered with [-1]. *)
Fixpoint last_exercise_row (rows : list (nat * row)) (last_exercise_row_index : Z) : Z :=
  match rows with
  | [] => last_exercise_row_index
  | (i, r) :: rest =>
      if row_named r then last_exercise_row rest (Z.of_nat i)
      else last_exercise_row_index
  end.

(** The loop that fills [exercises_to_do] for the column [col_index]. *)
Fixpoint collect_exercises (rows : list (nat * row)) (col_index : nat)
  : result (list exercise) :=
  match rows with
  | [] => Ok []
  | (i, r) :: rest =>
      if negb (row_named r) then Ok []
      else
        cell ← index r col_index;
        if negb (truthy cell)
        then n ← index r 0;
             s ← index r 1;
             g ← index r 2;
             t ← index r 3;
             todo ← collect_exercises rest col_index;
             Ok ({| name := n; sets_goal := s; reps_goal := g; rest := t;
                    gspread_row := Z.of_nat i + 3;
                    gspread_col := Z.of_nat col_index + 1 |} :: todo)
        else collect_exercises rest col_index
  end.

(** [for col_index in workout_col_indices: ...]; [None] when the loop ends
    without returning. *)
Fixpoint next_in_columns (sheet_title : string) (headers : row)
    (exercise_rows : list row) (last_exercise_row_index : Z) (cols : list nat)
  : result (option (string * list exercise * string)) :=
  match cols with
  | [] => Ok None
  | col_index :: rest =>
      last_row ← index exercise_rows (Z.to_nat last_exercise_row_index);
      cell ← index last_row col_index;
      if negb (truthy cell)
      then exercises_to_do ← collect_exercises (enumerate exercise_rows) col_index;
           if list_truthy exercises_to_do
           then day ← index headers col_index;
                Ok (Some (sheet_title, exercises_to_do, day))
           else next_in_columns sheet_title headers exercise_rows
                  last_exercise_row_index rest
      else next_in_columns sheet_title headers exercise_rows
             last_exercise_row_index rest
  end.

Fixpoint find_next_workout_and_exercises (all : sheets)
  : result (option string * list exercise * option string) :=
  match all with
  | [] => Ok (None, [], None)
  | (sheet_title, data) :: rest =>
      if (length data <? 3)%nat then find_next_workout_and_exercises rest
      else
        headers ← index data 1;
        let exercise_rows := drop 2 data in
        let cols := workout_col_indices headers in
        if negb (list_truthy cols) then find_next_workout_and_exercises rest
        else
          let last_exercise_row_index :=
            last_exercise_row (enumerate exercise_rows) (-1) in
          if last_exercise_row_index =? -1
          then find_next_workout_and_exercises rest
          else
            found ← next_in_columns sheet_title headers exercise_rows
                      last_exercise_row_index cols;
            match found with
            | Some (title, exercises_to_do, day) =>
                Ok (Some title, exercises_to_do, Some day)
            | None => find_next_workout_and_exercises rest
            end
  end.

(** ** Sample snapshots *)

Definition month1 : list (list string) :=
  [ ["Month 1"; ""; ""; ""; ""; ""];
    ["Exercise"; "Sets"; "Reps"; "Rest"; "Workout 1 (Actual)"; "Workout 2 (Actual)"];
    ["Squat"; "3"; "10"; "60 sec"; "10, 10, 10"; "10, 9, 8"];
    ["Push-up"; "3"; "12"; "60 sec"; "12, 12, 10"; ""];
    ["Plank"; "3"; "45-60 sec"; "30 sec"; "45-60 sec"; ""] ].

(** ** The parsing rules as the specification words them *)

(** "split on whitespace and commas" *)
Definition spec_separator (c : ascii) : bool := isspace_char c || Ascii.eqb c ",".

(** "keep tokens that are purely digits" *)
Definition digit_tokens (s : string) : list string :=
  List.filter isdigit (tokens spec_separator s).

(** "the substring before the first -" *)
Fixpoint before_dash (s : string) : string :=
  match s with
  | EmptyString => EmptyString
  | String c s' => if Ascii.eqb c "-" then EmptyString else String c (before_dash s')
  end.

(** "parse as integer", absent on failure *)
Definition spec_integer (s : string) : option Z := try_except (int s).

(** Section 4.3, numeric metric parsing, with "no digit tokens found"
    giving an absent result. *)
Definition spec_parse_actual (s : string) : option Z :=
  if contains "sec" (lower s)
  then spec_integer (filter_join isdigit_char (before_dash s))
  else match digit_tokens s with
       | [] => None
       | toks => vs ← mapM spec_integer toks; Some (sum vs)
       end.

(** ** The schedule resolver as the specification words it *)

(** Section 3: the exercise block, the leading rows up to the first row
    with an empty name cell. *)
Fixpoint exercise_block (rows : list row) : list row :=
  match rows with
  | [] => []
  | r :: rest => if row_named r then r :: exercise_block rest else []
  end.

(** Section 4.1, steps 1 and 2: at least 3 rows, at least one
    workout-actual column, a non-empty exercise block. *)
Definition qualifies (data : snapshot) : bool :=
  (3 <=? length data)%nat
  && list_truthy (workout_col_indices (default [] (data !! 1%nat)))
  && list_truthy (exercise_block (drop 2 data)).

(** Step 3: the first column, in header order, whose cell in the last row
    of the block is empty. *)
Fixpoint spec_next_column (last_row : row) (cols : list nat) : result (option nat) :=
  match cols with
  | [] => Ok None
  | c :: rest =>
      cell ← index last_row c;
      if truthy cell then spec_next_column last_row rest else Ok (Some c)
  end.

(** The Exercise-To-Do of the row [r] at offset [i] for column [col]. *)
Definition to_do_entry (i : nat) (r : row) (col : nat) : result exercise :=
  n ← index r 0;
  s ← index r 1;
  g ← index r 2;
  t ← index r 3;
  Ok {| name := n; sets_goal := s; reps_goal := g; rest := t;
        gspread_row := Z.of_nat i + 3; gspread_col := Z.of_nat col + 1 |}.

(** Step 4: one entry per row of the block whose cell in the chosen column
    is empty. *)
Fixpoint spec_to_do (block : list (nat * row)) (col : nat) : result (list exercise) :=
  match block with
  | [] => Ok []
  | (i, r) :: rest =>
      cell ← index r col;
      if truthy cell then spec_to_do rest col
      else e ← to_do_entry i r col;
           todo ← spec_to_do rest col;
           Ok (e :: todo)
  end.

(** Steps 1 to 5 on one sheet; at step 5 the to-do list is returned as
    computed, whether or not it is empty.  [None]: the sheet is skipped. *)
Definition spec_resolve_sheet (sheet_title : string) (data : list (list string))
  : result (option (string * list exercise * string)) :=
  if negb (qualifies data) then Ok None
  else
    let headers := default [] (data !! 1%nat) in
    let block := exercise_block (drop 2 data) in
    match last block with
    | None => Ok None
    | Some last_row =>
        chosen ← spec_next_column last_row (workout_col_indices headers);
        match chosen with
        | None => Ok None
        | Some col =>
            todo ← spec_to_do (enumerate block) col;
            day ← index headers col;
            Ok (Some (sheet_title, todo, day))
        end
    end.

(** Steps 1 to 6: the first sheet, in the given order, that is not skipped. *)
Fixpoint spec_resolve (all : sheets)
  : result (option string * list exercise * option string) :=
  match all with
  | [] => Ok (None, [], None)
  | (sheet_title, data) :: rest =>
      found ← spec_resolve_sheet sheet_title data;
      match found with
      | Some (title, todo, day) => Ok (Some title, todo, Some day)
      | None => spec_resolve rest
      end
  end.

(** A sheet whose only workout is complete. *)
Definition month0 : list (list string) :=
  [ ["Month 0"; ""; ""; ""; ""];
    ["Exercise"; "Sets"; "Reps"; "Rest"; "Workout 1 (Actual)"];
    ["Squat"; "3"; "10"; "60 sec"; "10, 10, 10"];
    ["Plank"; "3"; "30 sec"; "30 sec"; "Done"] ].

(** The to-do list of [month1]: its second workout, rows 4 and 5, column 6. *)
Definition month1_to_do : list exercise :=
  [ {| name := "Push-up"; sets_goal := "3"; reps_goal := "12"; rest := "60 sec";
       gspread_row := 4; gspread_col := 6 |};
    {| name := "Plank"; sets_goal := "3"; reps_goal := "45-60 sec"; rest := "30 sec";
       gspread_row := 5; gspread_col := 6 |} ].


(** A result cell that holds a value. *)
Definition filled (r : list string) (col : nat) : bool :=
  match r !! col with
  | Some cell => truthy cell
  | None => false
  end.

(** A sheet with a title row only: it does not qualify. *)
Definition notes : list (list string) := [ ["Notes"] ].


(** ** Snapshots as the spreadsheet client delivers them *)

(** Every row below the header row has a cell under each header (the
    client pads the rows of a sheet to a common width). *)
Definition padded (data : list (list string)) : bool :=
  match data !! 1%nat with
  | Some headers => forallb (λ r, (length headers <=? length r)%nat) (drop 2 data)
  | None => true
  end.

(** Every row below the header row has the four attribute cells (name,
    sets, reps, rest) of the data model. *)
Definition attributed (data : list (list string)) : bool :=
  forallb (λ r, (4 <=? length r)%nat) (drop 2 data).

(** [r'] is the row [r] with some of its empty result cells filled: the
    name cell is the same, and every other cell is the same or was empty. *)
Definition row_filled_from (r r' : list string) : Prop :=
  head r = head r' ∧ Forall2 (λ c c', c' = c ∨ c = EmptyString) r r'.

(** [data'] is the snapshot [data] with some empty result cells filled:
    title and header rows are the same. *)
Definition filled_from (data data' : list (list string)) : Prop :=
  take 2 data = take 2 data' ∧ Forall2 row_filled_from (drop 2 data) (drop 2 data').

(** The same sheets, in the same order, with some empty result cells filled. *)
Definition sheets_filled_from (all all' : sheets) : Prop :=
  Forall2 (λ td td', td.1 = td'.1 ∧ filled_from td.2 td'.2) all all'.


(** A sheet with a row named after a row without a name. *)
Definition month2 : list (list string) :=
  [ ["Month 2"; ""; ""; ""; ""];
    ["Exercise"; "Sets"; "Reps"; "Rest"; "Workout 1 (Actual)"];
    ["Squat"; "3"; "10"; "60 sec"; "10, 9, 8"];
    [""; ""; ""; ""; ""];
    ["Plank"; "3"; "45-60 sec"; "30 sec"; "45-60 sec"] ].


(** ** Headers and ordinals *)

(** The decimal digit at offset 8 of a header, which [int(day_title[8])]
    reads, if there is one. *)
Definition header_digit (header : string) : option Z :=
  match String.get 8 header with
  | Some c => if isdecimal_char c then Some (Z.of_N (code c) - 48) else None
  | None => None
  end.

(** No filled result cell of a named row lies under a workout-actual
    header that has no decimal digit at offset 8. *)
Definition row_readable (cols : list (nat * string)) (r : list string) : bool :=
  negb (filled r 0)
  || forallb (λ ch, negb (filled r ch.1) || bool_decide (is_Some (header_digit ch.2))) cols.

Definition sheet_readable (data : list (list string)) : bool :=
  (length data <? 3)%nat
  || match data !! 1%nat with
     | Some headers => forallb (row_readable (workout_cols headers)) (drop 2 data)
     | None => true
     end.

(** The workout-actual headers of a sheet the scans look at (at least 3
    rows), left to right. *)
Definition workout_headers (data : list (list string)) : list string :=
  if (length data <? 3)%nat then []
  else snd <$> workout_cols (default [] (data !! 1%nat)).

(** The workout-actual headers of every sheet are numbered 1, 2, 3, ...
    from the left, by the digit at offset 8. *)
Definition numbered (all : sheets) : Prop :=
  Forall (λ td, header_digit <$> workout_headers td.2
                = (λ p, Some (Z.of_nat p)) <$> seq 1 (length (workout_headers td.2)))
    all.

(** The value of [workout_counter] on entering the sheet at position [k]. *)
Definition columns_before (all : sheets) (k : nat) : Z :=
  Z.of_nat (length (concat ((λ td, workout_headers td.2) <$> take k all))).

(** The ordering of ordinals as stated: within a sheet they strictly
    increase with the column, in header order. *)
Definition increasing_within_sheets (all : sheets) (df : list history_row) : Prop :=
  ∀ (title : string) (data : list (list string)) (headers : list string)
    (c1 c2 : nat) (h1 h2 : string) (x1 x2 : history_row),
    (title, data) ∈ all → (3 ≤ length data)%nat → data !! 1%nat = Some headers →
    (c1, h1) ∈ workout_cols headers → (c2, h2) ∈ workout_cols headers →
    (c1 < c2)%nat →
    x1 ∈ df → Sheet (record x1) = title → Day (record x1) = h1 →
    x2 ∈ df → Sheet (record x2) = title → Day (record x2) = h2 →
    Workout_Order (record x1) < Workout_Order (record x2).

(** Across sheets: no ordinal of a later sheet is below one of an earlier
    sheet. *)
Definition nondecreasing_across_sheets (all : sheets) (df : list history_row) : Prop :=
  ∀ (k1 k2 : nat) (t1 t2 : string) (d1 d2 : list (list string))
    (x1 x2 : history_row),
    all !! k1 = Some (t1, d1) → all !! k2 = Some (t2, d2) → (k1 < k2)%nat →
    x1 ∈ df → Sheet (record x1) = t1 →
    x2 ∈ df → Sheet (record x2) = t2 →
    Workout_Order (record x1) ≤ Workout_Order (record x2).

(** A sheet that holds the ninth and tenth workouts, and the sheet after it. *)
Definition week_a : list (list string) :=
  [ ["Week A"; ""; ""; ""; ""; ""];
    ["Exercise"; "Sets"; "Reps"; "Rest"; "Workout 9 (Actual)"; "Workout 10 (Actual)"];
    ["Squat"; "3"; "10"; "60 sec"; "10, 10, 10"; "10, 9, 8"] ].

Definition week_b : list (list string) :=
  [ ["Week B"; ""; ""; ""; ""];
    ["Exercise"; "Sets"; "Reps"; "Rest"; "Workout 1 (Actual)"];
    ["Squat"; "3"; "10"; "60 sec"; "12, 12, 12"] ].

(** A sheet whose workout-actual header has a letter at offset 8. *)
Definition month3 : list (list string) :=
  [ ["Month 3"; ""; ""; ""; ""];
    ["Exercise"; "Sets"; "Reps"; "Rest"; "Workout A (Actual)"];
    ["Squat"; "3"; "10"; "60 sec"; "10, 10, 10"] ].


(** The order [sort_values] sorts by. *)
Definition by_ordinal (a b : history_row) : Prop :=
  Workout_Order (record a) ≤ Workout_Order (record b).


(** The history of [week_a] followed by [week_b], as returned. *)
Definition week_ab_history : list history_row :=
  [ {| record := {| Sheet := "Week A"; Day := "Workout 10 (Actual)"; Exercise := "Squat";
                    Actual_Raw := "10, 9, 8"; Workout_Order := 1 |};
       Metric := Some 27 |};
    {| record := {| Sheet := "Week B"; Day := "Workout 1 (Actual)"; Exercise := "Squat";
                    Actual_Raw := "12, 12, 12"; Workout_Order := 3 |};
       Metric := Some 36 |};
    {| record := {| Sheet := "Week A"; Day := "Workout 9 (Actual)"; Exercise := "Squat";
                    Actual_Raw := "10, 10, 10"; Workout_Order := 9 |};
       Metric := Some 30 |} ].


(** ** Sheets the resolver passes over *)

(** The sheet does not qualify, or the last row of its exercise block is
    filled in every workout-actual column. *)
Definition passed_over (data : list (list string)) : bool :=
  negb (qualifies data)
  || match last (exercise_block (drop 2 data)) with
     | Some last_row =>
         forallb (filled last_row) (workout_col_indices (default [] (data !! 1%nat)))
     | None => true
     end.


(** A sheet whose last exercise row is filled and whose first is not. *)
Definition month4 : list (list string) :=
  [ ["Month 4"; ""; ""; ""; ""];
    ["Exercise"; "Sets"; "Reps"; "Rest"; "Workout 1 (Actual)"];
    ["Squat"; "3"; "10"; "60 sec"; ""];
    ["Plank"; "3"; "30 sec"; "30 sec"; "30 sec"] ].


(** ** Sheets every scan ignores *)

(** Fewer than 3 rows, or no header with both "Workout" and "Actual". *)
Definition ignored (data : list (list string)) : bool :=
  (length data <? 3)%nat
  || negb (list_truthy (workout_cols (default [] (data !! 1%nat)))).


(** ** [get_workout_data] *)

(** [d[k] = v] on a dict kept in insertion order: an existing key keeps
    its place and takes the new value, a new key goes to the end. *)
Fixpoint dict_set {V : Type} (d : list (string * V)) (k : string) (v : V)
  : list (string * V) :=
  match d with
  | [] => [(k, v)]
  | (k', v') :: d' =>
      if String.eqb k' k then (k', v) :: d' else (k', v') :: dict_set d' k v
  end.

(** The loop over [workbook.worksheets()].  A worksheet is given by its
    title and by what [sheet.get_all_values()] does when called: return a
    grid, or raise. *)
Fixpoint get_workout_data_loop (worksheets : list (string * result (list (list string))))
    (all_sheets_data : sheets) : result sheets :=
  match worksheets with
  | [] => Ok all_sheets_data
  | (title, get_all_values) :: rest =>
      if String.prefix "Month" title
      then values ← get_all_values;
           get_workout_data_loop rest (dict_set all_sheets_data title values)
      else get_workout_data_loop rest all_sheets_data
  end.

(** [get_workout_data], second component of the returned pair: [None]
    when an exception was caught.  [worksheets] is what
    [_client.open_by_key(sheet_id).worksheets()] does: return the
    worksheets of the workbook, or raise. *)
Definition get_workout_data
    (worksheets : result (list (string * result (list (list string)))))
  : option sheets :=
  try_except (sheets ← worksheets; get_workout_data_loop sheets []).

(** A workbook: two month sheets between two other sheets, one of which
    cannot be read. *)
Definition workbook1 : list (string * result (list (list string))) :=
  [ ("Notes", Raise ValueError); ("Month 0", Ok month0);
    ("Summary", Ok notes); ("Month 1", Ok month1) ].


(** ** The rest time of an exercise ([render_workout_view]) *)

(** [s.replace(old, new)] for a non-empty [old]: occurrences are replaced
    from the left and do not overlap.  [skip] counts the characters of an
    occurrence still to be passed. *)
Fixpoint replace_loop (old new s : string) (skip : nat) : string :=
  match s with
  | EmptyString => EmptyString
  | String c s' =>
      match skip with
      | S k => replace_loop old new s' k
      | O =>
          if String.prefix old s
          then (new ++ replace_loop old new s' (String.length old - 1))%string
          else String c (replace_loop old new s' 0)
      end
  end.

Definition replace (old new s : string) : string := replace_loop old new s 0.

(** The digits of a decimal literal, single underscores allowed between
    digits; [prev] tells whether the character before was a digit. *)
Fixpoint literal_value (s : string) (acc : Z) (prev : bool) : option Z :=
  match s with
  | EmptyString => if prev then Some acc else None
  | String c s' =>
      if isdecimal_char c
      then literal_value s' (10 * acc + (Z.of_N (code c) - 48)) true
      else if Ascii.eqb c "_" then (if prev then literal_value s' acc false else None)
      else None
  end.

(** The number of digits of a literal, underscores not counted. *)
Fixpoint count_digits (s : string) : Z :=
  match s with
  | EmptyString => 0
  | String c s' => (if isdecimal_char c then 1 else 0) + count_digits s'
  end.

(** The blanks [int] passes over around a literal: those of [str.isspace]
    but for the separators U+001C..U+001F, which [int] refuses. *)
Definition int_space_char (c : ascii) : bool :=
  between 9 13 c || (code c =? 32)%N || (code c =? 133)%N || (code c =? 160)%N.

Fixpoint int_lstrip (s : string) : string :=
  match s with
  | EmptyString => EmptyString
  | String c s' => if int_space_char c then int_lstrip s' else s
  end.

Definition int_strip (s : string) : string :=
  str_rev (int_lstrip (str_rev (int_lstrip s))).

(** [int(s)] on any string: blanks around, an optional sign, then a
    decimal literal of at most [int_max_str_digits] digits; anything else
    raises [ValueError]. *)
Definition int_of_str (s : string) : result Z :=
  let t := int_strip s in
  let '(sign, body) :=
    match t with
    | String c b =>
        if Ascii.eqb c "+" then (1, b)
        else if Ascii.eqb c "-" then (-1, b)
        else (1, t)
    | EmptyString => (1, t)
    end in
  match literal_value body 0 false with
  | Some v =>
      if int_max_str_digits <? count_digits body
      then Raise ValueError
      else Ok (sign * v)
  | None => Raise ValueError
  end.

(** The value given to [rest_duration] for the rest text [ex['rest']]:
    [except ValueError] sets it to 5, any other exception goes through. *)
Definition rest_duration (rest_text : string) : result Z :=
  let rest_time_str := strip (replace "sec" "" (lower rest_text)) in
  let parsed :=
    if contains "-" rest_time_str
    then second ← index (split_on "-" rest_time_str) 1;
         int_of_str second
    else int_of_str rest_time_str in
  match parsed with
  | Ok v => Ok v
  | Raise ValueError => Ok 5
  | Raise e => Raise e
  end.

(** A string of decimal digits. *)
Definition decimal (s : string) : bool := truthy s && str_forallb isdecimal_char s.



(** ** The session: [initialize_session] and the three views *)

Module st.

(** [st.session_state], key by key, each with the type of the values the
    program stores under it; [None] is a key that is not set.  A client
    or workbook object is a [unit].  The keys Streamlit adds for widgets
    are left out: the program does not read them. *)
Record session_state : Type := {
  client : option unit;
  workbook : option (option unit);
  sheet_title : option (option string);
  exercises_today : option (list exercise);
  day_title : option (option string);
  current_exercise_index : option nat;
  current_view : option string;
  app_ready : option bool;
  rest_duration : option Z;
  rest_start_time : option Q;
  sound_played : option bool;
  timer_finished : option bool;
  play_sound : option bool
}.

(** No key is set: a new session, and what deleting every key leaves. *)
Definition empty : session_state :=
  {| client := None;
     workbook := None;
     sheet_title := None;
     exercises_today := None;
     day_title := None;
     current_exercise_index := None;
     current_view := None;
     app_ready := None;
     rest_duration := None;
     rest_start_time := None;
     sound_played := None;
     timer_finished := None;
     play_sound := None |}.

(** [st.session_state.client = v] *)
Definition set_client (v : unit) (s : session_state) : session_state :=
  {| client := Some v;
     workbook := workbook s;
     sheet_title := sheet_title s;
     exercises_today := exercises_today s;
     day_title := day_title s;
     current_exercise_index := current_exercise_index s;
     current_view := current_view s;
     app_ready := app_ready s;
     rest_duration := rest_duration s;
     rest_start_time := rest_start_time s;
     sound_played := sound_played s;
     timer_finished := timer_finished s;
     play_sound := play_sound s |}.

(** [st.session_state.workbook = v] *)
Definition set_workbook (v : option unit) (s : session_state) : session_state :=
  {| client := client s;
     workbook := Some v;
     sheet_title := sheet_title s;
     exercises_today := exercises_today s;
     day_title := day_title s;
     current_exercise_index := current_exercise_index s;
     current_view := current_view s;
     app_ready := app_ready s;
     rest_duration := rest_duration s;
     rest_start_time := rest_start_time s;
     sound_played := sound_played s;
     timer_finished := timer_finished s;
     play_sound := play_sound s |}.

(** [st.session_state.sheet_title = v] *)
Definition set_sheet_title (v : option string) (s : session_state) : session_state :=
  {| client := client s;
     workbook := workbook s;
     sheet_title := Some v;
     exercises_today := exercises_today s;
     day_title := day_title s;
     current_exercise_index := current_exercise_index s;
     current_view := current_view s;
     app_ready := app_ready s;
     rest_duration := rest_duration s;
     rest_start_time := rest_start_time s;
     sound_played := sound_played s;
     timer_finished := timer_finished s;
     play_sound := play_sound s |}.

(** [st.session_state.exercises_today = v] *)
Definition set_exercises_today (v : list exercise) (s : session_state) : session_state :=
  {| client := client s;
     workbook := workbook s;
     sheet_title := sheet_title s;
     exercises_today := Some v;
     day_title := day_title s;
     current_exercise_index := current_exercise_index s;
     current_view := current_view s;
     app_ready := app_ready s;
     rest_duration := rest_duration s;
     rest_start_time := rest_start_time s;
     sound_played := sound_played s;
     timer_finished := timer_finished s;
     play_sound := play_sound s |}.

(** [st.session_state.day_title = v] *)
Definition set_day_title (v : option string) (s : session_state) : session_state :=
  {| client := client s;
     workbook := workbook s;
     sheet_title := sheet_title s;
     exercises_today := exercises_today s;
     day_title := Some v;
     current_exercise_index := current_exercise_index s;
     current_view := current_view s;
     app_ready := app_ready s;
     rest_duration := rest_duration s;
     rest_start_time := rest_start_time s;
     sound_played := sound_played s;
     timer_finished := timer_finished s;
     play_sound := play_sound s |}.

(** [st.session_state.current_exercise_index = v] *)
Definition set_current_exercise_index (v : nat) (s : session_state) : session_state :=
  {| client := client s;
     workbook := workbook s;
     sheet_title := sheet_title s;
     exercises_today := exercises_today s;
     day_title := day_title s;
     current_exercise_index := Some v;
     current_view := current_view s;
     app_ready := app_ready s;
     rest_duration := rest_duration s;
     rest_start_time := rest_start_time s;
     sound_played := sound_played s;
     timer_finished := timer_finished s;
     play_sound := play_sound s |}.

(** [st.session_state.current_view = v] *)
Definition set_current_view (v : string) (s : session_state) : session_state :=
  {| client := client s;
     workbook := workbook s;
     sheet_title := sheet_title s;
     exercises_today := exercises_today s;
     day_title := day_title s;
     current_exercise_index := current_exercise_index s;
     current_view := Some v;
     app_ready := app_ready s;
     rest_duration := rest_duration s;
     rest_start_time := rest_start_time s;
     sound_played := sound_played s;
     timer_finished := timer_finished s;
     play_sound := play_sound s |}.

(** [st.session_state.app_ready = v] *)
Definition set_app_ready (v : bool) (s : session_state) : session_state :=
  {| client := client s;
     workbook := workbook s;
     sheet_title := sheet_title s;
     exercises_today := exercises_today s;
     day_title := day_title s;
     current_exercise_index := current_exercise_index s;
     current_view := current_view s;
     app_ready := Some v;
     rest_duration := rest_duration s;
     rest_start_time := rest_start_time s;
     sound_played := sound_played s;
     timer_finished := timer_finished s;
     play_sound := play_sound s |}.

(** [st.session_state.rest_duration = v] *)
Definition set_rest_duration (v : Z) (s : session_state) : session_state :=
  {| client := client s;
     workbook := workbook s;
     sheet_title := sheet_title s;
     exercises_today := exercises_today s;
     day_title := day_title s;
     current_exercise_index := current_exercise_index s;
     current_view := current_view s;
     app_ready := app_ready s;
     rest_duration := Some v;
     rest_start_time := rest_start_time s;
     sound_played := sound_played s;
     timer_finished := timer_finished s;
     play_sound := play_sound s |}.

(** [st.session_state.rest_start_time = v] *)
Definition set_rest_start_time (v : Q) (s : session_state) : session_state :=
  {| client := client s;
     workbook := workbook s;
     sheet_title := sheet_title s;
     exercises_today := exercises_today s;
     day_title := day_title s;
     current_exercise_index := current_exercise_index s;
     current_view := current_view s;
     app_ready := app_ready s;
     rest_duration := rest_duration s;
     rest_start_time := Some v;
     sound_played := sound_played s;
     timer_finished := timer_finished s;
     play_sound := play_sound s |}.

(** [st.session_state.sound_played = v] *)
Definition set_sound_played (v : bool) (s : session_state) : session_state :=
  {| client := client s;
     workbook := workbook s;
     sheet_title := sheet_title s;
     exercises_today := exercises_today s;
     day_title := day_title s;
     current_exercise_index := current_exercise_index s;
     current_view := current_view s;
     app_ready := app_ready s;
     rest_duration := rest_duration s;
     rest_start_time := rest_start_time s;
     sound_played := Some v;
     timer_finished := timer_finished s;
     play_sound := play_sound s |}.

(** [st.session_state.timer_finished = v] *)
Definition set_timer_finished (v : bool) (s : session_state) : session_state :=
  {| client := client s;
     workbook := workbook s;
     sheet_title := sheet_title s;
     exercises_today := exercises_today s;
     day_title := day_title s;
     current_exercise_index := current_exercise_index s;
     current_view := current_view s;
     app_ready := app_ready s;
     rest_duration := rest_duration s;
     rest_start_time := rest_start_time s;
     sound_played := sound_played s;
     timer_finished := Some v;
     play_sound := play_sound s |}.

(** [st.session_state.play_sound = v] *)
Definition set_play_sound (v : bool) (s : session_state) : session_state :=
  {| client := client s;
     workbook := workbook s;
     sheet_title := sheet_title s;
     exercises_today := exercises_today s;
     day_title := day_title s;
     current_exercise_index := current_exercise_index s;
     current_view := current_view s;
     app_ready := app_ready s;
     rest_duration := rest_duration s;
     rest_start_time := rest_start_time s;
     sound_played := sound_played s;
     timer_finished := timer_finished s;
     play_sound := Some v |}.

End st.

(** One call [worksheet(title).update_cell(row, col, value)]. *)
Record update_cell : Type := {
  worksheet : string;
  cell_row : Z;
  cell_col : Z;
  cell_value : string
}.

(** What a run of the script works on: the session state, which lasts from
    one run to the next, and the calls of [update_cell] made so far. *)
Record world : Type := {
  session : st.session_state;
  calls : list update_cell
}.

(** What a run gets from outside: what the calls of the cached functions
    return, what the widgets return and what the clock shows.
    [spreadsheet] is the workbook as the call of [get_workout_data] that
    computed the returned value found it; [time] is the float that
    [time.time()] returns. *)
Record inputs : Type := {
  authorize_gspread : bool;
  spreadsheet : result (list (string * result (list (list string))));
  actual_result : string;
  submitted : bool;
  time : Q;
  next_button : bool;
  restart_button : bool
}.

(** How a piece of the script ends: normally, or with an exception nobody
    catches: one of [exn], the [AttributeError] of reading a key of the
    session state that is not set, or the [OverflowError] of a float
    operation. *)
Inductive fault : Type :=
| Uncaught (e : exn)
| AttributeError (key : string)
| OverflowError.

Inductive outcome (A : Type) : Type :=
| Done (a : A)
| Failed (f : fault).
Arguments Done {A} a.
Arguments Failed {A} f.

(** A piece of the script.  What it did to the session state and the
    calls it made stay when it fails. *)
Definition script (A : Type) : Type := world → outcome A * world.

#[global] Instance script_ret : MRet script := λ A a w, (Done a, w).
#[global] Instance script_bind : MBind script :=
  λ A B k m w,
    match m w with
    | (Done a, w') => k a w'
    | (Failed f, w') => (Failed f, w')
    end.

(** [st.session_state.key], read. *)
Definition attr {A : Type} (key : string) (field : st.session_state → option A)
  : script A :=
  λ w, match field (session w) with
       | Some a => (Done a, w)
       | None => (Failed (AttributeError key), w)
       end.

(** [st.session_state.get(key, default)] *)
Definition get {A : Type} (field : st.session_state → option A) (value : A)
  : script A :=
  λ w, (Done (match field (session w) with Some a => a | None => value end), w).

(** [key in st.session_state] *)
Definition has_key {A : Type} (field : st.session_state → option A) : script bool :=
  λ w, (Done (if field (session w) is Some _ then true else false), w).

(** An assignment to a key, or the deletion of every key. *)
Definition assign (f : st.session_state → st.session_state) : script unit :=
  λ w, (Done tt, {| session := f (session w); calls := calls w |}).

(** A computation that touches neither the session nor the sheet. *)
Definition lift {A : Type} (c : result A) : script A :=
  λ w, match c with
       | Ok a => (Done a, w)
       | Raise e => (Failed (Uncaught e), w)
       end.

(** A float computation, where [None] is an [OverflowError]. *)
Definition overflow {A : Type} (c : option A) : script A :=
  λ w, match c with
       | Some a => (Done a, w)
       | None => (Failed OverflowError, w)
       end.

(** [update_google_sheet]: whatever goes wrong is caught.  [update_cell]
    is called when there is a workbook and a title to find the worksheet
    by; what the call does to the sheet is not the script's business. *)
Definition update_google_sheet (sheet_title : option string) (row col : Z)
    (value : string) : script unit :=
  λ w, match st.workbook (session w), sheet_title with
       | Some (Some _), Some title =>
           (Done tt,
            {| session := session w;
               calls := calls w ++ [{| worksheet := title; cell_row := row;
                                       cell_col := col; cell_value := value |}] |})
       | _, _ => (Done tt, w)
       end.

(** [initialize_session] *)
Definition initialize_session (i : inputs) : script unit :=
  if authorize_gspread i
  then
    assign (st.set_client tt);;
    let fetched := get_workout_data (spreadsheet i) in
    assign (st.set_workbook (if fetched is Some _ then Some tt else None));;
    match fetched with
    | Some all_data =>
        if list_truthy all_data
        then
          '(sheet_title, exercises, day_title)
            ← lift (find_next_workout_and_exercises all_data);
          assign (st.set_sheet_title sheet_title);;
          assign (st.set_exercises_today exercises);;
          assign (st.set_day_title day_title);;
          assign (st.set_current_exercise_index 0%nat);;
          assign (st.set_current_view "workout");;
          assign (st.set_app_ready true)
        else assign (st.set_app_ready false)
    | None => assign (st.set_app_ready false)
    end
  else assign (st.set_app_ready false).

(** [render_workout_view]; [st.rerun()] ends the run. *)
Definition render_workout_view (i : inputs) : script unit :=
  idx ← attr "current_exercise_index" st.current_exercise_index;
  exercises ← attr "exercises_today" st.exercises_today;
  if (length exercises <=? idx)%nat
  then assign (st.set_current_view "done")
  else
    exercises ← attr "exercises_today" st.exercises_today;
    ex ← lift (index exercises idx);
    if submitted i
    then
      if negb (truthy (actual_result i)) then mret tt
      else
        sheet_title ← attr "sheet_title" st.sheet_title;
        update_google_sheet sheet_title (gspread_row ex) (gspread_col ex)
          (actual_result i);;
        duration ← lift (rest_duration (rest ex));
        assign (st.set_rest_duration duration);;
        assign (st.set_rest_start_time (time i));;
        assign (st.set_current_view "rest");;
        assign (st.set_sound_played false)
    else mret tt.

(** [int(duration - elapsed)] for [elapsed = time.time() - start_time].
    [None] is the [OverflowError] that [duration - elapsed] raises when
    [duration] is too large for a float, and that [int] raises on an
    infinite difference; with an infinite [elapsed] one of the two is
    raised. *)
Definition remaining_time (duration : Z) (start_time now : Q) : option Z :=
  elapsed ← float_sub now start_time;
  d ← float_of_int duration;
  difference ← float_sub d elapsed;
  Some (int_of_float difference).

(** [render_rest_view] *)
Definition render_rest_view (i : inputs) : script unit :=
  start_time ← attr "rest_start_time" st.rest_start_time;
  duration ← attr "rest_duration" st.rest_duration;
  remaining ← overflow (remaining_time duration start_time (time i));
  if 0 <? remaining
  then
    idx ← attr "current_exercise_index" st.current_exercise_index;
    let next_idx := (idx + 1)%nat in
    exercises ← attr "exercises_today" st.exercises_today;
    if (next_idx <? length exercises)%nat
    then
      exercises ← attr "exercises_today" st.exercises_today;
      next_ex ← lift (index exercises next_idx);
      mret tt
    else mret tt
  else
    timer_finished ← get st.timer_finished false;
    (if negb timer_finished
     then assign (st.set_timer_finished true);;
          assign (st.set_play_sound true)
     else mret tt);;
    if next_button i
    then
      assign (st.set_play_sound false);;
      assign (st.set_timer_finished false);;
      idx ← attr "current_exercise_index" st.current_exercise_index;
      assign (st.set_current_exercise_index (idx + 1)%nat);;
      assign (st.set_current_view "workout")
    else mret tt.

(** [render_done_view] *)
Definition render_done_view (i : inputs) : script unit :=
  day_title ← attr "day_title" st.day_title;
  sheet_title ← attr "sheet_title" st.sheet_title;
  if restart_button i
  then assign (λ _, st.empty)
  else mret tt.

(** Truth value of [None] or a string. *)
Definition option_truthy (s : option string) : bool :=
  match s with
  | Some s => truthy s
  | None => false
  end.

(** The first tab of the page, where every assignment to the session
    state is made. *)
Definition tab1 (i : inputs) : script unit :=
  initialized ← has_key st.app_ready;
  (if negb initialized then initialize_session i else mret tt);;
  app_ready ← get st.app_ready false;
  if app_ready : bool
  then
    sheet_title ← attr "sheet_title" st.sheet_title;
    if negb (option_truthy sheet_title) then mret tt
    else
      exercises_today ← attr "exercises_today" st.exercises_today;
      if negb (list_truthy exercises_today) then mret tt
      else
        current_view ← attr "current_view" st.current_view;
        if String.eqb current_view "workout" then render_workout_view i
        else
          current_view ← attr "current_view" st.current_view;
          if String.eqb current_view "rest" then render_rest_view i
          else
            current_view ← attr "current_view" st.current_view;
            if String.eqb current_view "done" then render_done_view i
            else mret tt
  else mret tt.

(** What one run of the script leaves behind: the session state and the
    calls of [update_cell] after it.  Both are those the block of the first
    tab ends with, whether it returns or raises: the block of the second
    tab, which runs when the first returns, only reads the session state
    and the workbook, assigns no key and writes no cell, so that whether
    it returns or raises (as the history scan may) changes neither.  A
    session: the runs that follow the opening of the page, oldest first. *)
Definition script_run (w : world) (i : inputs) : world := (tab1 i w).2.

Definition session_runs (runs : list inputs) : world :=
  foldl script_run {| session := st.empty; calls := [] |} runs.


(** The rest view cannot compute the remaining time: the session shows the
    rest view, and [int(duration - elapsed)] raises [OverflowError] at
    the time of the run [i]. *)
Definition rest_overflows (i : inputs) (s : st.session_state) : Prop :=
  st.app_ready s = Some true
  ∧ st.current_view s = Some "rest"
  ∧ ∃ d t, st.rest_duration s = Some d
           ∧ st.rest_start_time s = Some t
           ∧ remaining_time d t (time i) = None.

(** The entries whose result a session has saved: those before the
    current one, and the current one while the rest view is shown. *)
Definition saved (s : st.session_state) : nat :=
  match st.current_exercise_index s with
  | Some idx => if bool_decide (st.current_view s = Some "rest") then S idx else idx
  | None => 0%nat
  end.

(** The calls that write [values], one each, into the cells the entries
    of [todo] point at. *)
Definition writes (title : string) (todo : list exercise) (values : list string)
  : list update_cell :=
  zip_with (λ e v, {| worksheet := title; cell_row := gspread_row e;
                      cell_col := gspread_col e; cell_value := v |})
           todo values.

(** Runs in which the button of the done view, which deletes the session
    state, is not pressed. *)
Definition uninterrupted (runs : list inputs) : Prop :=
  Forall (λ i, restart_button i = false) runs.

(** What holds of the session state and of the calls after any runs. *)
Definition session_inv (runs : list inputs) (w : world) : Prop :=
  let s := session w in
  match st.app_ready s with
  | Some true =>
      ∃ i all_data sheet_title todo day_title idx view values earlier,
        i ∈ runs
        ∧ get_workout_data (spreadsheet i) = Some all_data
        ∧ find_next_workout_and_exercises all_data = Ok (sheet_title, todo, day_title)
        ∧ st.workbook s = Some (Some tt)
        ∧ st.sheet_title s = Some sheet_title
        ∧ st.exercises_today s = Some todo
        ∧ st.day_title s = Some day_title
        ∧ st.current_exercise_index s = Some idx
        ∧ st.current_view s = Some view
        ∧ (view = "workout" ∧ (idx ≤ length todo)%nat
           ∨ view = "rest" ∧ (idx < length todo)%nat
             ∧ is_Some (st.rest_duration s) ∧ is_Some (st.rest_start_time s)
           ∨ view = "done" ∧ idx = length todo)
        ∧ length values = saved s
        ∧ Forall (λ v, v ≠ EmptyString) values
        ∧ calls w = earlier ++ writes (default "" sheet_title) (take (saved s) todo) values
        ∧ (uninterrupted runs → earlier = [])
  | _ =>
      st.sheet_title s = None ∧ st.exercises_today s = None
      ∧ (uninterrupted runs → calls w = [])
  end.


(** A run with a client, the workbook [book] and no restart. *)
Definition a_run (book : result (list (string * result (list (list string)))))
    (result_text : string) (submit : bool) (clock : Q) (next : bool) : inputs :=
  {| authorize_gspread := true; spreadsheet := book;
     actual_result := result_text; submitted := submit; time := clock;
     next_button := next; restart_button := false |}.

(** A session on [workbook1]: the page is opened, the result of the first
    exercise is saved, the rest is waited for, the result of the second is
    saved. *)
Definition session1_run : string → bool → Q → bool → inputs := a_run (Ok workbook1).

Definition session1 : list inputs :=
  [ session1_run "" false 0%Q false;
    session1_run "12, 11" true 10%Q false;
    session1_run "" false 70%Q true;
    session1_run "50 sec" true 80%Q false ].

(** A plan whose one exercise rests for 10^309 seconds, more than a float
    holds, and a session on it: the page is opened and a result is saved. *)
Definition long_rest : string :=
  String "1" (string_of_list_ascii (replicate 309 "0"%char)).

Definition month_long_rest : list (list string) :=
  [ ["Month 1"; ""; ""; ""; ""];
    ["Exercise"; "Sets"; "Reps"; "Rest"; "Workout 1 (Actual)"];
    ["Squat"; "3"; "10"; long_rest; ""] ].

Definition session_long_rest : list inputs :=
  [ a_run (Ok [("Month 1", Ok month_long_rest)]) "" false 0%Q false;
    a_run (Ok [("Month 1", Ok month_long_rest)]) "10" true 10%Q false ].

(** ** The progress bar ([render_history_tab]) *)

(** The value given to [st.progress], [int(perc)], when there is a plan;
    [None] when the bar is not shown. *)
Definition progress_value (all : sheets) : result (option Z) :=
  '(total, filled, perc) ← calculate_overall_completion all;
  if 0 <? total then Ok (Some (int_of_float perc)) else Ok None.

(** The rest time the workout view sets for an entry. *)
Definition rest_of (e : exercise) : Z :=
  match rest_duration (rest e) with
  | Ok d => d
  | Raise _ => 0
  end.

(** The rest times of a to-do list, added up. *)
Fixpoint total_rest (todo : list exercise) : Z :=
  match todo with
  | [] => 0
  | e :: todo' => rest_of e + total_rest todo'
  end.

(** The runs of a user who, entry by entry, submits a result at [clock]
    and presses the next button when the rest time has passed, and a last
    run after the last entry. *)
Fixpoint rounds (book : result (list (string * result (list (list string)))))
    (clock : Z) (todo : list exercise) (values : list string) : list inputs :=
  match todo, values with
  | e :: todo', v :: values' =>
      a_run book v true (inject_Z clock) false
      :: a_run book "" false (inject_Z (clock + rest_of e)) true
      :: rounds book (clock + rest_of e) todo' values'
  | _, _ => [a_run book "" false (inject_Z clock) false]
  end.

(** A session carried through: the page is opened, then the rounds. *)
Definition carried_through (book : result (list (string * result (list (list string)))))
    (todo : list exercise) (values : list string) : list inputs :=
  a_run book "" false 0%Q false :: rounds book 0 todo values.

(** The session works on the list [todo] of the sheet [title], shows
    [view] and is at the entry [idx]. *)
Definition session_at (title : string) (todo : list exercise) (view : string)
    (idx : nat) (s : st.session_state) : Prop :=
  st.app_ready s = Some true
  ∧ st.workbook s = Some (Some tt)
  ∧ st.sheet_title s = Some (Some title)
  ∧ st.exercises_today s = Some todo
  ∧ is_Some (st.day_title s)
  ∧ st.current_exercise_index s = Some idx
  ∧ st.current_view s = Some view.

(** * Properties *)

Example parse_actual_reps : parse_actual "10, 9, 8" = Some 27.
Proof. reflexivity. Qed.

Example parse_actual_secs : parse_actual "45-60 sec" = Some 45.
Proof. reflexivity. Qed.

Example parse_actual_done : parse_actual "Done" = Some 0.
Proof. reflexivity. Qed.

Example workout_cols_month1 :
  workout_cols (default [] (month1 !! 1%nat))
  = [(4%nat, "Workout 1 (Actual)"); (5%nat, "Workout 2 (Actual)")].
Proof. reflexivity. Qed.

Example history_month1 :
  List.map (fun r => (Exercise (record r), Workout_Order (record r), Metric r))
    <$> load_and_process_history [("Month 1", month1)]
  = Ok [("Squat", 1, Some 30); ("Push-up", 1, Some 34); ("Plank", 1, Some 45);
        ("Squat", 2, Some 27)].
Proof. vm_compute. reflexivity. Qed.

Example completion_month1 :
  calculate_overall_completion [("Month 1", month1)] = Ok (6, 4, percentage_of 4 6).
Proof. reflexivity. Qed.

Example next_month1 :
  find_next_workout_and_exercises [("Month 0", month0); ("Month 1", month1)]
  = Ok (Some "Month 1", month1_to_do, Some "Workout 2 (Actual)").
Proof. reflexivity. Qed.

(** ** Sequencing *)

Lemma bind_Ok {A B : Type} (c : result A) (k : A → result B) (b : B) :
  c ≫= k = Ok b ↔ ∃ a, c = Ok a ∧ k a = Ok b.
Proof.
  destruct c as [a|e]; simpl; split.
  - eauto.
  - intros (a' & Ha & Hk). by injection Ha as ->.
  - discriminate.
  - intros (a' & Ha & _). discriminate.
Qed.

(** One step of evaluation through a sequencing. *)
Ltac run := cbn [mbind result_bind Py.bind truthy negb].

Lemma index_Ok {A : Type} (l : list A) (i : nat) (x : A) :
  index l i = Ok x ↔ l !! i = Some x.
Proof.
  unfold index. destruct (l !! i); split; intros H; by inversion H.
Qed.

Lemma index_lt {A : Type} (l : list A) (i : nat) :
  (i < length l)%nat → ∃ x, index l i = Ok x ∧ l !! i = Some x.
Proof.
  intros Hi. destruct (lookup_lt_is_Some_2 l i Hi) as [x Hx].
  exists x. by rewrite index_Ok.
Qed.

(** ** [parse_actual] *)

Section Parsing.

Lemma isdigit_char_not_space (c : ascii) :
  isdigit_char c = true → isspace_char c = false.
Proof.
  destruct c as [[] [] [] [] [] [] [] []]; vm_compute; congruence.
Qed.

Lemma lstrip_no_space (s : string) :
  str_forallb (fun c => negb (isspace_char c)) s = true → lstrip s = s.
Proof.
  destruct s as [|c s]; simpl; [done|].
  intros [Hc _]%andb_prop. by destruct (isspace_char c).
Qed.

Lemma str_forallb_list (p : ascii → bool) (s : string) :
  str_forallb p s = forallb p (list_ascii_of_string s).
Proof. induction s as [|c s IH]; simpl; [done|]. by rewrite IH. Qed.

Lemma str_forallb_rev (p : ascii → bool) (s : string) :
  str_forallb p (str_rev s) = str_forallb p s.
Proof.
  unfold str_rev.
  rewrite !str_forallb_list, list_ascii_of_string_of_list_ascii.
  induction (list_ascii_of_string s) as [|c l IH]; simpl; [done|].
  rewrite forallb_app, IH. simpl. rewrite andb_true_r. apply andb_comm.
Qed.

Lemma str_rev_involutive (s : string) : str_rev (str_rev s) = s.
Proof.
  unfold str_rev.
  by rewrite list_ascii_of_string_of_list_ascii, rev_involutive,
    string_of_list_ascii_of_string.
Qed.

Lemma strip_no_space (s : string) :
  str_forallb (fun c => negb (isspace_char c)) s = true → strip s = s.
Proof.
  intros Hs. unfold strip.
  rewrite (lstrip_no_space s Hs), lstrip_no_space.
  - apply str_rev_involutive.
  - by rewrite str_forallb_rev.
Qed.

Lemma str_forallb_impl (p q : ascii → bool) (s : string) :
  (∀ c, p c = true → q c = true) →
  str_forallb p s = true → str_forallb q s = true.
Proof.
  intros Hpq. induction s as [|c s IH]; simpl; [done|].
  intros [Hc Hs]%andb_prop. by rewrite (Hpq c Hc), IH.
Qed.

Lemma strip_isdigit (s : string) : isdigit s = true → strip s = s.
Proof.
  unfold isdigit. intros [_ Hs]%andb_prop. apply strip_no_space.
  revert Hs. apply str_forallb_impl.
  intros c Hc. by rewrite (isdigit_char_not_space c Hc).
Qed.

(** Replacing commas by blanks and splitting on blanks is splitting on
    blanks and commas. *)
Lemma tokens_loop_replace (s cur : string) (out : list string) :
  tokens_loop isspace_char (replace_char "," " " s) cur out
  = tokens_loop spec_separator s cur out.
Proof.
  revert cur out. induction s as [|c s IH]; intros cur out; simpl; [done|].
  unfold spec_separator at 1.
  destruct (Ascii.eqb_spec c ",") as [->|Hne].
  - simpl. apply IH.
  - rewrite orb_false_r. destruct (isspace_char c); apply IH.
Qed.

Lemma split_replace (s : string) :
  split (replace_char "," " " s) = tokens spec_separator s.
Proof. apply tokens_loop_replace. Qed.

Lemma split_on_head (s : string) :
  index (split_on "-" s) 0 = Ok (before_dash s).
Proof.
  induction s as [|c s IH]; simpl; [done|].
  destruct (Ascii.eqb c "-"); [done|].
  destruct (split_on "-" s) as [|t ts]; [discriminate|].
  by injection IH as ->.
Qed.

(** The comprehension reads each purely-digit token with [int]. *)
Lemma parse_parts_mapM (toks : list string) :
  try_except (parse_parts toks) = mapM spec_integer (List.filter isdigit toks).
Proof.
  induction toks as [|s toks IH]; [done|].
  cbn [parse_parts List.filter].
  destruct (isdigit s) eqn:Hs; [|done].
  rewrite (strip_isdigit s Hs).
  change (mapM spec_integer (s :: List.filter isdigit toks))
    with (y ← spec_integer s;
          k ← mapM spec_integer (List.filter isdigit toks); mret (y :: k)).
  rewrite <- IH. unfold spec_integer.
  destruct (int s) as [v|e]; [|done].
  by destruct (parse_parts toks).
Qed.

Lemma parse_actual_sum (s : string) :
  contains "sec" (lower s) = false →
  parse_actual s = vs ← mapM spec_integer (digit_tokens s); Some (sum vs).
Proof.
  intros Hsec. unfold parse_actual, parse_actual_body, digit_tokens.
  rewrite Hsec, split_replace, <- parse_parts_mapM.
  by destruct (parse_parts _).
Qed.

Lemma parse_actual_seconds (s : string) :
  contains "sec" (lower s) = true →
  parse_actual s = spec_integer (filter_join isdigit_char (before_dash s)).
Proof.
  intros Hsec. unfold parse_actual, parse_actual_body.
  by rewrite Hsec, split_on_head.
Qed.

End Parsing.

(** C1, as the code has it: [parse_actual] agrees with the stated parsing
    rules on every string that contains "sec" (in any letter case) or has
    at least one purely-digit token; on every other string the sum of no
    tokens, 0, is returned instead of an absent metric.  So "10, 9, 8"
    gives 27, "45-60 sec" gives 45 and "Done" gives 0. *)
Theorem parse_actual_rules :
  (∀ s : string,
     parse_actual s =
       if contains "sec" (lower s) || list_truthy (digit_tokens s)
       then spec_parse_actual s
       else Some 0)
  ∧ parse_actual "10, 9, 8" = Some 27
  ∧ parse_actual "45-60 sec" = Some 45
  ∧ parse_actual "Done" = Some 0.
Proof.
  split; [|by repeat split].
  intros s. unfold spec_parse_actual.
  destruct (contains "sec" (lower s)) eqn:Hsec; simpl.
  - by apply parse_actual_seconds.
  - rewrite (parse_actual_sum s Hsec).
    by destruct (digit_tokens s).
Qed.

(** A run of more than 4300 digits is refused by [int], and the metric is
    absent. *)
Example parse_actual_digit_limit :
  parse_actual (string_of_list_ascii (replicate 4300 "1"%char)) ≠ None
  ∧ parse_actual (string_of_list_ascii (replicate 4301 "1"%char)) = None
  ∧ parse_actual (string_of_list_ascii (replicate 4301 "1"%char) ++ " sec") = None.
Proof. split; [by vm_compute|]. split; by vm_compute. Qed.

(** C1, as stated, fails: "Done" contains no "sec" and no digit token, and
    its metric is present (it is 0), where the stated rules make it absent. *)
Lemma parse_actual_Done_present :
  parse_actual "Done" ≠ None ∧ spec_parse_actual "Done" = None.
Proof. split; [discriminate|reflexivity]. Qed.

(** ** The exercise block *)

Section Block.

Lemma exercise_block_prefix (rows : list row) :
  exercise_block rows = take (length (exercise_block rows)) rows.
Proof.
  induction rows as [|r rows IH]; simpl; [done|].
  destruct (row_named r); simpl; [|done]. by rewrite <- IH.
Qed.

Lemma exercise_block_length (rows : list row) :
  (length (exercise_block rows) ≤ length rows)%nat.
Proof.
  induction rows as [|r rows IH]; simpl; [done|].
  destruct (row_named r); simpl; lia.
Qed.

Lemma exercise_block_lookup (rows : list row) (j : nat) (r : row) :
  exercise_block rows !! j = Some r → rows !! j = Some r.
Proof.
  rewrite exercise_block_prefix. rewrite lookup_take_Some. tauto.
Qed.

Lemma exercise_block_named (rows : list row) :
  Forall (λ r, row_named r = true) (exercise_block rows).
Proof.
  induction rows as [|r rows IH]; simpl; [constructor|].
  destruct (row_named r) eqn:Hr; by constructor.
Qed.

Lemma exercise_block_last (rows : list row) (r : row) :
  last (exercise_block rows) = Some r →
  rows !! pred (length (exercise_block rows)) = Some r.
Proof. rewrite last_lookup. apply exercise_block_lookup. Qed.

Lemma exercise_block_nil (rows : list row) :
  exercise_block rows = [] ↔ list_truthy (exercise_block rows) = false.
Proof. by destruct (exercise_block rows). Qed.

(** The counting loop of the completion calculator measures the block. *)
Lemma count_exercises_block (rows : list row) (num : nat) :
  count_exercises rows num = (num + length (exercise_block rows))%nat.
Proof.
  revert num. induction rows as [|r rows IH]; intros num; simpl; [lia|].
  destruct (row_named r); simpl; [|lia]. rewrite IH. lia.
Qed.

(** The index loop of the resolver ends on the last row of the block. *)
Lemma last_exercise_row_block (rows : list row) (i : nat) (z : Z) :
  last_exercise_row (enumerate_from i rows) z =
    match exercise_block rows with
    | [] => z
    | _ :: _ => Z.of_nat (i + pred (length (exercise_block rows)))
    end.
Proof.
  revert i z. induction rows as [|r rows IH]; intros i z; simpl; [done|].
  destruct (row_named r); simpl; [|done].
  rewrite IH. destruct (exercise_block rows); simpl; f_equal; lia.
Qed.

(** The to-do loop, which breaks at the first unnamed row, is the scan of
    the block. *)
Lemma collect_exercises_block (rows : list row) (i col : nat) :
  collect_exercises (enumerate_from i rows) col
  = spec_to_do (enumerate_from i (exercise_block rows)) col.
Proof.
  revert i. induction rows as [|r rows IH]; intros i; simpl; [done|].
  destruct (row_named r); simpl; [|done].
  destruct (index r col) as [cell|e]; simpl; [|done].
  destruct (truthy cell); simpl; [apply IH|].
  unfold to_do_entry.
  destruct (index r 0) as [n|e]; simpl; [|done].
  destruct (index r 1) as [s|e]; simpl; [|done].
  destruct (index r 2) as [g|e]; simpl; [|done].
  destruct (index r 3) as [t|e]; simpl; [|done].
  by rewrite IH.
Qed.

End Block.

(** ** The to-do list of a column *)

Section ToDo.

Lemma truthy_false (s : string) : truthy s = false ↔ s = EmptyString.
Proof. by destruct s. Qed.

Lemma to_do_entry_Ok (i : nat) (r : row) (col : nat) (e : exercise) :
  to_do_entry i r col = Ok e →
  r !! 0%nat = Some (name e) ∧ r !! 1%nat = Some (sets_goal e)
  ∧ r !! 2%nat = Some (reps_goal e) ∧ r !! 3%nat = Some (rest e)
  ∧ gspread_row e = Z.of_nat i + 3 ∧ gspread_col e = Z.of_nat col + 1.
Proof.
  unfold to_do_entry.
  intros (n & Hn & (s & Hs & (g & Hg & (t & Ht & He)%bind_Ok)%bind_Ok)%bind_Ok)%bind_Ok.
  apply index_Ok in Hn, Hs, Hg, Ht. injection He as <-. by simpl.
Qed.

(** Case analysis of one turn of the to-do loop. *)
Lemma spec_to_do_cons (i : nat) (r : row) (rest : list (nat * row)) (col : nat)
    (todo : list exercise) :
  spec_to_do ((i, r) :: rest) col = Ok todo →
  ∃ cell, r !! col = Some cell
    ∧ ((truthy cell = true ∧ spec_to_do rest col = Ok todo)
       ∨ (cell = EmptyString
          ∧ ∃ e todo', to_do_entry i r col = Ok e
                       ∧ spec_to_do rest col = Ok todo'
                       ∧ todo = e :: todo')).
Proof.
  simpl. intros (cell & Hcell%index_Ok & H)%bind_Ok. exists cell. split; [done|].
  destruct (truthy cell) eqn:Ht; [by left|right].
  apply truthy_false in Ht. split; [done|].
  apply bind_Ok in H as (e & He & (todo' & Htodo & H)%bind_Ok).
  exists e, todo'. by injection H as <-.
Qed.

(** Every entry targets the chosen column and a row of the block, and the
    targeted rows strictly increase. *)
Lemma spec_to_do_rows (b : list row) (i col : nat) (todo : list exercise) :
  spec_to_do (enumerate_from i b) col = Ok todo →
  Forall (λ e, gspread_col e = Z.of_nat col + 1
               ∧ Z.of_nat i + 3 ≤ gspread_row e ≤ Z.of_nat i + 2 + Z.of_nat (length b)) todo
  ∧ StronglySorted Z.lt (gspread_row <$> todo).
Proof.
  revert i todo. induction b as [|r b IH]; intros i todo.
  - simpl. intros [= <-]. split; constructor.
  - intros (cell & _ & [[_ H]|(-> & e & todo' & He & H & ->)])%spec_to_do_cons.
    + destruct (IH _ _ H) as [Hall Hsort]. split; [|done].
      eapply Forall_impl; [exact Hall|]. simpl. intros e' [? ?]. split; [done|lia].
    + destruct (IH _ _ H) as [Hall Hsort].
      apply to_do_entry_Ok in He as (_ & _ & _ & _ & Hrow & Hcol).
      split.
      * constructor; [simpl; split; [done|lia]|].
        eapply Forall_impl; [exact Hall|]. simpl. intros e' [? ?]. split; [done|lia].
      * rewrite fmap_cons. constructor; [done|].
        rewrite Forall_fmap. eapply Forall_impl; [exact Hall|].
        simpl. intros e' [_ ?]. lia.
Qed.

(** Every empty cell of the column within the block has its entry. *)
Lemma spec_to_do_elem (b : list row) (i col j : nat) (todo : list exercise) (r : row) :
  spec_to_do (enumerate_from i b) col = Ok todo →
  b !! j = Some r → r !! col = Some EmptyString →
  ∃ e, e ∈ todo ∧ gspread_row e = Z.of_nat (i + j) + 3 ∧ r !! 0%nat = Some (name e).
Proof.
  revert i j todo. induction b as [|r' b IH]; intros i j todo; [done|].
  intros (cell & Hcell & Hcase)%spec_to_do_cons Hj Hr.
  destruct j as [|j]; simpl in Hj.
  - injection Hj as ->. rewrite Hr in Hcell. injection Hcell as <-.
    destruct Hcase as [[? _]|(_ & e & todo' & He & _ & ->)]; [done|].
    apply to_do_entry_Ok in He as (Hn & _ & _ & _ & Hrow & _).
    exists e. rewrite Nat.add_0_r. split; [left|done].
  - assert (∃ todo', spec_to_do (enumerate_from (S i) b) col = Ok todo'
                     ∧ ∀ e, e ∈ todo' → e ∈ todo) as (todo' & H & Hsub).
    { destruct Hcase as [[_ H]|(_ & e & todo' & _ & H & ->)].
      - by exists todo.
      - exists todo'. split; [done|]. intros e' ?. by right. }
    destruct (IH _ _ _ H Hj Hr) as (e & He & Hrow & Hn).
    exists e. split; [by apply Hsub|]. split; [|done]. rewrite Hrow. lia.
Qed.

End ToDo.

(** ** The schedule resolver *)

Section Resolver.

Lemma spec_next_column_Some (last_row : row) (cols : list nat) (col : nat) :
  spec_next_column last_row cols = Ok (Some col) →
  col ∈ cols ∧ last_row !! col = Some EmptyString.
Proof.
  induction cols as [|c cols IH]; simpl; [done|].
  intros (cell & Hcell%index_Ok & H)%bind_Ok.
  destruct (truthy cell) eqn:Ht.
  - destruct (IH H) as [? ?]. split; [by right|done].
  - injection H as <-. apply truthy_false in Ht as ->. split; [left|done].
Qed.

(** The column loop: the emptiness test on the to-do list never fails,
    since the last row of the block, whose empty cell selected the column,
    is among the rows the list is built from. *)
Lemma next_in_columns_spec (sheet_title : string) (headers : row)
    (rows : list row) (last_row : row) (cols : list nat) :
  last (exercise_block rows) = Some last_row →
  next_in_columns sheet_title headers rows
    (Z.of_nat (pred (length (exercise_block rows)))) cols
  = chosen ← spec_next_column last_row cols;
    match chosen with
    | None => Ok None
    | Some col =>
        todo ← spec_to_do (enumerate (exercise_block rows)) col;
        day ← index headers col;
        Ok (Some (sheet_title, todo, day))
    end.
Proof.
  intros Hlast.
  pose proof (exercise_block_last rows last_row Hlast) as Hrow.
  induction cols as [|c cols IH]; [done|].
  cbn [next_in_columns spec_next_column].
  rewrite Nat2Z.id. apply index_Ok in Hrow. rewrite Hrow. simpl.
  destruct (index last_row c) as [cell|e] eqn:Hcell; simpl; [|done].
  destruct (truthy cell) eqn:Ht; simpl; [apply IH|].
  unfold enumerate. rewrite collect_exercises_block.
  destruct (spec_to_do (enumerate_from 0 (exercise_block rows)) c)
    as [todo|e] eqn:Htodo; simpl; [|done].
  apply truthy_false in Ht as ->. apply index_Ok in Hcell.
  rewrite last_lookup in Hlast.
  destruct (spec_to_do_elem _ _ _ _ _ _ Htodo Hlast Hcell) as (e & He & _).
  destruct todo as [|e' todo]; [by apply elem_of_nil in He|done].
Qed.

(** The resolver computes what steps 1 to 6 describe. *)
Lemma find_next_spec_resolve (all : sheets) :
  find_next_workout_and_exercises all = spec_resolve all.
Proof.
  induction all as [|[sheet_title data] all IH]; [done|].
  cbn [find_next_workout_and_exercises spec_resolve].
  unfold spec_resolve_sheet, qualifies.
  destruct (Nat.ltb_spec (length data) 3) as [Hlen|Hlen].
  { rewrite (proj2 (Nat.leb_gt 3 (length data))) by lia. apply IH. }
  rewrite (proj2 (Nat.leb_le 3 (length data))) by lia.
  destruct (index_lt data 1 ltac:(lia)) as (headers & -> & ->). simpl.
  destruct (list_truthy (workout_col_indices headers)); simpl; [|apply IH].
  unfold enumerate. rewrite last_exercise_row_block.
  destruct (last (exercise_block (drop 2 data))) as [last_row|] eqn:Hlast.
  2: { apply last_None in Hlast. rewrite Hlast. apply IH. }
  pose proof (next_in_columns_spec sheet_title headers (drop 2 data) last_row
                (workout_col_indices headers) Hlast) as Hcols.
  destruct (exercise_block (drop 2 data)) as [|r b] eqn:Hb; [done|].
  cbn [list_truthy negb]. rewrite Nat.add_0_l.
  destruct (Z.eqb_spec (Z.of_nat (pred (length (r :: b)))) (-1)) as [?|_]; [lia|].
  rewrite Hcols. unfold enumerate.
  generalize (spec_to_do (enumerate_from 0 (r :: b))). intros to_do.
  destruct (spec_next_column last_row (workout_col_indices headers))
    as [[col|]|e]; simpl; [|apply IH|done].
  destruct (to_do col) as [todo|e]; [|done].
  simpl. by destruct (index headers col).
Qed.

(** What a sheet that is not skipped returns. *)
Lemma spec_resolve_sheet_Some (sheet_title : string) (data : list (list string))
    (title : string) (todo : list exercise) (day : string) :
  spec_resolve_sheet sheet_title data = Ok (Some (title, todo, day)) →
  title = sheet_title ∧ qualifies data = true
  ∧ ∃ headers last_row col,
      data !! 1%nat = Some headers
      ∧ last (exercise_block (drop 2 data)) = Some last_row
      ∧ col ∈ workout_col_indices headers
      ∧ last_row !! col = Some EmptyString
      ∧ spec_to_do (enumerate (exercise_block (drop 2 data))) col = Ok todo
      ∧ headers !! col = Some day.
Proof.
  unfold spec_resolve_sheet.
  destruct (qualifies data) eqn:Hq; simpl; [|done].
  destruct (last (exercise_block (drop 2 data))) as [last_row|]; [|done].
  intros ([col|] & Hcol & H)%bind_Ok; [|done].
  apply bind_Ok in H as (todo' & Htodo & (day' & Hday%index_Ok & H)%bind_Ok).
  injection H as <- <- <-.
  apply spec_next_column_Some in Hcol as [Hin Hcell].
  split; [done|]. split; [done|].
  unfold qualifies in Hq.
  destruct (data !! 1%nat) as [headers|] eqn:Hh.
  - exists headers, last_row, col. by simpl in *.
  - simpl in Hin. by apply elem_of_nil in Hin.
Qed.

(** What the resolver returns: nothing, or what the first sheet that is
    not skipped returns. *)
Lemma spec_resolve_Ok (all : sheets)
    (r : option string * list exercise * option string) :
  spec_resolve all = Ok r →
  r = (None, [], None)
  ∨ ∃ title data todo day,
      (title, data) ∈ all
      ∧ spec_resolve_sheet title data = Ok (Some (title, todo, day))
      ∧ r = (Some title, todo, Some day).
Proof.
  induction all as [|[sheet_title data] all IH]; simpl.
  - intros [= <-]. by left.
  - intros ([[[title todo] day]|] & Hsheet & H)%bind_Ok.
    + injection H as <-. right.
      destruct (spec_resolve_sheet_Some _ _ _ _ _ Hsheet) as [-> _].
      exists sheet_title, data, todo, day. split; [left|done].
    + destruct (IH H) as [->|(title & data' & todo & day & Hin & Hs & ->)]; [by left|].
      right. exists title, data', todo, day. split; [by right|done].
Qed.

(** Sheets that are skipped do not change the outcome. *)
Lemma spec_resolve_skip (pre rest : sheets) :
  Forall (λ td, spec_resolve_sheet td.1 td.2 = Ok None) pre →
  spec_resolve (pre ++ rest) = spec_resolve rest.
Proof.
  induction 1 as [|[title data] pre Hskip _ IH]; simpl; [done|].
  simpl in Hskip. by rewrite Hskip.
Qed.

End Resolver.

(** ** Properties of the schedule resolver *)

(** C3.  When a workout-actual column is selected in a sheet (the first
    column, in header order, whose cell in the last row of the exercise
    block is empty) and every earlier sheet was skipped, the resolver
    returns that sheet's name, the to-do list computed for that column
    and that column's header.  Nothing is asked of the list: it is
    returned as computed, and later columns and sheets play no part.
    (The list is in fact never empty, as the last conjunct says.) *)
Theorem selected_column_is_returned
    (pre post : sheets) (sheet_title : string) (data : list (list string))
    (headers last_row : list string) (col : nat) (todo : list exercise)
    (day : string) :
  Forall (λ td, spec_resolve_sheet td.1 td.2 = Ok None) pre →
  qualifies data = true →
  data !! 1%nat = Some headers →
  last (exercise_block (drop 2 data)) = Some last_row →
  spec_next_column last_row (workout_col_indices headers) = Ok (Some col) →
  spec_to_do (enumerate (exercise_block (drop 2 data))) col = Ok todo →
  headers !! col = Some day →
  find_next_workout_and_exercises (pre ++ (sheet_title, data) :: post)
  = Ok (Some sheet_title, todo, Some day)
  ∧ todo ≠ [].
Proof.
  intros Hpre Hq Hh Hlast Hcol Htodo Hday. split.
  - rewrite find_next_spec_resolve, (spec_resolve_skip _ _ Hpre). simpl.
    unfold spec_resolve_sheet. rewrite Hq, Hh, Hlast. simpl.
    rewrite Hcol. simpl. rewrite Htodo. simpl.
    apply index_Ok in Hday. by rewrite Hday.
  - apply spec_next_column_Some in Hcol as [_ Hcell].
    rewrite last_lookup in Hlast.
    destruct (spec_to_do_elem _ _ _ _ _ _ Htodo Hlast Hcell) as (e & He & _).
    intros ->. by apply elem_of_nil in He.
Qed.

Lemma selected_column_is_returned_witness :
  find_next_workout_and_exercises [("Month 0", month0); ("Month 1", month1)]
  = Ok (Some "Month 1", month1_to_do, Some "Workout 2 (Actual)")
  ∧ month1_to_do ≠ [].
Proof.
  apply (selected_column_is_returned [("Month 0", month0)] [] "Month 1" month1
           ["Exercise"; "Sets"; "Reps"; "Rest"; "Workout 1 (Actual)"; "Workout 2 (Actual)"]
           ["Plank"; "3"; "45-60 sec"; "30 sec"; "45-60 sec"; ""]
           5%nat month1_to_do "Workout 2 (Actual)").
  - repeat constructor.
  - reflexivity.
  - reflexivity.
  - reflexivity.
  - reflexivity.
  - reflexivity.
  - reflexivity.
Defined.

(** C10.  When the resolver returns a non-empty to-do list, it comes with
    a sheet and one of its workout-actual columns (the one whose header is
    the day label): every entry has [gspread_col] = that column's offset
    + 1, and the [gspread_row] values strictly increase and lie between 3
    and 2 + the length of the sheet's exercise block. *)
Theorem to_do_targets (all : sheets) (title : option string)
    (todo : list exercise) (day : option string) :
  find_next_workout_and_exercises all = Ok (title, todo, day) →
  todo ≠ [] →
  ∃ t data headers col,
    title = Some t ∧ (t, data) ∈ all ∧ data !! 1%nat = Some headers
    ∧ col ∈ workout_col_indices headers ∧ headers !! col = day
    ∧ Forall (λ e, gspread_col e = Z.of_nat col + 1) todo
    ∧ StronglySorted Z.lt (gspread_row <$> todo)
    ∧ Forall (λ e, 3 ≤ gspread_row e
                   ≤ 2 + Z.of_nat (length (exercise_block (drop 2 data)))) todo.
Proof.
  rewrite find_next_spec_resolve.
  intros [[= -> -> ->]|(t & data & todo' & d & Hin & Hsheet & [= -> -> ->])]%spec_resolve_Ok;
    [done|]. intros _.
  apply spec_resolve_sheet_Some in Hsheet
    as (_ & _ & headers & last_row & col & Hh & _ & Hcol & _ & Htodo & Hday).
  apply spec_to_do_rows in Htodo as [Hall Hsorted].
  exists t, data, headers, col. repeat split; try done.
  - eapply Forall_impl; [exact Hall|]. by intros e [? _].
  - eapply Forall_impl; [exact Hall|]. simpl. intros e [_ ?]. lia.
Qed.

Lemma to_do_targets_witness :
  ∃ t data headers col,
    Some "Month 1" = Some t
    ∧ (t, data) ∈ [("Month 0", month0); ("Month 1", month1)]
    ∧ data !! 1%nat = Some headers
    ∧ col ∈ workout_col_indices headers
    ∧ headers !! col = Some "Workout 2 (Actual)"
    ∧ Forall (λ e, gspread_col e = Z.of_nat col + 1) month1_to_do
    ∧ StronglySorted Z.lt (gspread_row <$> month1_to_do)
    ∧ Forall (λ e, 3 ≤ gspread_row e
                   ≤ 2 + Z.of_nat (length (exercise_block (drop 2 data)))) month1_to_do.
Proof.
  apply (to_do_targets [("Month 0", month0); ("Month 1", month1)]
           (Some "Month 1") month1_to_do (Some "Workout 2 (Actual)")).
  - reflexivity.
  - discriminate.
Defined.

Lemma not_qualified_skipped (sheet_title : string) (data : list (list string)) :
  qualifies data = false → spec_resolve_sheet sheet_title data = Ok None.
Proof. unfold spec_resolve_sheet. by intros ->. Qed.

Lemma filled_index (r : list string) (col : nat) :
  filled r col = true → ∃ cell, index r col = Ok cell ∧ truthy cell = true.
Proof.
  unfold filled, index. destruct (r !! col) as [cell|]; [|done]. by exists cell.
Qed.

Lemma take_lookup_index (r : list string) (n i : nat) (l : list string) (x : string) :
  take n r = l → l !! i = Some x → index r i = Ok x.
Proof.
  intros <- [Hx _]%lookup_take_Some. by apply index_Ok.
Qed.



(** ** The completion calculator *)

Section Completion.

Lemma enumerate_from_elem {A : Type} (l : list A) (i j : nat) (x : A) :
  (j, x) ∈ enumerate_from i l → (i ≤ j)%nat ∧ l !! (j - i)%nat = Some x.
Proof.
  revert i. induction l as [|y l IH]; intros i; simpl.
  - by intros ?%elem_of_nil.
  - intros [[= -> ->]|Hin]%elem_of_cons.
    + by rewrite Nat.sub_diag.
    + destruct (IH _ Hin) as [Hle Hx]. split; [lia|].
      by replace (j - i)%nat with (S (j - S i)) by lia.
Qed.

(** The workout-actual columns index the header row. *)
Lemma workout_col_indices_lt (headers : list string) (col : nat) :
  col ∈ workout_col_indices headers → (col < length headers)%nat.
Proof.
  unfold workout_col_indices.
  intros ([j h] & -> & Hin)%list_elem_of_fmap.
  apply list_elem_of_In, filter_In in Hin as [Hin%list_elem_of_In _].
  apply enumerate_from_elem in Hin as [_ Hh]. simpl in *.
  apply lookup_lt_Some in Hh. lia.
Qed.

Lemma count_filled_cols_bounds (rows : list (list string)) (i : nat)
    (cols : list nat) (f f' : Z) :
  count_filled_cols rows i cols f = Ok f' →
  f ≤ f' ≤ f + Z.of_nat (length cols).
Proof.
  revert f. induction cols as [|c cols IH]; intros f; simpl.
  - intros [= <-]. lia.
  - intros (r & _ & (cell & _ & H%IH)%bind_Ok)%bind_Ok.
    destruct (truthy cell); lia.
Qed.

Lemma count_filled_rows_bounds (rows : list (list string)) (range cols : list nat)
    (f f' : Z) :
  count_filled_rows rows range cols f = Ok f' →
  f ≤ f' ≤ f + Z.of_nat (length range) * Z.of_nat (length cols).
Proof.
  revert f. induction range as [|i range IH]; intros f; simpl.
  - intros [= <-]. lia.
  - intros (g & Hg%count_filled_cols_bounds & H%IH)%bind_Ok. lia.
Qed.

(** The loop keeps [0 <= filled_slots <= total_slots]. *)
Lemma completion_sheets_bounds (all : sheets) (t f t' f' : Z) :
  completion_sheets all t f = Ok (t', f') →
  0 ≤ f ≤ t → 0 ≤ f' ≤ t'.
Proof.
  revert t f. induction all as [|[title data] all IH]; intros t f; simpl.
  - by intros [= <- <-].
  - destruct (length data <? 3)%nat; [apply IH|].
    intros (headers & _ & H)%bind_Ok. revert H.
    destruct (list_truthy (workout_col_indices headers)); simpl; [|apply IH].
    destruct (count_exercises (drop 2 data) 0 =? 0)%nat; [apply IH|].
    intros (g & Hg%count_filled_rows_bounds & H)%bind_Ok Hf.
    apply (IH _ _ H). rewrite length_seq in Hg. lia.
Qed.

(** *** Filling cells *)

Lemma row_filled_from_index (r r' : list string) (c : nat) (x : string) :
  row_filled_from r r' → index r c = Ok x →
  ∃ x', index r' c = Ok x' ∧ (truthy x = true → truthy x' = true).
Proof.
  intros [_ Hcells] Hx%index_Ok.
  destruct (Forall2_lookup_l _ _ _ _ _ Hcells Hx) as (x' & Hx' & Hxx').
  exists x'. rewrite index_Ok. split; [done|].
  by destruct Hxx' as [->| ->].
Qed.

Lemma row_filled_from_named (r r' : list string) :
  row_filled_from r r' → row_named r = row_named r'.
Proof.
  intros [Hhead Hcells]. unfold row_named. rewrite <- !head_lookup, Hhead.
  by destruct Hcells.
Qed.

Lemma count_exercises_filled_from (rows rows' : list (list string)) (n : nat) :
  Forall2 row_filled_from rows rows' →
  count_exercises rows n = count_exercises rows' n.
Proof.
  intros H. revert n. induction H as [|r r' rows rows' Hr _ IH]; intros n; simpl; [done|].
  rewrite (row_filled_from_named r r' Hr). by rewrite IH.
Qed.

Lemma count_filled_cols_mono (rows rows' : list (list string)) (i : nat)
    (cols : list nat) (f g f' : Z) :
  Forall2 row_filled_from rows rows' →
  count_filled_cols rows i cols f = Ok f' → f ≤ g →
  ∃ g', count_filled_cols rows' i cols g = Ok g' ∧ f' ≤ g'.
Proof.
  intros Hrows. revert f g. induction cols as [|c cols IH]; intros f g; simpl.
  - intros [= <-] ?. by exists g.
  - intros (r & Hr%index_Ok & (x & Hx & H)%bind_Ok)%bind_Ok Hfg.
    destruct (Forall2_lookup_l _ _ _ _ _ Hrows Hr) as (r' & Hr' & Hrr').
    destruct (row_filled_from_index r r' c x Hrr' Hx) as (x' & Hx' & Hxx').
    apply index_Ok in Hr'. rewrite Hr'. run. rewrite Hx'. run.
    apply (IH _ _ H). destruct (truthy x), (truthy x'); try lia.
Qed.

Lemma count_filled_rows_mono (rows rows' : list (list string))
    (range cols : list nat) (f g f' : Z) :
  Forall2 row_filled_from rows rows' →
  count_filled_rows rows range cols f = Ok f' → f ≤ g →
  ∃ g', count_filled_rows rows' range cols g = Ok g' ∧ f' ≤ g'.
Proof.
  intros Hrows. revert f g. induction range as [|i range IH]; intros f g; simpl.
  - intros [= <-] ?. by exists g.
  - intros (f1 & Hf1 & H)%bind_Ok Hfg.
    destruct (count_filled_cols_mono _ _ _ _ _ _ _ Hrows Hf1 Hfg) as (g1 & -> & Hg1).
    run. by apply (IH _ _ H).
Qed.

Lemma filled_from_length (data data' : list (list string)) :
  filled_from data data' → length data = length data'.
Proof.
  intros [Htake Hdrop%Forall2_length].
  rewrite <- (take_drop 2 data), <- (take_drop 2 data'), !length_app.
  by rewrite Htake, Hdrop.
Qed.

Lemma filled_from_headers (data data' : list (list string)) :
  filled_from data data' → data !! 1%nat = data' !! 1%nat.
Proof.
  intros [Htake _].
  rewrite <- (lookup_take_lt data 2 1), <- (lookup_take_lt data' 2 1) by lia.
  by rewrite Htake.
Qed.

(** Filling cells leaves the slot total as it is and can only raise the
    count of filled slots. *)
Lemma completion_sheets_mono (all all' : sheets) (t f g t' f' : Z) :
  sheets_filled_from all all' →
  completion_sheets all t f = Ok (t', f') → f ≤ g →
  ∃ g', completion_sheets all' t g = Ok (t', g') ∧ f' ≤ g'.
Proof.
  intros H. revert t f g.
  induction H as [|[title data] [title' data'] all all' [_ Hd] _ IH];
    intros t f g; simpl in *.
  - intros [= <- <-] ?. by exists g.
  - rewrite <- (filled_from_length _ _ Hd).
    destruct (length data <? 3)%nat; [apply IH|].
    unfold index. rewrite <- (filled_from_headers _ _ Hd).
    destruct (data !! 1%nat) as [headers|]; [|done]. run.
    destruct (list_truthy (workout_col_indices headers)); simpl; [|apply IH].
    destruct Hd as [_ Hrows].
    rewrite <- (count_exercises_filled_from _ _ 0 Hrows).
    destruct (count_exercises (drop 2 data) 0 =? 0)%nat; [apply IH|].
    intros (f1 & Hf1 & H)%bind_Ok Hfg.
    destruct (count_filled_rows_mono _ _ _ _ _ _ _ Hrows Hf1 Hfg) as (g1 & -> & Hg1).
    run. by apply (IH _ _ _ H).
Qed.

Lemma row_filled_from_refl (r : list string) : row_filled_from r r.
Proof.
  split; [done|]. apply Forall_Forall2_diag, Forall_forall. by left.
Qed.

Lemma filled_from_refl (data : list (list string)) : filled_from data data.
Proof.
  split; [done|]. apply Forall_Forall2_diag, Forall_forall.
  intros r _. apply row_filled_from_refl.
Qed.

(** Writing a value into one empty cell, neither in the first column nor
    in the two top rows, fills the snapshot. *)
Lemma filled_from_insert (data : list (list string)) (i j : nat)
    (r : list string) (v : string) :
  data !! i = Some r → r !! j = Some EmptyString → (2 ≤ i)%nat → (1 ≤ j)%nat →
  filled_from data (<[i := <[j := v]> r]> data).
Proof.
  intros Hr Hc Hi Hj. split.
  - by rewrite take_insert_ge.
  - rewrite drop_insert_ge by done.
    rewrite <- (list_insert_id (drop 2 data) (i - 2) r) at 1
      by (rewrite lookup_drop; by replace (2 + (i - 2))%nat with i by lia).
    apply Forall2_insert.
    + apply Forall_Forall2_diag, Forall_forall. intros ? _. apply row_filled_from_refl.
    + split.
      * destruct r, j; simpl; done || lia.
      * rewrite <- (list_insert_id r j EmptyString Hc) at 1.
        apply Forall2_insert; [|by right].
        apply Forall_Forall2_diag, Forall_forall. by left.
Qed.

Lemma sheets_filled_from_insert (all : sheets) (k : nat) (title : string)
    (data data' : list (list string)) :
  all !! k = Some (title, data) → filled_from data data' →
  sheets_filled_from all (<[k := (title, data')]> all).
Proof.
  intros Hk Hd. unfold sheets_filled_from.
  rewrite <- (list_insert_id all k _ Hk) at 1.
  apply Forall2_insert; [|done].
  apply Forall_Forall2_diag, Forall_forall.
  intros [t d] _. split; [done|]. apply filled_from_refl.
Qed.

(** *** Padded snapshots never raise *)

Lemma count_filled_cols_total (rows : list (list string)) (i : nat)
    (r : list string) (cols : list nat) (f : Z) :
  rows !! i = Some r → Forall (λ c, (c < length r)%nat) cols →
  ∃ f', count_filled_cols rows i cols f = Ok f'.
Proof.
  intros Hr%index_Ok Hcols. revert f.
  induction Hcols as [|c cols Hc _ IH]; intros f; simpl; [by exists f|].
  rewrite Hr. run. destruct (index_lt r c Hc) as (cell & -> & _). run. apply IH.
Qed.

Lemma count_filled_rows_total (rows : list (list string)) (range cols : list nat)
    (f : Z) :
  Forall (λ i, ∃ r, rows !! i = Some r ∧ Forall (λ c, (c < length r)%nat) cols) range →
  ∃ f', count_filled_rows rows range cols f = Ok f'.
Proof.
  intros Hrange. revert f.
  induction Hrange as [|i range (r & Hr & Hcols) _ IH]; intros f; simpl; [by exists f|].
  destruct (count_filled_cols_total rows i r cols f Hr Hcols) as (f1 & ->). run.
  apply IH.
Qed.

Lemma padded_row (data : list (list string)) (headers r : list string)
    (i col : nat) :
  padded data = true → data !! 1%nat = Some headers →
  drop 2 data !! i = Some r → col ∈ workout_col_indices headers →
  (col < length r)%nat.
Proof.
  unfold padded. intros Hp Hh Hr Hcol%workout_col_indices_lt.
  rewrite Hh, forallb_forall in Hp.
  apply list_elem_of_lookup_2, list_elem_of_In, Hp, Nat.leb_le in Hr. lia.
Qed.

Lemma completion_sheets_total (all : sheets) (t f : Z) :
  Forall (λ td, padded td.2 = true) all →
  ∃ r, completion_sheets all t f = Ok r.
Proof.
  intros H. revert t f.
  induction H as [|[title data] all Hp _ IH]; intros t f; simpl in *; [by eexists|].
  destruct (Nat.ltb_spec (length data) 3) as [?|Hlen]; [apply IH|].
  destruct (index_lt data 1 ltac:(lia)) as (headers & -> & Hh). run.
  destruct (list_truthy (workout_col_indices headers)); simpl; [|apply IH].
  destruct (count_exercises (drop 2 data) 0 =? 0)%nat; [apply IH|].
  edestruct count_filled_rows_total as (f1 & ->); [|run; apply IH].
  apply Forall_forall. intros i [_ Hi]%elem_of_seq.
  rewrite count_exercises_block in Hi. simpl in Hi.
  pose proof (exercise_block_length (drop 2 data)) as Hb.
  destruct (lookup_lt_is_Some_2 (drop 2 data) i ltac:(lia)) as [r Hr].
  exists r. split; [done|]. apply Forall_forall. intros c Hc.
  by apply (padded_row data headers r i c).
Qed.

End Completion.

(** ** The resolver returns on complete snapshots *)

Section ResolverTotal.

Lemma spec_next_column_total (last_row : list string) (cols : list nat) :
  Forall (λ c, (c < length last_row)%nat) cols →
  ∃ chosen, spec_next_column last_row cols = Ok chosen.
Proof.
  induction 1 as [|c cols Hc _ [chosen IH]]; simpl; [by eexists|].
  destruct (index_lt last_row c Hc) as (cell & -> & _). run.
  destruct (truthy cell); by eexists.
Qed.

Lemma spec_to_do_total (b : list (list string)) (i col : nat) :
  Forall (λ r, (col < length r)%nat ∧ (4 ≤ length r)%nat) b →
  ∃ todo, spec_to_do (enumerate_from i b) col = Ok todo.
Proof.
  intros H. revert i. induction H as [|r b [Hcol Hr] _ IH]; intros i; simpl; [by eexists|].
  destruct (index_lt r col Hcol) as (cell & -> & _). run.
  destruct (IH (S i)) as [todo ->].
  destruct (truthy cell); [by eexists|].
  unfold to_do_entry.
  destruct (index_lt r 0 ltac:(lia)) as (n & -> & _).
  destruct (index_lt r 1 ltac:(lia)) as (s & -> & _).
  destruct (index_lt r 2 ltac:(lia)) as (g & -> & _).
  destruct (index_lt r 3 ltac:(lia)) as (t & -> & _).
  run. by eexists.
Qed.

Lemma spec_resolve_sheet_total (sheet_title : string) (data : list (list string)) :
  padded data = true → attributed data = true →
  ∃ found, spec_resolve_sheet sheet_title data = Ok found.
Proof.
  intros Hp Ha. unfold spec_resolve_sheet.
  destruct (qualifies data) eqn:Hq; simpl; [|by eexists].
  unfold qualifies in Hq.
  apply andb_prop in Hq as [[Hlen%Nat.leb_le Hcols]%andb_prop _].
  destruct (lookup_lt_is_Some_2 data 1 ltac:(lia)) as [headers Hh].
  rewrite Hh. simpl.
  destruct (last (exercise_block (drop 2 data))) as [last_row|] eqn:Hlast; [|by eexists].
  assert (∀ r col, r ∈ exercise_block (drop 2 data) →
                   col ∈ workout_col_indices headers →
                   (col < length r)%nat ∧ (4 ≤ length r)%nat) as Hrow.
  { intros r col [j Hj%exercise_block_lookup]%list_elem_of_lookup_1 Hcol. split.
    - by apply (padded_row data headers r j col).
    - unfold attributed in Ha. rewrite forallb_forall in Ha.
      by apply list_elem_of_lookup_2, list_elem_of_In, Ha, Nat.leb_le in Hj. }
  assert (last_row ∈ exercise_block (drop 2 data)) as Hin.
  { rewrite last_lookup in Hlast. by apply list_elem_of_lookup_2 in Hlast. }
  destruct (spec_next_column_total last_row (workout_col_indices headers))
    as [[col|] Hchosen].
  { apply Forall_forall. intros c Hc. by apply (Hrow last_row c Hin Hc). }
  2: { rewrite Hchosen. run. by eexists. }
  rewrite Hchosen. run.
  apply spec_next_column_Some in Hchosen as [Hcol _].
  destruct (spec_to_do_total (exercise_block (drop 2 data)) 0 col) as [todo Htodo].
  { apply Forall_forall. intros r Hr. by apply Hrow. }
  unfold enumerate. rewrite Htodo. run.
  destruct (index_lt headers col (workout_col_indices_lt _ _ Hcol)) as (day & -> & _).
  run. by eexists.
Qed.

Lemma find_next_total (all : sheets) :
  Forall (λ td, padded td.2 = true ∧ attributed td.2 = true) all →
  ∃ r, find_next_workout_and_exercises all = Ok r.
Proof.
  rewrite find_next_spec_resolve.
  induction 1 as [|[title data] all [Hp Ha] _ [r IH]]; simpl; [by eexists|].
  destruct (spec_resolve_sheet_total title data Hp Ha) as [[[[t todo] day]|] ->]; run;
    by eexists.
Qed.

End ResolverTotal.

(** C9.  On a snapshot set whose exercise rows have a cell under each
    header and the four attribute cells, the resolver returns.  Whatever
    it returns, it returns a sheet name exactly when it returns a
    non-empty to-do list, and the list of a returned sheet has an entry
    for the last row of that sheet's exercise block: the entry targets
    that row (spreadsheet row = block length + 2), carries its name, and
    the row's cell in the entry's column is empty. *)
Theorem sheet_iff_to_do (all : sheets) :
  (Forall (λ td, padded td.2 = true ∧ attributed td.2 = true) all →
   ∃ r, find_next_workout_and_exercises all = Ok r)
  ∧ ∀ (title : option string) (todo : list exercise) (day : option string),
      find_next_workout_and_exercises all = Ok (title, todo, day) →
      (title ≠ None ↔ todo ≠ [])
      ∧ ∀ t, title = Some t →
          ∃ data last_row e col,
            (t, data) ∈ all
            ∧ last (exercise_block (drop 2 data)) = Some last_row
            ∧ e ∈ todo
            ∧ gspread_row e = Z.of_nat (length (exercise_block (drop 2 data))) + 2
            ∧ last_row !! 0%nat = Some (name e)
            ∧ gspread_col e = Z.of_nat col + 1
            ∧ last_row !! col = Some EmptyString.
Proof.
  split; [apply find_next_total|].
  intros title todo day. rewrite find_next_spec_resolve.
  intros [[= -> -> ->]|(t & data & todo' & d & Hin & Hsheet & [= -> -> ->])]%spec_resolve_Ok.
  { split; [done|]. intros t [=]. }
  apply spec_resolve_sheet_Some in Hsheet
    as (_ & _ & headers & last_row & col & _ & Hlast & _ & Hcell & Htodo & _).
  pose proof Hlast as Hlk. rewrite last_lookup in Hlk.
  destruct (spec_to_do_elem _ _ _ _ _ _ Htodo Hlk Hcell) as (e & He & Hrow & Hname).
  split.
  - split; [|done]. intros _ ->. by apply elem_of_nil in He.
  - intros ? [= <-]. exists data, last_row, e, col.
    repeat split; try done.
    + rewrite Hrow. apply lookup_lt_Some in Hlk. lia.
    + apply spec_to_do_rows in Htodo as [Hall _].
      rewrite Forall_forall in Hall. by destruct (Hall e He).
Qed.

Lemma sheet_iff_to_do_witness :
  (∃ r, find_next_workout_and_exercises [("Month 0", month0); ("Month 1", month1)] = Ok r)
  ∧ (Some "Month 1" ≠ None ↔ month1_to_do ≠ [])
  ∧ ∀ t, Some "Month 1" = Some t →
      ∃ data last_row e col,
        (t, data) ∈ [("Month 0", month0); ("Month 1", month1)]
        ∧ last (exercise_block (drop 2 data)) = Some last_row
        ∧ e ∈ month1_to_do
        ∧ gspread_row e = Z.of_nat (length (exercise_block (drop 2 data))) + 2
        ∧ last_row !! 0%nat = Some (name e)
        ∧ gspread_col e = Z.of_nat col + 1
        ∧ last_row !! col = Some EmptyString.
Proof.
  destruct (sheet_iff_to_do [("Month 0", month0); ("Month 1", month1)])
    as [Hreturns Hresult].
  split.
  - apply Hreturns. repeat constructor.
  - apply (Hresult (Some "Month 1") month1_to_do (Some "Workout 2 (Actual)")).
    reflexivity.
Defined.

(** ** Floats *)

Section Floats.

Local Open Scope Q_scope.

Lemma round_half_even_cases (q : Q) :
  (round_half_even q = Qfloor q ∧ q - inject_Z (Qfloor q) <= 1 # 2)
  ∨ (round_half_even q = (Qfloor q + 1)%Z ∧ 1 # 2 <= q - inject_Z (Qfloor q)).
Proof.
  unfold round_half_even.
  destruct (Qcompare_spec (q - inject_Z (Qfloor q)) (1 # 2)) as [H|H|H].
  - destruct (Z.even (Qfloor q)); [left|right]; (split; [done|]); rewrite H; lra.
  - left. split; [done|lra].
  - right. split; [done|lra].
Qed.

Lemma round_half_even_mono (x y : Q) :
  x <= y → (round_half_even x ≤ round_half_even y)%Z.
Proof.
  intros Hxy. pose proof (Qfloor_resp_le x y Hxy) as Hfl.
  destruct (Z.eq_dec (Qfloor x) (Qfloor y)) as [Heq|Hne].
  - unfold round_half_even. rewrite <- Heq.
    destruct (Qcompare_spec (x - inject_Z (Qfloor x)) (1 # 2)) as [Hx|Hx|Hx];
      destruct (Qcompare_spec (y - inject_Z (Qfloor x)) (1 # 2)) as [Hy|Hy|Hy];
      try lia; try (exfalso; lra);
      destruct (Z.even (Qfloor x)); lia.
  - destruct (round_half_even_cases x) as [[-> _]|[-> _]];
      destruct (round_half_even_cases y) as [[-> _]|[-> _]]; lia.
Qed.

Lemma round_half_even_Z (z : Z) : round_half_even (inject_Z z) = z.
Proof.
  unfold round_half_even. rewrite Qfloor_Z.
  destruct (Qcompare_spec (inject_Z z - inject_Z z) (1 # 2)) as [H|H|H];
    [exfalso; lra|done|exfalso; lra].
Qed.

Lemma round_half_even_near (q : Q) :
  Qabs (inject_Z (round_half_even q) - q) <= 1 # 2.
Proof.
  pose proof (Qfloor_le q) as Hlo. pose proof (Qlt_floor q) as Hhi.
  rewrite inject_Z_plus in Hhi. change (inject_Z 1) with 1 in Hhi.
  apply Qabs_Qle_condition.
  destruct (round_half_even_cases q) as [[-> ?]|[-> ?]].
  - lra.
  - rewrite inject_Z_plus. change (inject_Z 1) with 1. lra.
Qed.

Lemma pow2_frac (x y : Z) :
  (0 ≤ x)%Z → (0 ≤ y)%Z → 2 ^ (x - y) == (2 ^ x)%Z # Z.to_pos (2 ^ y).
Proof.
  intros Hx Hy. rewrite Qpower_minus by lra.
  rewrite (Qmake_Qdiv (2 ^ x) (Z.to_pos (2 ^ y))).
  rewrite Z2Pos.id by (apply Z.pow_pos_nonneg; lia).
  by rewrite !Zpower_Qpower.
Qed.

Lemma pow2_pos (e : Z) : 0 < 2 ^ e.
Proof. apply Qpower_0_lt. lra. Qed.

Lemma pow2_le (a b : Z) : (a ≤ b)%Z → 2 ^ a <= 2 ^ b.
Proof. intros Hab. apply Qpower_le_compat_l; [done|lra]. Qed.

Lemma pow2_plus (a b : Z) : 2 ^ (a + b) == 2 ^ a * 2 ^ b.
Proof. apply Qpower_plus. lra. Qed.

(** The binade of a positive number. *)
Lemma binade_spec (q : Q) :
  0 < q → 2 ^ binade q <= q ∧ q < 2 ^ (binade q + 1).
Proof.
  destruct q as [n p]. intros Hq.
  assert (0 < n)%Z as Hn by (unfold Qlt in Hq; simpl in Hq; lia).
  unfold binade. cbn [Qnum Qden].
  set (ln := Z.log2 n). set (lp := Z.log2 (Z.pos p)).
  destruct (Z.log2_spec n Hn) as [Hn1 Hn2].
  destruct (Z.log2_spec (Z.pos p) ltac:(lia)) as [Hp1 Hp2].
  fold ln in Hn1, Hn2. fold lp in Hp1, Hp2.
  assert (0 ≤ ln)%Z as Hln by apply Z.log2_nonneg.
  assert (0 ≤ lp)%Z as Hlp by apply Z.log2_nonneg.
  assert (0 < 2 ^ lp)%Z as Hplp by (apply Z.pow_pos_nonneg; lia).
  assert (0 < 2 ^ Z.succ lp)%Z as Hplp' by (apply Z.pow_pos_nonneg; lia).
  assert (n # p < 2 ^ (ln - lp + 1)) as Hhi.
  { replace (ln - lp + 1)%Z with (Z.succ ln - lp)%Z by lia.
    rewrite pow2_frac by lia. unfold Qlt. cbn [Qnum Qden].
    rewrite Z2Pos.id by done. nia. }
  assert (2 ^ (ln - lp - 1) <= n # p) as Hlo.
  { replace (ln - lp - 1)%Z with (ln - Z.succ lp)%Z by lia.
    rewrite pow2_frac by lia. unfold Qle. cbn [Qnum Qden].
    rewrite Z2Pos.id by done. nia. }
  destruct (Qle_bool (2 ^ (ln - lp)) (n # p)) eqn:Hc.
  - apply Qle_bool_iff in Hc. done.
  - split; [done|]. replace (ln - lp - 1 + 1)%Z with (ln - lp)%Z by lia.
    apply Qnot_le_lt. intros H%Qle_bool_iff. congruence.
Qed.

Lemma binade_mono (x y : Q) : 0 < x → x <= y → (binade x ≤ binade y)%Z.
Proof.
  intros Hx Hxy. assert (0 < y) as Hy by lra.
  destruct (binade_spec x Hx) as [Hx1 Hx2].
  destruct (binade_spec y Hy) as [Hy1 Hy2].
  destruct (Z.le_gt_cases (binade x) (binade y)) as [|Hgt]; [done|].
  pose proof (pow2_le (binade y + 1) (binade x) ltac:(lia)). lra.
Qed.

Lemma Qdiv_le_mono (x y p : Q) : 0 < p → x <= y → x / p <= y / p.
Proof.
  intros Hp Hxy. apply Qle_shift_div_l; [done|].
  unfold Qdiv. rewrite <- Qmult_assoc, (Qmult_comm (/ p)), Qmult_inv_r by lra. lra.
Qed.

Lemma Qdiv_mult_cancel (x p : Q) : 0 < p → x / p * p == x.
Proof. intros Hp. unfold Qdiv. rewrite <- Qmult_assoc, (Qmult_comm (/ p)), Qmult_inv_r by lra. lra. Qed.

Lemma Qmult_le_mono_pos (a b p : Q) : 0 <= p → a <= b → a * p <= b * p.
Proof. intros Hp Hab. by apply Qmult_le_compat_r. Qed.

Lemma quantum_ge (q : Q) : (-1074 ≤ Z.max (binade q - 52) (-1074))%Z.
Proof. lia. Qed.

(** Below the next power of two of the binade. *)
Lemma scaled_lt (q : Q) :
  0 < q →
  q / 2 ^ Z.max (binade q - 52) (-1074) < inject_Z (2 ^ 53).
Proof.
  intros Hq. destruct (binade_spec q Hq) as [_ Hhi].
  set (e := Z.max (binade q - 52) (-1074)).
  apply Qlt_shift_div_r; [apply pow2_pos|].
  rewrite Zpower_Qpower by lia. rewrite <- pow2_plus.
  eapply Qlt_le_trans; [exact Hhi|]. apply pow2_le. lia.
Qed.

Lemma scaled_ge (q : Q) :
  0 < q → (-1074 < binade q - 52)%Z →
  inject_Z (2 ^ 52) <= q / 2 ^ Z.max (binade q - 52) (-1074).
Proof.
  intros Hq Hnormal. destruct (binade_spec q Hq) as [Hlo _].
  rewrite Z.max_l by lia.
  apply Qle_shift_div_l; [apply pow2_pos|].
  rewrite Zpower_Qpower by lia. rewrite <- pow2_plus.
  by replace (52 + (binade q - 52))%Z with (binade q) by lia.
Qed.

Lemma round64_pos_mono (x y : Q) :
  0 < x → x <= y → round64_pos x <= round64_pos y.
Proof.
  intros Hx Hxy. assert (0 < y) as Hy by lra.
  pose proof (binade_mono x y Hx Hxy) as Hb.
  unfold round64_pos.
  set (ex := Z.max (binade x - 52) (-1074)).
  set (ey := Z.max (binade y - 52) (-1074)).
  destruct (Z.eq_dec ex ey) as [Heq|Hne].
  - rewrite <- Heq. apply Qmult_le_mono_pos; [apply Qlt_le_weak, pow2_pos|].
    rewrite <- Zle_Qle. apply round_half_even_mono.
    apply Qdiv_le_mono; [apply pow2_pos|done].
  - assert (ex < ey)%Z as Hlt by lia.
    assert (-1074 < binade y - 52)%Z as Hnormal by lia.
    pose proof (round_half_even_mono _ _ (Qlt_le_weak _ _ (scaled_lt x Hx))) as Hmx.
    pose proof (round_half_even_mono _ _ (scaled_ge y Hy Hnormal)) as Hmy.
    rewrite round_half_even_Z in Hmx, Hmy. fold ex in Hmx. fold ey in Hmy.
    rewrite Zle_Qle in Hmx, Hmy.
    pose proof (pow2_pos ex) as Hpx. pose proof (pow2_pos ey) as Hpy.
    apply Qle_trans with (inject_Z (2 ^ 53) * 2 ^ ex).
    { apply Qmult_le_mono_pos; [lra|done]. }
    apply Qle_trans with (inject_Z (2 ^ 52) * 2 ^ ey).
    2: { apply Qmult_le_mono_pos; [lra|done]. }
    rewrite !Zpower_Qpower by lia. rewrite <- !pow2_plus. apply pow2_le. lia.
Qed.

Lemma round64_pos_nonneg (q : Q) : 0 < q → 0 <= round64_pos q.
Proof.
  intros Hq. unfold round64_pos.
  set (e := Z.max (binade q - 52) (-1074)).
  pose proof (pow2_pos e) as Hp.
  apply Qmult_le_0_compat; [|lra].
  change 0 with (inject_Z 0). rewrite <- Zle_Qle.
  rewrite <- (round_half_even_Z 0). apply round_half_even_mono.
  apply Qle_shift_div_l; [done|]. change (inject_Z 0) with 0. lra.
Qed.

Lemma Qnum_pos (q : Q) : 0 < q ↔ ∃ p, Qnum q = Z.pos p.
Proof.
  destruct q as [[|n|n] d]; unfold Qlt; simpl; split;
    try (intros [? ?]); try lia; try done. by eexists.
Qed.

Lemma Qnum_neg (q : Q) : q < 0 ↔ ∃ p, Qnum q = Z.neg p.
Proof.
  destruct q as [[|n|n] d]; unfold Qlt; simpl; split;
    try (intros [? ?]); try lia; try done. by eexists.
Qed.

Lemma Qnum_zero (q : Q) : q == 0 ↔ Qnum q = 0%Z.
Proof. destruct q as [n d]. unfold Qeq. simpl. lia. Qed.

Lemma round64_of_pos (q : Q) : 0 < q → round64 q = round64_pos q.
Proof. intros [p Hp]%Qnum_pos. unfold round64. by rewrite Hp. Qed.

Lemma round64_of_neg (q : Q) : q < 0 → round64 q = - round64_pos (- q).
Proof. intros [p Hp]%Qnum_neg. unfold round64. by rewrite Hp. Qed.

Lemma round64_of_zero (q : Q) : q == 0 → round64 q = 0.
Proof. intros Hq%Qnum_zero. unfold round64. by rewrite Hq. Qed.

(** Rounding keeps the order. *)
Lemma round64_mono (x y : Q) : x <= y → round64 x <= round64 y.
Proof.
  intros Hxy.
  destruct (Q_dec x 0) as [[Hx|Hx]|Hx]; destruct (Q_dec y 0) as [[Hy|Hy]|Hy];
    try (exfalso; lra).
  - rewrite (round64_of_neg x Hx), (round64_of_neg y Hy).
    assert (round64_pos (- y) <= round64_pos (- x)); [|lra].
    apply round64_pos_mono; lra.
  - rewrite (round64_of_neg x Hx), (round64_of_pos y Hy).
    pose proof (round64_pos_nonneg (- x) ltac:(lra)).
    pose proof (round64_pos_nonneg y Hy). lra.
  - rewrite (round64_of_neg x Hx), (round64_of_zero y Hy).
    pose proof (round64_pos_nonneg (- x) ltac:(lra)). lra.
  - rewrite (round64_of_pos x Hx), (round64_of_pos y Hy).
    by apply round64_pos_mono.
  - rewrite (round64_of_zero x Hx), (round64_of_pos y Hy).
    by apply round64_pos_nonneg.
  - rewrite (round64_of_zero x Hx), (round64_of_zero y Hy). lra.
Qed.

#[global] Instance round64_proper : Proper (Qeq ==> Qeq) round64.
Proof.
  intros x y Hxy. apply Qle_antisym; apply round64_mono; rewrite Hxy; lra.
Qed.

Lemma binade_le (q : Q) (k : Z) : 0 < q → q < 2 ^ (k + 1) → (binade q ≤ k)%Z.
Proof.
  intros Hq Hk. destruct (binade_spec q Hq) as [Hlo _].
  assert (binade q < k + 1)%Z; [|lia].
  apply (Qpower_lt_compat_l_inv 2); [|lra]. lra.
Qed.

Lemma round64_pos_near (q : Q) :
  0 < q →
  Qabs (round64_pos q - q) <= 2 ^ Z.max (binade q - 52) (-1074) * (1 # 2).
Proof.
  intros Hq. unfold round64_pos.
  set (e := Z.max (binade q - 52) (-1074)).
  pose proof (pow2_pos e) as Hp.
  pose proof (round_half_even_near (q / 2 ^ e)) as Hnear.
  set (m := inject_Z (round_half_even (q / 2 ^ e))) in *.
  assert (m * 2 ^ e - q == (m - q / 2 ^ e) * 2 ^ e) as ->.
  { rewrite <- (Qdiv_mult_cancel q (2 ^ e) Hp) at 1. ring. }
  rewrite Qabs_Qmult, (Qabs_pos (2 ^ e)) by lra.
  rewrite (Qmult_comm (2 ^ e)). apply Qmult_le_mono_pos; [lra|done].
Qed.

(** The rounding error below a power of two. *)
Lemma round64_near (q : Q) (k : Z) :
  0 <= q → q < 2 ^ (k + 1) → (-1022 ≤ k)%Z →
  Qabs (round64 q - q) <= 2 ^ (k - 53).
Proof.
  intros Hq Hk Hmin.
  destruct (Q_dec q 0) as [[Hneg|Hpos]|Hzero]; [exfalso; lra| |].
  - rewrite (round64_of_pos q Hpos).
    eapply Qle_trans; [apply (round64_pos_near q Hpos)|].
    pose proof (binade_le q k Hpos Hk) as Hb.
    set (e := Z.max (binade q - 52) (-1074)).
    assert (2 ^ e * (1 # 2) == 2 ^ (e - 1)) as ->.
    { unfold Z.sub. rewrite pow2_plus. done. }
    apply pow2_le. lia.
  - rewrite (round64_of_zero q Hzero). rewrite Hzero.
    change (Qabs (0 - 0)) with 0. apply Qlt_le_weak, pow2_pos.
Qed.

Lemma int_of_float_mono (x y : Q) : x <= y → (int_of_float x ≤ int_of_float y)%Z.
Proof.
  intros Hxy. unfold int_of_float.
  destruct (Qle_bool 0 x) eqn:Hx; destruct (Qle_bool 0 y) eqn:Hy.
  - by apply Qfloor_resp_le.
  - apply Qle_bool_iff in Hx. exfalso.
    assert (0 <= y) as H by lra. apply (proj2 (Qle_bool_iff 0 y)) in H. congruence.
  - assert (Qceiling x ≤ 0)%Z.
    { rewrite <- (Qceiling_Z 0). apply Qceiling_resp_le.
      apply Qlt_le_weak, Qnot_le_lt. intros H.
      apply (proj2 (Qle_bool_iff 0 x)) in H. congruence. }
    assert (0 ≤ Qfloor y)%Z; [|lia].
    rewrite <- (Qfloor_Z 0). apply Qfloor_resp_le. by apply Qle_bool_iff.
  - by apply Qceiling_resp_le.
Qed.

#[global] Instance int_of_float_proper : Proper (Qeq ==> eq) int_of_float.
Proof.
  intros x y Hxy. apply Z.le_antisymm; apply int_of_float_mono; rewrite Hxy; lra.
Qed.

Lemma int_of_float_Z (z : Z) : int_of_float (inject_Z z) = z.
Proof.
  unfold int_of_float. destruct (Qle_bool 0 (inject_Z z)).
  - apply Qfloor_Z.
  - apply Qceiling_Z.
Qed.

Lemma round64_0 : round64 0 = 0.
Proof. reflexivity. Qed.

Lemma round64_1 : round64 1 == 1.
Proof. by vm_compute. Qed.

Lemma round64_100 : round64 100 == 100.
Proof. by vm_compute. Qed.

Lemma round64_nonneg (q : Q) : 0 <= q → 0 <= round64 q.
Proof. intros Hq. rewrite <- round64_0. by apply round64_mono. Qed.

(** The quotient of the counts. *)
Lemma ratio_bounds (f t : Z) :
  (0 ≤ f ≤ t)%Z → (0 < t)%Z → 0 <= inject_Z f / inject_Z t <= 1.
Proof.
  intros Hf Ht.
  assert (0 < inject_Z t) as Ht' by (change 0 with (inject_Z 0); by rewrite <- Zlt_Qlt).
  assert (0 <= inject_Z f) as Hf0 by (change 0 with (inject_Z 0); rewrite <- Zle_Qle; lia).
  assert (inject_Z f <= inject_Z t) as Hft by (rewrite <- Zle_Qle; lia).
  split.
  - apply Qle_shift_div_l; [done|]. lra.
  - apply Qle_shift_div_r; [done|]. lra.
Qed.

Lemma ratio_mono (f g t : Z) :
  (0 < t)%Z → (f ≤ g)%Z → inject_Z f / inject_Z t <= inject_Z g / inject_Z t.
Proof.
  intros Ht Hfg. apply Qdiv_le_mono.
  - change 0 with (inject_Z 0). by rewrite <- Zlt_Qlt.
  - by rewrite <- Zle_Qle.
Qed.

Lemma percentage_of_mono (f g t : Z) :
  (0 < t)%Z → (f ≤ g)%Z → percentage_of f t <= percentage_of g t.
Proof.
  intros Ht Hfg. unfold percentage_of. apply round64_mono.
  apply Qmult_le_mono_pos; [lra|]. apply round64_mono. by apply ratio_mono.
Qed.

Lemma percentage_of_bounds (f t : Z) :
  (0 ≤ f ≤ t)%Z → (t ≠ 0)%Z → 0 <= percentage_of f t <= 100.
Proof.
  intros Hf Ht. destruct (ratio_bounds f t Hf ltac:(lia)) as [Hlo Hhi].
  unfold percentage_of.
  pose proof (round64_nonneg _ Hlo) as Hx0.
  pose proof (round64_mono _ _ Hhi) as Hx1. rewrite round64_1 in Hx1.
  split.
  - apply round64_nonneg. lra.
  - eapply Qle_trans; [apply (round64_mono _ 100); lra|].
    rewrite round64_100. lra.
Qed.

(** The float percentage is the exact one up to the two roundings. *)
Lemma percentage_of_near (f t : Z) :
  (0 ≤ f ≤ t)%Z → (t ≠ 0)%Z →
  Qabs (percentage_of f t - 100 * inject_Z f / inject_Z t) <= 2 ^ (-45).
Proof.
  intros Hf Ht. destruct (ratio_bounds f t Hf ltac:(lia)) as [Hlo Hhi].
  unfold percentage_of. set (x := inject_Z f / inject_Z t) in *.
  pose proof (round64_nonneg _ Hlo) as Hx0.
  pose proof (round64_mono _ _ Hhi) as Hx1. rewrite round64_1 in Hx1.
  pose proof (round64_near x 0 Hlo ltac:(change (2 ^ (0 + 1)) with 2; lra) ltac:(lia))
    as Hex.
  pose proof (round64_near (round64 x * 100) 6 ltac:(lra)
                ltac:(change (2 ^ (6 + 1)) with 128; lra) ltac:(lia)) as Hey.
  change (2 ^ (0 - 53)) with (1 # 9007199254740992) in Hex.
  change (2 ^ (6 - 53)) with (1 # 140737488355328) in Hey.
  change (2 ^ (-45)) with (1 # 35184372088832).
  apply Qabs_Qle_condition in Hex, Hey. apply Qabs_Qle_condition.
  assert (100 * inject_Z f / inject_Z t == 100 * x) as ->.
  { unfold x. field. intros H. apply Ht. unfold Qeq in H. simpl in H. lia. }
  lra.
Qed.

Lemma round64_small (q : Q) :
  - inject_Z (2 ^ 53) <= q <= inject_Z (2 ^ 53) →
  Qabs (round64 q) <= inject_Z (2 ^ 53).
Proof.
  intros [Hlo Hhi]. apply Qabs_Qle_condition. split.
  - eapply Qle_trans; [|apply (round64_mono _ _ Hlo)]. by vm_compute.
  - eapply Qle_trans; [apply (round64_mono _ _ Hhi)|]. by vm_compute.
Qed.

Lemma float_finite_small (x : Q) :
  Qabs x <= inject_Z (2 ^ 53) → float_finite x = true.
Proof.
  intros Hx. unfold float_finite.
  destruct (Qle_bool (2 ^ 1024) (Qabs x)) eqn:Hbig; [|done].
  apply Qle_bool_iff in Hbig. exfalso.
  assert (inject_Z (2 ^ 53) < 2 ^ 1024) as Hlt.
  { rewrite Zpower_Qpower by lia. apply Qpower_lt_compat_l; [lia|lra]. }
  lra.
Qed.

(** When the clock has advanced by the rest duration, no time remains. *)
Lemma remaining_over (clock d : Z) :
  (- 2 ^ 53 ≤ d ≤ 2 ^ 53)%Z →
  remaining_time d (inject_Z clock) (inject_Z (clock + d)) = Some 0%Z.
Proof.
  intros Hd.
  assert (- inject_Z (2 ^ 53) <= inject_Z d <= inject_Z (2 ^ 53)) as Hd'.
  { rewrite <- inject_Z_opp, <- !Zle_Qle. lia. }
  pose proof (round64_small _ Hd') as Hsmall.
  assert (round64 (inject_Z (clock + d) - inject_Z clock) == round64 (inject_Z d))
    as Helapsed.
  { apply round64_proper. rewrite inject_Z_plus. ring. }
  unfold remaining_time, float_sub, float_of_int.
  rewrite (float_finite_small (round64 (inject_Z (clock + d) - inject_Z clock)))
    by (by rewrite Helapsed).
  cbn [mbind option_bind].
  rewrite (float_finite_small (round64 (inject_Z d))) by done.
  cbn [mbind option_bind].
  rewrite (round64_of_zero
             (round64 (inject_Z d) - round64 (inject_Z (clock + d) - inject_Z clock)))
    by (rewrite Helapsed; ring).
  reflexivity.
Qed.

Lemma percentage_of_full (t : Z) : (0 < t)%Z → percentage_of t t == 100.
Proof.
  intros Ht. unfold percentage_of.
  assert (inject_Z t / inject_Z t == 1) as ->.
  { field. intros H. unfold Qeq in H. simpl in H. lia. }
  rewrite round64_1. rewrite Qmult_1_l. apply round64_100.
Qed.

(** With a slot left empty, and not more slots than a float counts
    exactly, the percentage stays below 100 by more than a rounding. *)
Lemma percentage_of_below (f t : Z) :
  (0 ≤ f < t)%Z → (t ≤ 2 ^ 53)%Z →
  percentage_of f t <= round64 (round64 (1 - (1 # 9007199254740992)) * 100).
Proof.
  intros Hf Ht. unfold percentage_of. apply round64_mono.
  apply Qmult_le_mono_pos; [lra|]. apply round64_mono.
  assert (0 < inject_Z t) as Ht' by (change 0 with (inject_Z 0); rewrite <- Zlt_Qlt; lia).
  assert (inject_Z f <= inject_Z t - 1) as Hft.
  { assert (inject_Z f <= inject_Z (t - 1)) as H by (rewrite <- Zle_Qle; lia).
    unfold Z.sub in H. rewrite inject_Z_plus in H. by change (inject_Z (- (1))) with (- 1) in H. }
  assert (inject_Z t <= 9007199254740992) as Ht2.
  { change 9007199254740992 with (inject_Z (2 ^ 53)). by rewrite <- Zle_Qle. }
  apply Qle_shift_div_r; [done|]. lra.
Qed.

Lemma int_of_percentage_bounds (f t : Z) :
  (0 ≤ f ≤ t)%Z → (t ≠ 0)%Z → (0 ≤ int_of_float (percentage_of f t) ≤ 100)%Z.
Proof.
  intros Hf Ht. destruct (percentage_of_bounds f t Hf Ht) as [Hlo Hhi].
  apply int_of_float_mono in Hlo, Hhi.
  change 0 with (inject_Z 0) in Hlo. change 100 with (inject_Z 100) in Hhi.
  by rewrite int_of_float_Z in Hlo, Hhi.
Qed.

Lemma int_of_percentage_full (f t : Z) :
  (0 ≤ f ≤ t)%Z → (0 < t)%Z →
  (f = t → int_of_float (percentage_of f t) = 100%Z)
  ∧ ((t ≤ 2 ^ 53)%Z → int_of_float (percentage_of f t) = 100%Z → f = t).
Proof.
  intros Hf Ht. split.
  - intros ->. rewrite (percentage_of_full t Ht). apply (int_of_float_Z 100).
  - intros Hsmall Hv. destruct (Z.eq_dec f t) as [|Hne]; [done|]. exfalso.
    pose proof (percentage_of_below f t ltac:(lia) Hsmall) as Hbelow.
    apply int_of_float_mono in Hbelow. rewrite Hv in Hbelow.
    revert Hbelow. by vm_compute.
Qed.

End Floats.

Section Percentage.

(** What the calculator returns, in terms of the loop. *)
Lemma calculate_overall_completion_Ok (all : sheets) (total filled : Z) (pct : Q) :
  calculate_overall_completion all = Ok (total, filled, pct) →
  ∃ t f, completion_sheets all 0 0 = Ok (t, f) ∧ 0 ≤ f ≤ t
         ∧ ((t = 0 ∧ total = 0 ∧ filled = 0 ∧ pct = 0%Q)
            ∨ (t ≠ 0 ∧ total = t ∧ filled = f ∧ pct = percentage_of f t)).
Proof.
  unfold calculate_overall_completion.
  intros ([t f] & Hloop & H)%bind_Ok. exists t, f.
  pose proof (completion_sheets_bounds _ _ _ _ _ Hloop ltac:(lia)) as Hb.
  split; [done|]. split; [done|].
  destruct (Z.eqb_spec t 0) as [->|Hne]; injection H as <- <- <-; [by left|by right].
Qed.

End Percentage.

(** ** Properties of the completion calculator *)

(** C7, as the code has it.  On a snapshot set in which every exercise row
    has a cell under each header the calculator returns; and whatever it
    returns, as (total_slots, filled_slots, percentage), satisfies
    0 <= filled_slots <= total_slots and 0 <= percentage <= 100; the
    percentage is 0.0 when total_slots = 0, and otherwise the float
    (filled_slots / total_slots) * 100, which is within 2^-45 of
    100 * filled_slots / total_slots. *)
Theorem completion_result (all : sheets) :
  (Forall (λ td, padded td.2 = true) all →
   ∃ r, calculate_overall_completion all = Ok r)
  ∧ ∀ (total filled : Z) (pct : Q),
      calculate_overall_completion all = Ok (total, filled, pct) →
      0 ≤ filled ≤ total
      ∧ (total = 0 → pct = 0%Q)
      ∧ (total ≠ 0 →
         pct = percentage_of filled total
         ∧ (Qabs (pct - 100 * inject_Z filled / inject_Z total) <= 2 ^ (-45))%Q)
      ∧ (0 <= pct <= 100)%Q.
Proof.
  split.
  - intros Hp. unfold calculate_overall_completion.
    destruct (completion_sheets_total all 0 0 Hp) as ([t f] & ->). run.
    destruct (t =? 0); by eexists.
  - intros total filled pct
      (t & f & _ & Hb & [(-> & -> & -> & ->)|(Hne & -> & -> & ->)])%calculate_overall_completion_Ok.
    + repeat split; done.
    + split; [done|]. split; [done|]. split.
      * intros _. split; [done|]. by apply percentage_of_near.
      * by apply percentage_of_bounds.
Qed.

Lemma completion_result_witness :
  (∃ r, calculate_overall_completion [("Month 1", month1)] = Ok r)
  ∧ 0 ≤ 4 ≤ 6
  ∧ (6 = 0 → percentage_of 4 6 = 0%Q)
  ∧ (6 ≠ 0 →
     percentage_of 4 6 = percentage_of 4 6
     ∧ (Qabs (percentage_of 4 6 - 100 * inject_Z 4 / inject_Z 6) <= 2 ^ (-45))%Q)
  ∧ (0 <= percentage_of 4 6 <= 100)%Q.
Proof.
  destruct (completion_result [("Month 1", month1)]) as [Hreturns Hresult].
  split.
  - apply Hreturns. repeat constructor.
  - apply (Hresult 6 4 (percentage_of 4 6)). reflexivity.
Defined.

(** C7, as stated, fails: with 4 of 6 slots filled the percentage returned
    is the float 66.66666666666666, which is neither the number
    100 * 4 / 6 nor the float 66.66666666666667 that the expression
    100 * 4 / 6 has. *)
Lemma completion_percentage_inexact :
  calculate_overall_completion [("Month 1", month1)] = Ok (6, 4, percentage_of 4 6)
  ∧ (percentage_of 4 6 == 2345624805922133 # 35184372088832)%Q
  ∧ ¬ (percentage_of 4 6 == 100 * inject_Z 4 / inject_Z 6)%Q
  ∧ ¬ (percentage_of 4 6 == round64 (100 * inject_Z 4 / inject_Z 6))%Q.
Proof.
  split; [reflexivity|]. split; [by vm_compute|].
  split; intros H; by vm_compute in H.
Qed.

(** C8.  Writing a non-empty value into one empty result cell (a cell of
    an exercise row, below the two top rows and outside the name column)
    of one sheet does not lower the percentage: if the calculator returns
    on the snapshot set as it was, it returns on the new one, with a
    percentage at least as large. *)
Theorem percentage_monotone (all : sheets) (k i j : nat) (title : string)
    (data : list (list string)) (r : list string) (v : string)
    (total filled : Z) (pct : Q) :
  all !! k = Some (title, data) →
  data !! i = Some r → r !! j = Some EmptyString →
  (2 ≤ i)%nat → (1 ≤ j)%nat → v ≠ EmptyString →
  calculate_overall_completion all = Ok (total, filled, pct) →
  ∃ (total' filled' : Z) (pct' : Q),
    calculate_overall_completion (<[k := (title, <[i := <[j := v]> r]> data)]> all)
    = Ok (total', filled', pct')
    ∧ (pct <= pct')%Q.
Proof.
  intros Hk Hr Hc Hi Hj _
    (t & f & Hloop & Hb & Hcase)%calculate_overall_completion_Ok.
  pose proof (sheets_filled_from_insert all k title data _ Hk
                (filled_from_insert data i j r v Hr Hc Hi Hj)) as Hfilled.
  destruct (completion_sheets_mono _ _ _ _ 0 _ _ Hfilled Hloop ltac:(lia))
    as (g & Hloop' & Hfg).
  unfold calculate_overall_completion. rewrite Hloop'. run.
  destruct Hcase as [(-> & -> & -> & ->)|(Hne & -> & -> & ->)].
  - exists 0, 0, 0%Q. split; [done|]. apply Qle_refl.
  - destruct (Z.eqb_spec t 0) as [?|_]; [done|].
    exists t, g, (percentage_of g t). split; [done|].
    apply percentage_of_mono; lia.
Qed.

Lemma percentage_monotone_witness :
  ∃ (total' filled' : Z) (pct' : Q),
    calculate_overall_completion
      (<[0%nat := ("Month 1",
                   <[3%nat := <[5%nat := "12, 11, 10"]>
                                ["Push-up"; "3"; "12"; "60 sec"; "12, 12, 10"; ""]]>
                     month1)]> [("Month 1", month1)])
    = Ok (total', filled', pct')
    ∧ (percentage_of 4 6 <= pct')%Q.
Proof.
  apply (percentage_monotone [("Month 1", month1)] 0 3 5 "Month 1" month1
           ["Push-up"; "3"; "12"; "60 sec"; "12, 12, 10"; ""] "12, 11, 10" 6 4).
  - reflexivity.
  - reflexivity.
  - reflexivity.
  - lia.
  - lia.
  - discriminate.
  - reflexivity.
Defined.

(** C4.  There is a snapshot set with a sheet in which a named row comes
    after a row with an empty name cell, for which the history extractor
    emits a record of that later row while the completion calculator counts
    the rows above the gap only: its result is the one it gives when the
    later row is deleted, a single slot. *)
Theorem history_scans_past_gap :
  ∃ (all : sheets) (title : string) (data : list (list string)) (i j : nat)
    (gap later : list string) (exercise_name : string),
    (title, data) ∈ all
    ∧ (2 ≤ i < j)%nat
    ∧ data !! i = Some gap ∧ gap !! 0%nat = Some EmptyString
    ∧ data !! j = Some later ∧ later !! 0%nat = Some exercise_name
    ∧ exercise_name ≠ EmptyString
    ∧ (∃ df rec, load_and_process_history all = Ok df ∧ rec ∈ df
                 ∧ Sheet (record rec) = title
                 ∧ Exercise (record rec) = exercise_name
                 ∧ later !! 4%nat = Some (Actual_Raw (record rec)))
    ∧ calculate_overall_completion all = Ok (1, 1, percentage_of 1 1)
    ∧ calculate_overall_completion [(title, delete j data)]
      = calculate_overall_completion all.
Proof.
  exists [("Month 2", month2)], "Month 2", month2, 3%nat, 4%nat,
    [""; ""; ""; ""; ""], ["Plank"; "3"; "45-60 sec"; "30 sec"; "45-60 sec"], "Plank".
  split; [left|]. split; [lia|].
  do 4 (split; [reflexivity|]). split; [discriminate|].
  split; [|by split].
  eexists _, {| record := {| Sheet := "Month 2"; Day := "Workout 1 (Actual)";
                             Exercise := "Plank"; Actual_Raw := "45-60 sec";
                             Workout_Order := 1 |};
                Metric := Some 45 |}.
  split; [reflexivity|]. split; [|done].
  right. left.
Qed.

(** ** The history extractor *)

Example history_week_ab :
  load_and_process_history [("Week A", week_a); ("Week B", week_b)] = Ok week_ab_history.
Proof. reflexivity. Qed.

Example history_month3 :
  load_and_process_history [("Month 1", month1); ("Month 3", month3)] = Raise ValueError.
Proof. reflexivity. Qed.

Section History.

Lemma is_Ok_true {A : Type} (c : result A) : is_Ok c = true ↔ ∃ a, c = Ok a.
Proof.
  destruct c as [a|e]; simpl; split; try done; [by exists a|by intros [? ?]].
Qed.

Lemma is_Ok_bind1 {A B : Type} (c : result A) (f : A → B) :
  is_Ok (a ← c; Ok (f a)) = is_Ok c.
Proof. by destruct c. Qed.

Lemma is_Ok_bind2 {A B C : Type} (c1 : result A) (c2 : result B) (f : A → B → C) :
  is_Ok (a ← c1; b ← c2; Ok (f a b)) = is_Ok c1 && is_Ok c2.
Proof. by destruct c1, c2. Qed.

(** [int(day_title[8])] succeeds exactly on a decimal digit at offset 8,
    and gives that digit. *)
Lemma read_header_digit (day_title : string) :
  (c ← str_index day_title 8; int (String c EmptyString))
  = match header_digit day_title with
    | Some d => Ok d
    | None => match String.get 8 day_title with
              | Some _ => Raise ValueError
              | None => Raise IndexError
              end
    end.
Proof.
  unfold header_digit, str_index.
  destruct (String.get 8 day_title) as [c|]; [|done]. run.
  unfold int. simpl. rewrite andb_true_r.
  by destruct (isdecimal_char c).
Qed.

Lemma filled_truthy (r : list string) (c : nat) (cell : string) :
  index r c = Ok cell → filled r c = truthy cell.
Proof. intros H%index_Ok. unfold filled. by rewrite H. Qed.

Lemma history_cols_is_Ok (sheet_title exercise_name : string) (r : list string)
    (counter : Z) (cols : list (nat * string)) :
  Forall (λ ch, (ch.1 < length r)%nat) cols →
  is_Ok (history_cols sheet_title exercise_name r counter cols)
  = forallb (λ ch, negb (filled r ch.1) || bool_decide (is_Some (header_digit ch.2))) cols.
Proof.
  induction 1 as [|[c h] cols Hc _ IH]; [done|].
  cbn [history_cols forallb fst snd]. simpl in Hc.
  destruct (index_lt r c Hc) as (cell & Hcell & _).
  rewrite (filled_truthy r c cell Hcell), Hcell. run.
  destruct (truthy cell); simpl; [|done].
  pose proof (read_header_digit h) as Hread.
  destruct (header_digit h) as [d|].
  - apply bind_Ok in Hread as (ch & Hget & Hint).
    rewrite Hget. run. rewrite Hint. run.
    by rewrite is_Ok_bind1, IH.
  - destruct (str_index h 8) as [ch|e]; [|done]. revert Hread. run.
    destruct (int (String ch EmptyString)); [|done].
    by destruct (String.get 8 h).
Qed.

Lemma history_rows_is_Ok (sheet_title : string) (counter : Z)
    (cols : list (nat * string)) (rows : list (list string)) :
  Forall (λ r, (0 < length r)%nat ∧ Forall (λ ch, (ch.1 < length r)%nat) cols) rows →
  is_Ok (history_rows sheet_title counter cols rows)
  = forallb (row_readable cols) rows.
Proof.
  induction 1 as [|r rows [Hr Hcols] _ IH]; [done|].
  cbn [history_rows forallb]. unfold row_readable at 1.
  destruct (index_lt r 0 Hr) as (n & Hn & _).
  rewrite (filled_truthy r 0 n Hn), Hn. run.
  destruct (truthy n); simpl; [|done].
  by rewrite is_Ok_bind2, IH, history_cols_is_Ok.
Qed.

Lemma workout_cols_lt (headers : list string) (ch : nat * string) :
  ch ∈ workout_cols headers →
  (ch.1 < length headers)%nat ∧ headers !! ch.1 = Some ch.2
  ∧ is_workout_actual ch.2 = true.
Proof.
  unfold workout_cols.
  intros [Hin%list_elem_of_In Hwa]%list_elem_of_In%filter_In.
  destruct ch as [c h]. apply enumerate_from_elem in Hin as [_ Hh].
  rewrite Nat.sub_0_r in Hh. simpl.
  split; [by apply lookup_lt_Some in Hh|done].
Qed.

Lemma row_readable_nil (rows : list (list string)) :
  forallb (row_readable []) rows = true.
Proof.
  apply forallb_forall. intros r _. unfold row_readable. simpl. apply orb_true_r.
Qed.

(** On padded snapshots the scan raises exactly when it meets a filled
    cell under a header it cannot read. *)
Lemma history_sheets_is_Ok (counter : Z) (all : sheets) :
  Forall (λ td, padded td.2 = true) all →
  is_Ok (history_sheets counter all) = forallb (λ td, sheet_readable td.2) all.
Proof.
  intros H. revert counter.
  induction H as [|[title data] all Hp _ IH]; intros counter; [done|].
  cbn [history_sheets forallb snd]. unfold sheet_readable at 1. simpl in Hp.
  destruct (Nat.ltb_spec (length data) 3) as [?|Hlen]; [apply IH|].
  destruct (index_lt data 1 ltac:(lia)) as (headers & -> & Hh). rewrite Hh. run.
  simpl.
  destruct (workout_cols headers) as [|ch cols] eqn:Hcols.
  { simpl. rewrite row_readable_nil. apply IH. }
  cbn [list_truthy negb]. rewrite is_Ok_bind2, IH. f_equal.
  apply history_rows_is_Ok.
  unfold padded in Hp. rewrite Hh, forallb_forall in Hp.
  apply Forall_forall. intros r Hr%list_elem_of_In%Hp%Nat.leb_le.
  assert (∀ ch', ch' ∈ ch :: cols → (ch'.1 < length r)%nat) as Hlt.
  { intros ch' Hin. rewrite <- Hcols in Hin.
    apply workout_cols_lt in Hin as [? _]. lia. }
  split; [|by apply Forall_forall].
  specialize (Hlt ch ltac:(left)). lia.
Qed.

Lemma load_and_process_history_is_Ok (all : sheets) :
  is_Ok (load_and_process_history all) = is_Ok (history_sheets 0 all).
Proof.
  unfold load_and_process_history.
  destruct (history_sheets 0 all) as [recs|e]; [|done]. run.
  by destruct (list_truthy recs).
Qed.

End History.

(** C2, as the code has it.  On a snapshot set in which every exercise row
    has a cell under each header, the history scan returns if and only if
    no filled result cell of a named row lies under a workout-actual
    header without a decimal digit at offset 8.  A header of that kind is
    not skipped: one filled cell under it makes the whole scan raise. *)
Theorem history_returns_iff_readable (all : sheets) :
  Forall (λ td, padded td.2 = true) all →
  (∃ df, load_and_process_history all = Ok df)
  ↔ Forall (λ td, sheet_readable td.2 = true) all.
Proof.
  intros Hp.
  rewrite <- is_Ok_true, load_and_process_history_is_Ok,
    (history_sheets_is_Ok 0 all Hp), forallb_forall, Forall_forall.
  split; intros H td Htd; apply H; by apply list_elem_of_In.
Qed.

Lemma history_returns_iff_readable_witness :
  (∃ df, load_and_process_history [("Month 1", month1); ("Month 2", month2)] = Ok df)
  ↔ Forall (λ td, sheet_readable td.2 = true)
      [("Month 1", month1); ("Month 2", month2)].
Proof.
  apply (history_returns_iff_readable [("Month 1", month1); ("Month 2", month2)]).
  repeat constructor.
Defined.

(** C2, as stated, fails: the second sheet has a workout-actual header
    with a letter at offset 8 and one filled cell under it; the scan
    raises, and the records of the first sheet are lost with it. *)
Lemma history_aborts_on_unreadable_header :
  load_and_process_history [("Month 1", month1); ("Month 3", month3)]
  = Raise ValueError
  ∧ (∃ df, load_and_process_history [("Month 1", month1)] = Ok df ∧ df ≠ [])
  ∧ ¬ ∃ df, load_and_process_history [("Month 1", month1); ("Month 3", month3)] = Ok df.
Proof.
  split; [reflexivity|]. split.
  - eexists. split; [reflexivity|]. vm_compute. discriminate.
  - intros [df Hdf]. vm_compute in Hdf. discriminate.
Qed.

(** ** Ordinals *)

Section Ordinals.

(** Where a record comes from, and what its ordinal is. *)
Lemma history_cols_elem (sheet_title exercise_name : string) (r : list string)
    (counter : Z) (cols : list (nat * string)) (recs : list history_record)
    (x : history_record) :
  history_cols sheet_title exercise_name r counter cols = Ok recs → x ∈ recs →
  Sheet x = sheet_title
  ∧ ∃ c d, (c, Day x) ∈ cols ∧ header_digit (Day x) = Some d
           ∧ Workout_Order x = counter + d.
Proof.
  revert recs. induction cols as [|[c h] cols IH]; intros recs; simpl.
  - intros [= <-] ?%elem_of_nil. done.
  - intros (cell & _ & H)%bind_Ok Hx.
    assert (∀ recs', history_cols sheet_title exercise_name r counter cols = Ok recs' →
                     x ∈ recs' →
                     Sheet x = sheet_title
                     ∧ ∃ c0 d, (c0, Day x) ∈ (c, h) :: cols
                               ∧ header_digit (Day x) = Some d
                               ∧ Workout_Order x = counter + d) as IH'.
    { intros recs' Hrecs' Hx'.
      destruct (IH _ Hrecs' Hx') as (? & c0 & d & ? & ? & ?).
      split; [done|]. exists c0, d. split; [by right|done]. }
    destruct (truthy cell); [|by apply (IH' recs)].
    apply bind_Ok in H as (ch & Hget & (d & Hint & (recs' & Hrecs' & H)%bind_Ok)%bind_Ok).
    injection H as <-. apply elem_of_cons in Hx as [->|Hx]; [|by apply (IH' recs')].
    simpl. split; [done|]. exists c, d. split; [left|]. split; [|done].
    pose proof (read_header_digit h) as Hread.
    rewrite Hget in Hread. revert Hread. run. rewrite Hint.
    destruct (header_digit h); [congruence|]. by destruct (String.get 8 h).
Qed.

Lemma history_rows_elem (sheet_title : string) (counter : Z)
    (cols : list (nat * string)) (rows : list (list string))
    (recs : list history_record) (x : history_record) :
  history_rows sheet_title counter cols rows = Ok recs → x ∈ recs →
  Sheet x = sheet_title
  ∧ ∃ c d, (c, Day x) ∈ cols ∧ header_digit (Day x) = Some d
           ∧ Workout_Order x = counter + d.
Proof.
  revert recs. induction rows as [|r rows IH]; intros recs; simpl.
  - intros [= <-] ?%elem_of_nil. done.
  - intros (n & _ & H)%bind_Ok. destruct (truthy n); simpl in H; [|by apply IH].
    apply bind_Ok in H as (recs1 & H1 & (recs2 & H2 & H)%bind_Ok).
    injection H as <-. intros [Hx|Hx]%elem_of_app.
    + by apply (history_cols_elem _ _ _ _ _ _ _ H1).
    + by apply (IH _ H2).
Qed.

Lemma columns_before_0 (all : sheets) : columns_before all 0 = 0.
Proof. done. Qed.

Lemma columns_before_cons (td : string * list (list string)) (all : sheets) (k : nat) :
  columns_before (td :: all) (S k)
  = Z.of_nat (length (workout_headers td.2)) + columns_before all k.
Proof.
  unfold columns_before. rewrite firstn_cons, fmap_cons. cbn [concat].
  rewrite length_app. lia.
Qed.

Lemma columns_before_S (all : sheets) (k : nat) (td : string * list (list string)) :
  all !! k = Some td →
  columns_before all (S k)
  = columns_before all k + Z.of_nat (length (workout_headers td.2)).
Proof.
  intros Hk. unfold columns_before. rewrite (take_S_r _ _ _ Hk).
  rewrite fmap_app, concat_app, length_app. simpl. rewrite length_app. simpl. lia.
Qed.

Lemma columns_before_le (all : sheets) (k k' : nat) :
  (k ≤ k')%nat → columns_before all k ≤ columns_before all k'.
Proof.
  induction 1 as [|m _ IH]; [done|].
  destruct (all !! m) as [td|] eqn:Hm.
  - rewrite (columns_before_S _ _ _ Hm). lia.
  - apply lookup_ge_None in Hm. unfold columns_before in *.
    rewrite (take_ge all (S m)) by lia. by rewrite (take_ge all m) in IH by lia.
Qed.

(** The ordinal of a record: the columns of the sheets before its own,
    plus the digit of its header. *)
Lemma history_sheets_elem (counter : Z) (all : sheets)
    (recs : list history_record) (x : history_record) :
  history_sheets counter all = Ok recs → x ∈ recs →
  ∃ k data d,
    all !! k = Some (Sheet x, data)
    ∧ Day x ∈ workout_headers data
    ∧ header_digit (Day x) = Some d
    ∧ Workout_Order x = counter + columns_before all k + d.
Proof.
  revert counter recs. induction all as [|[title data] all IH]; intros counter recs.
  - simpl. intros [= <-] ?%elem_of_nil. done.
  - cbn [history_sheets].
    assert (∀ counter' recs',
              counter' = counter + Z.of_nat (length (workout_headers data)) →
              history_sheets counter' all = Ok recs' → x ∈ recs' →
              ∃ k data0 d,
                ((title, data) :: all) !! k = Some (Sheet x, data0)
                ∧ Day x ∈ workout_headers data0
                ∧ header_digit (Day x) = Some d
                ∧ Workout_Order x
                  = counter + columns_before ((title, data) :: all) k + d) as IH'.
    { intros counter' recs' -> Hrecs' Hx'.
      destruct (IH _ _ Hrecs' Hx') as (k & data0 & d & Hk & Hday & Hd & Hord).
      exists (S k), data0, d. rewrite columns_before_cons. simpl.
      repeat split; try done. lia. }
    unfold workout_headers in IH' at 1.
    destruct (length data <? 3)%nat eqn:Hlen.
    { apply IH'. simpl. lia. }
    intros (headers & Hh%index_Ok & H)%bind_Ok. revert H. rewrite Hh in IH'. simpl in IH'.
    destruct (workout_cols headers) as [|ch cols] eqn:Hcols.
    { apply IH'. simpl. lia. }
    cbn [list_truthy negb].
    intros (recs1 & H1 & (recs2 & H2 & H)%bind_Ok)%bind_Ok.
    injection H as <-. intros [Hx|Hx]%elem_of_app.
    + destruct (history_rows_elem _ _ _ _ _ _ H1 Hx) as (Hs & c & d & Hin & Hd & Hord).
      exists 0%nat, data, d. rewrite columns_before_0. simpl. rewrite Hs.
      repeat split; try done; [|lia].
      unfold workout_headers. rewrite Hlen, Hh. simpl. rewrite Hcols.
      apply list_elem_of_fmap. by exists (c, Day x).
    + eapply IH'; [|exact H2|exact Hx].
      by rewrite length_fmap.
Qed.

(** *** Sorting *)

Lemma insert_sorted_elem (x y : history_row) (l : list history_row) :
  y ∈ insert_sorted x l ↔ y = x ∨ y ∈ l.
Proof.
  induction l as [|z l IH]; simpl.
  - rewrite list_elem_of_singleton. rewrite elem_of_nil. tauto.
  - destruct (Workout_Order (record z) <=? Workout_Order (record x));
      rewrite !elem_of_cons; [rewrite IH|]; tauto.
Qed.

Lemma insert_sorted_sorted (x : history_row) (l : list history_row) :
  StronglySorted by_ordinal l → StronglySorted by_ordinal (insert_sorted x l).
Proof.
  induction 1 as [|z l Hl IH Hz]; simpl; [repeat constructor|].
  destruct (Z.leb_spec (Workout_Order (record z)) (Workout_Order (record x))) as [Hle|Hlt].
  - constructor; [done|]. apply Forall_forall.
    intros y [->|Hy]%insert_sorted_elem; [done|].
    rewrite Forall_forall in Hz. by apply Hz.
  - constructor; [by constructor|]. constructor; [unfold by_ordinal; lia|].
    eapply Forall_impl; [exact Hz|]. unfold by_ordinal. intros; lia.
Qed.

Lemma sort_values_loop (l acc : list history_row) :
  StronglySorted by_ordinal acc →
  StronglySorted by_ordinal (fold_left (λ acc x, insert_sorted x acc) l acc)
  ∧ ∀ y, y ∈ fold_left (λ acc x, insert_sorted x acc) l acc ↔ y ∈ l ∨ y ∈ acc.
Proof.
  revert acc. induction l as [|x l IH]; intros acc Hacc; simpl.
  - split; [done|]. intros y. rewrite elem_of_nil. tauto.
  - destruct (IH (insert_sorted x acc) (insert_sorted_sorted x acc Hacc)) as [Hs He].
    split; [done|]. intros y. rewrite He, insert_sorted_elem, elem_of_cons. tauto.
Qed.

(** The returned rows are sorted by ordinal and are the records of the scan. *)
Lemma load_and_process_history_Ok (all : sheets) (df : list history_row) :
  load_and_process_history all = Ok df →
  StronglySorted by_ordinal df
  ∧ ∃ recs, history_sheets 0 all = Ok recs
            ∧ ∀ y, y ∈ df ↔ ∃ x, x ∈ recs ∧ y = with_metric x.
Proof.
  unfold load_and_process_history. intros (recs & Hrecs & H)%bind_Ok.
  destruct recs as [|x recs]; simpl in H; injection H as <-.
  - split; [constructor|]. exists []. split; [done|].
    intros y. rewrite elem_of_nil. split; [done|]. by intros (? & ?%elem_of_nil & _).
  - destruct (sort_values_loop (List.map with_metric (x :: recs)) [])
      as [Hs He]; [constructor|].
    split; [exact Hs|]. exists (x :: recs). split; [done|].
    intros y. unfold sort_values. rewrite He, elem_of_nil.
    rewrite list_elem_of_In, in_map_iff.
    split.
    + intros [(x' & <- & Hx'%list_elem_of_In)|[]]. by exists x'.
    + intros (x' & Hx'%list_elem_of_In & ->). left. by exists x'.
Qed.

(** *** Numbered headers *)

Lemma numbered_lookup (hs : list string) (p : nat) (h : string) :
  header_digit <$> hs = (λ p, Some (Z.of_nat p)) <$> seq 1 (length hs) →
  hs !! p = Some h →
  header_digit h = Some (Z.of_nat (S p)).
Proof.
  intros Heq Hp. pose proof (lookup_lt_Some _ _ _ Hp) as Hlt.
  apply (f_equal (λ l, l !! p)) in Heq.
  rewrite !list_lookup_fmap, Hp, (lookup_seq_lt _ _ _ Hlt) in Heq. simpl in Heq.
  by injection Heq.
Qed.

(** The workout-actual columns come in increasing column order. *)
Lemma filter_enumerate_order {A : Type} (f : nat * A → bool) (l : list A)
    (i p1 p2 : nat) (a b : nat * A) :
  List.filter f (enumerate_from i l) !! p1 = Some a →
  List.filter f (enumerate_from i l) !! p2 = Some b →
  (a.1 < b.1)%nat → (p1 < p2)%nat.
Proof.
  assert (∀ (l : list A) i p a, List.filter f (enumerate_from i l) !! p = Some a →
                                (i ≤ a.1)%nat) as Hge.
  { intros l' i' p a' Ha%list_elem_of_lookup_2%list_elem_of_In%filter_In.
    destruct Ha as [Ha%list_elem_of_In _]. destruct a' as [j y].
    by apply enumerate_from_elem in Ha as [? _]. }
  revert i p1 p2. induction l as [|x l IH]; intros i p1 p2; simpl; [done|].
  destruct (f (i, x)); [|apply IH].
  destruct p1 as [|p1], p2 as [|p2]; simpl.
  - intros [= <-] [= <-]. lia.
  - intros; lia.
  - intros Ha%Hge [= <-]. simpl. lia.
  - intros Ha Hb Hlt. specialize (IH _ _ _ Ha Hb Hlt). lia.
Qed.

Lemma unique_title (all : sheets) (k1 k2 : nat) (t : string)
    (d1 d2 : list (list string)) :
  NoDup (all.*1) → all !! k1 = Some (t, d1) → all !! k2 = Some (t, d2) → k1 = k2.
Proof.
  intros Hnd H1 H2. apply (NoDup_lookup _ _ _ t Hnd); rewrite list_lookup_fmap.
  - by rewrite H1.
  - by rewrite H2.
Qed.

(** With numbered headers, the ordinal of a record of the sheet at
    position [k], under the header at position [p] among the
    workout-actual headers of the sheet, is the number of such columns in
    the sheets before, plus [p + 1]. *)
Lemma numbered_ordinal (all : sheets) (recs : list history_record)
    (x : history_record) (k p : nat) (data : list (list string)) :
  NoDup (all.*1) → numbered all →
  history_sheets 0 all = Ok recs → x ∈ recs →
  all !! k = Some (Sheet x, data) →
  workout_headers data !! p = Some (Day x) →
  Workout_Order x = columns_before all k + Z.of_nat (S p).
Proof.
  intros Hnd Hnum Hrecs Hx Hk Hp.
  destruct (history_sheets_elem _ _ _ _ Hrecs Hx) as (k' & data' & d & Hk' & _ & Hd & ->).
  rewrite (unique_title _ _ _ _ _ _ Hnd Hk' Hk).
  unfold numbered in Hnum. rewrite Forall_forall in Hnum.
  specialize (Hnum _ (list_elem_of_lookup_2 _ _ _ Hk)). simpl in Hnum.
  rewrite (numbered_lookup _ _ _ Hnum Hp) in Hd. injection Hd as <-. lia.
Qed.

End Ordinals.

Lemma numbered_readable (all : sheets) :
  numbered all → forallb (λ td, sheet_readable td.2) all = true.
Proof.
  unfold numbered. rewrite Forall_forall, forallb_forall.
  intros Hnum [title data] Hin%list_elem_of_In. specialize (Hnum _ Hin).
  simpl in *. unfold sheet_readable, workout_headers in *.
  destruct (length data <? 3)%nat; [done|]. simpl.
  destruct (data !! 1%nat) as [headers|]; [|done]. simpl in Hnum.
  apply forallb_forall. intros r _. unfold row_readable.
  apply orb_true_iff. right. apply forallb_forall.
  intros ch Hch%list_elem_of_In. apply orb_true_iff. right.
  apply list_elem_of_lookup_1 in Hch as [p Hp].
  apply bool_decide_eq_true_2. exists (Z.of_nat (S p)).
  apply (numbered_lookup _ p _ Hnum). by rewrite list_lookup_fmap, Hp.
Qed.

(** C6, as the code has it.  Let the sheet titles be distinct (they are
    the keys of a dict) and let the workout-actual headers of every sheet
    be numbered 1, 2, 3, ... from the left by the digit at offset 8.  Then
    the history scan returns (on rows that have a cell under each header),
    and in what it returns the rows are sorted by ordinal, the ordinals of
    one sheet strictly increase with the column in header order, and no
    ordinal of a later sheet is below an ordinal of an earlier sheet. *)
Theorem ordinals_ordered_when_numbered (all : sheets) :
  NoDup (all.*1) → numbered all →
  (Forall (λ td, padded td.2 = true) all →
   ∃ df, load_and_process_history all = Ok df)
  ∧ ∀ df, load_and_process_history all = Ok df →
      StronglySorted by_ordinal df
      ∧ increasing_within_sheets all df
      ∧ nondecreasing_across_sheets all df.
Proof.
  intros Hnd Hnum. split.
  { intros Hp. apply is_Ok_true.
    rewrite load_and_process_history_is_Ok, (history_sheets_is_Ok 0 all Hp).
    by apply numbered_readable. }
  intros df (Hsorted & recs & Hrecs & Hdf)%load_and_process_history_Ok.
  split; [done|]. split.
  - intros title data headers c1 c2 h1 h2 x1 x2 Hin Hlen Hh Hc1 Hc2 Hlt
      (r1 & Hr1 & ->)%Hdf Hs1 Hd1 (r2 & Hr2 & ->)%Hdf Hs2 Hd2. simpl in *.
    apply list_elem_of_lookup_1 in Hin as [k Hk].
    apply list_elem_of_lookup_1 in Hc1 as [p1 Hp1].
    apply list_elem_of_lookup_1 in Hc2 as [p2 Hp2].
    pose proof (filter_enumerate_order _ _ _ _ _ _ _ Hp1 Hp2 Hlt) as Hp.
    assert (workout_headers data = (workout_cols headers).*2) as Hwh.
    { unfold workout_headers. rewrite (proj2 (Nat.ltb_ge _ _) Hlen). by rewrite Hh. }
    rewrite (numbered_ordinal all recs r1 k p1 data Hnd Hnum Hrecs Hr1),
      (numbered_ordinal all recs r2 k p2 data Hnd Hnum Hrecs Hr2).
    + lia.
    + by rewrite Hs2.
    + by rewrite Hwh, list_lookup_fmap, Hp2, Hd2.
    + by rewrite Hs1.
    + by rewrite Hwh, list_lookup_fmap, Hp1, Hd1.
  - intros k1 k2 t1 t2 d1 d2 x1 x2 Hk1 Hk2 Hlt
      (r1 & Hr1 & ->)%Hdf Hs1 (r2 & Hr2 & ->)%Hdf Hs2. simpl in *.
    destruct (history_sheets_elem _ _ _ _ Hrecs Hr1) as (k1' & d1' & ? & Hk1' & Hday1 & _).
    destruct (history_sheets_elem _ _ _ _ Hrecs Hr2) as (k2' & d2' & ? & Hk2' & Hday2 & _).
    rewrite Hs1 in Hk1'. rewrite Hs2 in Hk2'.
    pose proof (unique_title _ _ _ _ _ _ Hnd Hk1' Hk1) as ->.
    pose proof (unique_title _ _ _ _ _ _ Hnd Hk2' Hk2) as ->.
    apply list_elem_of_lookup_1 in Hday1 as [p1 Hp1].
    apply list_elem_of_lookup_1 in Hday2 as [p2 Hp2].
    rewrite <- Hs1 in Hk1'. rewrite <- Hs2 in Hk2'.
    rewrite (numbered_ordinal all recs r1 k1 p1 d1' Hnd Hnum Hrecs Hr1 Hk1' Hp1),
      (numbered_ordinal all recs r2 k2 p2 d2' Hnd Hnum Hrecs Hr2 Hk2' Hp2).
    apply lookup_lt_Some in Hp1.
    pose proof (columns_before_S _ _ _ Hk1') as HS. simpl in HS.
    pose proof (columns_before_le all (S k1) k2 ltac:(lia)). lia.
Qed.

Lemma ordinals_ordered_when_numbered_witness :
  ∃ df, load_and_process_history [("Month 1", month1); ("Month 2", month2)] = Ok df
        ∧ StronglySorted by_ordinal df
        ∧ increasing_within_sheets [("Month 1", month1); ("Month 2", month2)] df
        ∧ nondecreasing_across_sheets [("Month 1", month1); ("Month 2", month2)] df.
Proof.
  destruct (ordinals_ordered_when_numbered [("Month 1", month1); ("Month 2", month2)])
    as [Hreturns Hordered].
  - apply (bool_decide_eq_true_1 _). reflexivity.
  - repeat constructor.
  - destruct Hreturns as [df Hdf]; [repeat constructor|].
    exists df. split; [exact Hdf|]. apply Hordered, Hdf.
Defined.

(** C6, as stated, fails: the first sheet holds workouts 9 and 10, the
    second sheet a workout 1.  The digit at offset 8 of "Workout 10
    (Actual)" is 1, so within the first sheet the ordinals fall, 9 then 1,
    and the ordinal 2 + 1 = 3 of the second sheet is below the ordinal 9
    of the first. *)
Lemma ordinals_unordered :
  NoDup ([("Week A", week_a); ("Week B", week_b)].*1)
  ∧ load_and_process_history [("Week A", week_a); ("Week B", week_b)]
    = Ok week_ab_history
  ∧ ¬ increasing_within_sheets [("Week A", week_a); ("Week B", week_b)] week_ab_history
  ∧ ¬ nondecreasing_across_sheets [("Week A", week_a); ("Week B", week_b)] week_ab_history.
Proof.
  split; [apply (bool_decide_eq_true_1 _); reflexivity|].
  split; [reflexivity|]. split.
  - intros H.
    specialize (H "Week A" week_a
                  ["Exercise"; "Sets"; "Reps"; "Rest"; "Workout 9 (Actual)"; "Workout 10 (Actual)"]
                  4%nat 5%nat "Workout 9 (Actual)" "Workout 10 (Actual)"
                  {| record := {| Sheet := "Week A"; Day := "Workout 9 (Actual)";
                                  Exercise := "Squat"; Actual_Raw := "10, 10, 10";
                                  Workout_Order := 9 |};
                     Metric := Some 30 |}
                  {| record := {| Sheet := "Week A"; Day := "Workout 10 (Actual)";
                                  Exercise := "Squat"; Actual_Raw := "10, 9, 8";
                                  Workout_Order := 1 |};
                     Metric := Some 27 |}).
    simpl in H. unfold week_ab_history in H.
    assert (9 < 1) as Habs; [|lia].
    apply H; try done; try lia; repeat (by left) || right.
  - intros H.
    specialize (H 0%nat 1%nat "Week A" "Week B" week_a week_b
                  {| record := {| Sheet := "Week A"; Day := "Workout 9 (Actual)";
                                  Exercise := "Squat"; Actual_Raw := "10, 10, 10";
                                  Workout_Order := 9 |};
                     Metric := Some 30 |}
                  {| record := {| Sheet := "Week B"; Day := "Workout 1 (Actual)";
                                  Exercise := "Squat"; Actual_Raw := "12, 12, 12";
                                  Workout_Order := 3 |};
                     Metric := Some 36 |}).
    simpl in H. unfold week_ab_history in H.
    assert (9 ≤ 3) as Habs; [|lia].
    apply H; try done; try lia; repeat (by left) || right.
Qed.

(** * Further properties *)

(** ** The schedule resolver: what is returned, and when nothing is *)

Section ResolverMore.

Lemma spec_next_column_None (last_row : list string) (cols : list nat) :
  spec_next_column last_row cols = Ok None ↔ forallb (filled last_row) cols = true.
Proof.
  induction cols as [|c cols IH]; simpl; [done|].
  unfold filled at 1, index.
  destruct (last_row !! c) as [cell|]; simpl; [|done].
  destruct (truthy cell); simpl; [done|]. split; discriminate.
Qed.

Lemma spec_resolve_sheet_None (sheet_title : string) (data : list (list string)) :
  spec_resolve_sheet sheet_title data = Ok None ↔ passed_over data = true.
Proof.
  unfold spec_resolve_sheet, passed_over.
  destruct (qualifies data); simpl; [|done].
  destruct (last (exercise_block (drop 2 data))) as [last_row|]; [|done].
  rewrite <- spec_next_column_None.
  destruct (spec_next_column last_row _) as [[col|]|e]; simpl; try done.
  split; [|discriminate].
  destruct (spec_to_do _ col) as [todo|e]; simpl; [|done].
  by destruct (index _ col).
Qed.

(** The sheet the result comes from, and the sheets before it. *)
Lemma spec_resolve_Some (all : sheets) (title : string) (todo : list exercise)
    (day : string) :
  spec_resolve all = Ok (Some title, todo, Some day) ↔
  ∃ k data, all !! k = Some (title, data)
            ∧ Forall (λ td, passed_over td.2 = true) (take k all)
            ∧ spec_resolve_sheet title data = Ok (Some (title, todo, day)).
Proof.
  induction all as [|[t d] all IH]; simpl.
  { split; [done|]. by intros (k & data & ? & _). }
  split.
  - intros ([[[t' todo'] day']|] & Hsheet & H)%bind_Ok.
    + injection H as -> -> ->.
      destruct (spec_resolve_sheet_Some _ _ _ _ _ Hsheet) as [-> _].
      exists 0%nat, d. by repeat split.
    + apply IH in H as (k & data & Hk & Hpre & Hs).
      exists (S k), data. repeat split; try done.
      simpl. constructor; [|done]. by apply (spec_resolve_sheet_None t).
  - intros ([|k] & data & Hk & Hpre & Hs); simpl in *.
    + injection Hk as -> ->. by rewrite Hs.
    + apply Forall_cons in Hpre as [Hd%(spec_resolve_sheet_None t) Hpre].
      simpl in Hd. rewrite Hd. run. apply IH. by exists k, data.
Qed.

End ResolverMore.

(** [find_next_workout_and_exercises] returns (None, [], None), the sign
    that the whole plan is complete, exactly when every sheet is passed
    over: it has fewer than 3 rows, or no workout-actual column, or no
    named first exercise row, or the last row of its exercise block is
    filled in every workout-actual column.  The rows above the last one
    are not looked at. *)
Theorem plan_complete_iff (all : sheets) :
  find_next_workout_and_exercises all = Ok (None, [], None)
  ↔ Forall (λ td, passed_over td.2 = true) all.
Proof.
  rewrite find_next_spec_resolve.
  induction all as [|[t d] all IH]; simpl.
  { split; [constructor|done]. }
  rewrite Forall_cons, <- IH, <- (spec_resolve_sheet_None t). simpl.
  destruct (spec_resolve_sheet t d) as [[[[t' todo] day]|]|e]; simpl.
  - split; [done|]. by intros [? _].
  - tauto.
  - split; [done|]. by intros [? _].
Qed.

Section ToDoMore.

(** Each entry is built from a row of the block with an empty cell in the
    column. *)
Lemma spec_to_do_sound (b : list (list string)) (i col : nat) (todo : list exercise) :
  spec_to_do (enumerate_from i b) col = Ok todo →
  Forall (λ e, ∃ j r, b !! j = Some r
                      ∧ gspread_row e = Z.of_nat (i + j) + 3
                      ∧ gspread_col e = Z.of_nat col + 1
                      ∧ r !! col = Some EmptyString
                      ∧ r !! 0%nat = Some (name e)
                      ∧ r !! 1%nat = Some (sets_goal e)
                      ∧ r !! 2%nat = Some (reps_goal e)
                      ∧ r !! 3%nat = Some (rest e)) todo.
Proof.
  revert i todo. induction b as [|r b IH]; intros i todo.
  - simpl. intros [= <-]. constructor.
  - intros (cell & Hcell & Hcase)%spec_to_do_cons.
    assert (∀ todo', spec_to_do (enumerate_from (S i) b) col = Ok todo' →
              Forall (λ e, ∃ j r0, (r :: b) !! j = Some r0
                      ∧ gspread_row e = Z.of_nat (i + j) + 3
                      ∧ gspread_col e = Z.of_nat col + 1
                      ∧ r0 !! col = Some EmptyString
                      ∧ r0 !! 0%nat = Some (name e)
                      ∧ r0 !! 1%nat = Some (sets_goal e)
                      ∧ r0 !! 2%nat = Some (reps_goal e)
                      ∧ r0 !! 3%nat = Some (rest e)) todo') as IH'.
    { intros todo' H. eapply Forall_impl; [exact (IH _ _ H)|]. simpl.
      intros e (j & r0 & Hj & Hrow & Hrest). exists (S j), r0.
      split; [done|]. split; [lia|done]. }
    destruct Hcase as [[_ H]|(-> & e & todo' & He & H & ->)]; [by apply IH'|].
    constructor; [|by apply IH'].
    apply to_do_entry_Ok in He as (? & ? & ? & ? & ? & ?).
    exists 0%nat, r. rewrite Nat.add_0_r. by repeat split.
Qed.

Lemma row_named_name (r : list string) :
  row_named r = true → ∃ n, r !! 0%nat = Some n ∧ n ≠ EmptyString.
Proof.
  unfold row_named. intros [_ H]%andb_prop.
  destruct (r !! 0%nat) as [n|]; [|done]. exists n. split; [done|].
  by intros ->.
Qed.

End ToDoMore.

(** Every entry of the returned to-do list points at an empty cell of the
    returned sheet: read as 1-based spreadsheet coordinates, as the writer
    [update_google_sheet] passes them to [update_cell], ([gspread_row],
    [gspread_col]) is a cell of a named exercise row that holds the empty
    string, under the header returned as the day label, and the entry
    carries the first four cells of that row. *)
Theorem to_do_targets_empty_cells (all : sheets) (title : string)
    (todo : list exercise) (day : string) :
  find_next_workout_and_exercises all = Ok (Some title, todo, Some day) →
  ∃ data headers,
    (title, data) ∈ all ∧ data !! 1%nat = Some headers
    ∧ Forall (λ e, ∃ r,
                data !! Z.to_nat (gspread_row e - 1) = Some r
                ∧ r !! Z.to_nat (gspread_col e - 1) = Some EmptyString
                ∧ headers !! Z.to_nat (gspread_col e - 1) = Some day
                ∧ name e ≠ EmptyString
                ∧ take 4 r = [name e; sets_goal e; reps_goal e; rest e]) todo.
Proof.
  rewrite find_next_spec_resolve.
  intros (k & data & Hk%list_elem_of_lookup_2 & _ & Hsheet)%spec_resolve_Some.
  apply spec_resolve_sheet_Some in Hsheet
    as (_ & _ & headers & last_row & col & Hh & _ & _ & _ & Htodo & Hday).
  exists data, headers. split; [done|]. split; [done|].
  eapply Forall_impl; [exact (spec_to_do_sound _ _ _ _ Htodo)|]. simpl.
  intros e (j & r & Hj & Hrow & Hcol & Hcell & H0 & H1 & H2 & H3).
  exists r. rewrite Hrow, Hcol.
  replace (Z.to_nat (Z.of_nat j + 3 - 1)) with (2 + j)%nat by lia.
  replace (Z.to_nat (Z.of_nat col + 1 - 1)) with col by lia.
  pose proof (exercise_block_named (drop 2 data)) as Hnamed.
  rewrite Forall_forall in Hnamed.
  destruct (row_named_name r (Hnamed _ (list_elem_of_lookup_2 _ _ _ Hj)))
    as (n & Hn & Hne).
  apply exercise_block_lookup in Hj. rewrite lookup_drop in Hj.
  repeat split; try done.
  - congruence.
  - destruct r as [|c0 [|c1 [|c2 [|c3 r]]]]; simplify_eq/=. done.
Qed.

Lemma to_do_targets_empty_cells_witness :
  ∃ data headers,
    ("Month 1", data) ∈ [("Month 0", month0); ("Month 1", month1)]
    ∧ data !! 1%nat = Some headers
    ∧ Forall (λ e, ∃ r,
                data !! Z.to_nat (gspread_row e - 1) = Some r
                ∧ r !! Z.to_nat (gspread_col e - 1) = Some EmptyString
                ∧ headers !! Z.to_nat (gspread_col e - 1) = Some "Workout 2 (Actual)"
                ∧ name e ≠ EmptyString
                ∧ take 4 r = [name e; sets_goal e; reps_goal e; rest e]) month1_to_do.
Proof.
  apply (to_do_targets_empty_cells [("Month 0", month0); ("Month 1", month1)]
           "Month 1" month1_to_do "Workout 2 (Actual)").
  reflexivity.
Defined.

(** The returned to-do list holds exactly the rows of the sheet's exercise
    block whose cell in the returned column is empty: a spreadsheet row
    [j + 3] is targeted by an entry if and only if the cell of the block
    row at offset [j] is empty in that column. *)
Theorem to_do_exact (all : sheets) (title : string)
    (todo : list exercise) (day : string) :
  find_next_workout_and_exercises all = Ok (Some title, todo, Some day) →
  ∃ data col,
    (title, data) ∈ all
    ∧ Forall (λ e, gspread_col e = Z.of_nat col + 1) todo
    ∧ ∀ j : nat,
        (∃ e, e ∈ todo ∧ gspread_row e = Z.of_nat j + 3)
        ↔ (∃ r, exercise_block (drop 2 data) !! j = Some r
                ∧ r !! col = Some EmptyString).
Proof.
  rewrite find_next_spec_resolve.
  intros (k & data & Hk%list_elem_of_lookup_2 & _ & Hsheet)%spec_resolve_Some.
  apply spec_resolve_sheet_Some in Hsheet
    as (_ & _ & headers & last_row & col & _ & _ & _ & _ & Htodo & _).
  exists data, col. split; [done|].
  pose proof (spec_to_do_sound _ _ _ _ Htodo) as Hsound.
  split.
  - eapply Forall_impl; [exact Hsound|]. simpl. by intros e (j & r & _ & _ & ? & _).
  - intros j. split.
    + intros (e & He & Hrow). rewrite Forall_forall in Hsound.
      destruct (Hsound e He) as (j' & r & Hj' & Hrow' & _ & Hcell & _).
      exists r. replace j with j' by lia. done.
    + intros (r & Hj & Hcell).
      destruct (spec_to_do_elem _ _ _ _ _ _ Htodo Hj Hcell) as (e & He & Hrow & _).
      by exists e.
Qed.

Lemma to_do_exact_witness :
  ∃ data col,
    ("Month 1", data) ∈ [("Month 0", month0); ("Month 1", month1)]
    ∧ Forall (λ e, gspread_col e = Z.of_nat col + 1) month1_to_do
    ∧ ∀ j : nat,
        (∃ e, e ∈ month1_to_do ∧ gspread_row e = Z.of_nat j + 3)
        ↔ (∃ r, exercise_block (drop 2 data) !! j = Some r
                ∧ r !! col = Some EmptyString).
Proof.
  apply (to_do_exact [("Month 0", month0); ("Month 1", month1)]
           "Month 1" month1_to_do "Workout 2 (Actual)").
  reflexivity.
Defined.

Section ColumnOrder.

(** The workout-actual columns are listed left to right. *)
Lemma filter_enumerate_sorted {A : Type} (f : nat * A → bool) (l : list A) (i : nat) :
  StronglySorted lt (List.map fst (List.filter f (enumerate_from i l)))
  ∧ Forall (le i) (List.map fst (List.filter f (enumerate_from i l))).
Proof.
  revert i. induction l as [|x l IH]; intros i; simpl.
  { split; constructor. }
  destruct (IH (S i)) as [Hs Hle].
  assert (Forall (le i) (List.map fst (List.filter f (enumerate_from (S i) l)))) as Hle'.
  { eapply Forall_impl; [exact Hle|]. simpl. intros; lia. }
  destruct (f (i, x)); simpl; [|done].
  split; by constructor.
Qed.

Lemma workout_col_indices_sorted (headers : list string) :
  StronglySorted lt (workout_col_indices headers).
Proof. apply filter_enumerate_sorted. Qed.

(** The column the scan stops at is the leftmost one with an empty cell. *)
Lemma spec_next_column_leftmost (last_row : list string) (cols : list nat) (col : nat) :
  StronglySorted lt cols →
  spec_next_column last_row cols = Ok (Some col) →
  ∀ c, c ∈ cols → (c < col)%nat → filled last_row c = true.
Proof.
  induction 1 as [|c0 cols Hs IH Hc0]; simpl; [done|].
  intros (cell & Hcell & H)%bind_Ok c Hc Hlt.
  destruct (truthy cell) eqn:Ht.
  - apply elem_of_cons in Hc as [->|Hc]; [|by apply IH].
    by rewrite (filled_truthy _ _ _ Hcell).
  - injection H as <-. apply elem_of_cons in Hc as [->|Hc]; [lia|].
    rewrite Forall_forall in Hc0. specialize (Hc0 c Hc). lia.
Qed.

End ColumnOrder.

Section Chosen.

(** The column a sheet's result is computed for is the one the column scan
    stops at. *)
Lemma spec_resolve_sheet_chosen (sheet_title : string) (data : list (list string))
    (title : string) (todo : list exercise) (day : string) :
  spec_resolve_sheet sheet_title data = Ok (Some (title, todo, day)) →
  qualifies data = true
  ∧ ∃ headers last_row col,
      data !! 1%nat = Some headers
      ∧ last (exercise_block (drop 2 data)) = Some last_row
      ∧ spec_next_column last_row (workout_col_indices headers) = Ok (Some col)
      ∧ spec_to_do (enumerate (exercise_block (drop 2 data))) col = Ok todo
      ∧ headers !! col = Some day.
Proof.
  unfold spec_resolve_sheet.
  destruct (qualifies data) eqn:Hq; simpl; [|done].
  destruct (last (exercise_block (drop 2 data))) as [last_row|]; [|done].
  intros ([col|] & Hcol & H)%bind_Ok; [|done].
  apply bind_Ok in H as (todo' & Htodo & (day' & Hday%index_Ok & H)%bind_Ok).
  injection H as <- <- <-. split; [done|].
  unfold qualifies in Hq.
  destruct (data !! 1%nat) as [headers|] eqn:Hh.
  - exists headers, last_row, col. by simpl in *.
  - simpl in Hcol. discriminate.
Qed.

End Chosen.

(** What [find_next_workout_and_exercises] returns is the first incomplete
    workout in sheet order and, within the sheet, in column order: every
    sheet before the returned one is passed over, and in the returned
    sheet the last row of the exercise block is filled in every
    workout-actual column to the left of the returned column and empty in
    the returned column. *)
Theorem next_is_first_incomplete (all : sheets) (title : string)
    (todo : list exercise) (day : string) :
  find_next_workout_and_exercises all = Ok (Some title, todo, Some day) →
  ∃ (k : nat) (data : list (list string)) (headers last_row : list string) (col : nat),
    all !! k = Some (title, data)
    ∧ Forall (λ td, passed_over td.2 = true) (take k all)
    ∧ data !! 1%nat = Some headers
    ∧ last (exercise_block (drop 2 data)) = Some last_row
    ∧ col ∈ workout_col_indices headers
    ∧ headers !! col = Some day
    ∧ last_row !! col = Some EmptyString
    ∧ ∀ c, c ∈ workout_col_indices headers → (c < col)%nat → filled last_row c = true.
Proof.
  rewrite find_next_spec_resolve.
  intros (k & data & Hk & Hpre & Hsheet)%spec_resolve_Some.
  apply spec_resolve_sheet_chosen in Hsheet
    as (_ & headers & last_row & col & Hh & Hlast & Hchosen & _ & Hday).
  destruct (spec_next_column_Some _ _ _ Hchosen) as [Hcol Hcell].
  exists k, data, headers, last_row, col. repeat split; try done.
  apply spec_next_column_leftmost; [apply workout_col_indices_sorted|done].
Qed.

Lemma next_is_first_incomplete_witness :
  ∃ (k : nat) (data : list (list string)) (headers last_row : list string) (col : nat),
    [("Month 0", month0); ("Month 1", month1)] !! k = Some ("Month 1", data)
    ∧ Forall (λ td, passed_over td.2 = true)
        (take k [("Month 0", month0); ("Month 1", month1)])
    ∧ data !! 1%nat = Some headers
    ∧ last (exercise_block (drop 2 data)) = Some last_row
    ∧ col ∈ workout_col_indices headers
    ∧ headers !! col = Some "Workout 2 (Actual)"
    ∧ last_row !! col = Some EmptyString
    ∧ ∀ c, c ∈ workout_col_indices headers → (c < col)%nat → filled last_row c = true.
Proof.
  apply (next_is_first_incomplete [("Month 0", month0); ("Month 1", month1)]
           "Month 1" month1_to_do "Workout 2 (Actual)").
  reflexivity.
Defined.

Section Progress.

(** Filling the cell of the first entry removes that entry and nothing
    else from the list of the column. *)
Lemma spec_to_do_fill_first (b : list (list string)) (i col : nat)
    (e : exercise) (todo : list exercise) (v : string) :
  v ≠ EmptyString →
  spec_to_do (enumerate_from i b) col = Ok (e :: todo) →
  ∃ j r, b !! j = Some r ∧ r !! col = Some EmptyString
         ∧ gspread_row e = Z.of_nat (i + j) + 3
         ∧ gspread_col e = Z.of_nat col + 1
         ∧ spec_to_do (enumerate_from i (<[j := <[col := v]> r]> b)) col = Ok todo.
Proof.
  intros Hv. revert i. induction b as [|r0 b IH]; intros i; [done|].
  intros (cell & Hcell & [[Ht H]|(-> & e0 & todo' & He & H & [= <- <-])])%spec_to_do_cons.
  - destruct (IH _ H) as (j & r & Hj & Hr & Hrow & Hcol & Hnew).
    exists (S j), r. repeat split; try done; [lia|].
    simpl. apply index_Ok in Hcell. rewrite Hcell. run. by rewrite Ht.
  - apply to_do_entry_Ok in He as (_ & _ & _ & _ & Hrow & Hcol).
    exists 0%nat, r0. rewrite Nat.add_0_r. repeat split; try done.
    simpl. unfold index at 1.
    rewrite list_lookup_insert_eq by (by apply lookup_lt_Some in Hcell).
    run. by destruct v.
Qed.

Lemma row_named_insert (r : list string) (col : nat) (v : string) :
  (1 ≤ col)%nat → row_named (<[col := v]> r) = row_named r.
Proof. destruct r, col; simpl; done || lia. Qed.

Lemma exercise_block_insert (rows : list (list string)) (j : nat) (r' : list string) :
  (j < length (exercise_block rows))%nat → row_named r' = true →
  exercise_block (<[j := r']> rows) = <[j := r']> (exercise_block rows).
Proof.
  intros Hj Hr'. revert j Hj. induction rows as [|r rows IH]; intros j Hj; simpl in *; [lia|].
  destruct (row_named r) eqn:Hr; simpl in Hj; [|lia].
  destruct j as [|j]; simpl.
  - by rewrite Hr'.
  - rewrite Hr. f_equal. apply IH. lia.
Qed.

Lemma last_insert_lt {A : Type} (l : list A) (j : nat) (x : A) :
  (j < pred (length l))%nat → last (<[j := x]> l) = last l.
Proof.
  intros Hj. rewrite !last_lookup, length_insert.
  apply list_lookup_insert_ne. lia.
Qed.

End Progress.

(** The resolver follows the session.  When it returns a to-do list with
    more than one entry and a non-empty value is written into the cell
    the first entry points at (spreadsheet row [gspread_row], column
    [gspread_col] of the returned sheet), the resolver run on the new
    snapshot set returns the same sheet, the same day label and the rest
    of the list, unchanged. *)
Theorem next_after_first_written (all : sheets) (title : string) (e : exercise)
    (todo : list exercise) (day v : string) :
  find_next_workout_and_exercises all = Ok (Some title, e :: todo, Some day) →
  todo ≠ [] → v ≠ EmptyString →
  ∃ (k : nat) (data : list (list string)) (r : list string),
    all !! k = Some (title, data)
    ∧ data !! Z.to_nat (gspread_row e - 1) = Some r
    ∧ r !! Z.to_nat (gspread_col e - 1) = Some EmptyString
    ∧ find_next_workout_and_exercises
        (<[k := (title,
                 <[Z.to_nat (gspread_row e - 1)
                   := <[Z.to_nat (gspread_col e - 1) := v]> r]> data)]> all)
      = Ok (Some title, todo, Some day).
Proof.
  rewrite !find_next_spec_resolve.
  intros (k & data & Hk & Hpre & Hsheet)%spec_resolve_Some Hrest Hv.
  apply spec_resolve_sheet_chosen in Hsheet
    as (Hq & headers & last_row & col & Hh & Hlast & Hchosen & Htodo & Hday).
  unfold enumerate in Htodo.
  destruct (spec_to_do_fill_first _ _ _ _ _ v Hv Htodo)
    as (j & r & Hj & Hcell & Hrow & Hcol & Hnew).
  rewrite Hrow, Hcol.
  replace (Z.to_nat (Z.of_nat (0 + j) + 3 - 1)) with (2 + j)%nat by lia.
  replace (Z.to_nat (Z.of_nat col + 1 - 1)) with col by lia.
  pose proof (exercise_block_lookup _ _ _ Hj) as Hdata. rewrite lookup_drop in Hdata.
  exists k, data, r. repeat split; try done.
  (* the row written to stays a named row of the block *)
  pose proof (exercise_block_named (drop 2 data)) as Hnamed.
  rewrite Forall_forall in Hnamed.
  pose proof (Hnamed _ (list_elem_of_lookup_2 _ _ _ Hj)) as Hr.
  assert (1 ≤ col)%nat as Hcol1.
  { destruct (row_named_name r Hr) as (n & Hn & Hne).
    destruct col; [|lia]. congruence. }
  pose proof (lookup_lt_Some _ _ _ Hj) as Hjlt.
  assert (exercise_block (drop 2 (<[(2 + j)%nat := <[col := v]> r]> data))
          = <[j := <[col := v]> r]> (exercise_block (drop 2 data))) as Hblock.
  { rewrite drop_insert_ge by lia. replace (2 + j - 2)%nat with j by lia.
    apply exercise_block_insert; [done|]. by rewrite row_named_insert. }
  (* the first entry is not the one of the last row *)
  assert (j < pred (length (exercise_block (drop 2 data))))%nat as Hjlast.
  { destruct (spec_to_do_rows _ _ _ _ Htodo) as [Hall Hsorted].
    destruct todo as [|e' todo]; [done|].
    rewrite !fmap_cons in Hsorted.
    apply StronglySorted_inv in Hsorted as [_ Hlt].
    apply Forall_cons in Hlt as [Hlt _].
    apply Forall_cons in Hall as [_ Hall].
    apply Forall_cons in Hall as [[_ Hbound] _]. lia. }
  rewrite find_next_spec_resolve. apply spec_resolve_Some.
  exists k, (<[(2 + j)%nat := <[col := v]> r]> data).
  split; [apply list_lookup_insert_eq; by apply lookup_lt_Some in Hk|].
  split; [by rewrite take_insert_ge|].
  unfold spec_resolve_sheet, qualifies in *.
  rewrite length_insert, list_lookup_insert_ne, Hblock by lia.
  assert (list_truthy (<[j := <[col := v]> r]> (exercise_block (drop 2 data)))
          = list_truthy (exercise_block (drop 2 data))) as ->
    by (by destruct (exercise_block (drop 2 data)), j).
  rewrite Hq, Hh, (last_insert_lt _ _ _ Hjlast), Hlast. simpl.
  rewrite Hchosen. run. unfold enumerate. rewrite Hnew. run.
  apply index_Ok in Hday. by rewrite Hday.
Qed.

Lemma next_after_first_written_witness :
  ∃ (k : nat) (data : list (list string)) (r : list string),
    [("Month 0", month0); ("Month 1", month1)] !! k = Some ("Month 1", data)
    ∧ data !! Z.to_nat (4 - 1) = Some r
    ∧ r !! Z.to_nat (6 - 1) = Some EmptyString
    ∧ find_next_workout_and_exercises
        (<[k := ("Month 1",
                 <[Z.to_nat (4 - 1) := <[Z.to_nat (6 - 1) := "12, 11, 10"]> r]> data)]>
           [("Month 0", month0); ("Month 1", month1)])
      = Ok (Some "Month 1",
            [ {| name := "Plank"; sets_goal := "3"; reps_goal := "45-60 sec";
                 rest := "30 sec"; gspread_row := 5; gspread_col := 6 |} ],
            Some "Workout 2 (Actual)").
Proof.
  apply (next_after_first_written [("Month 0", month0); ("Month 1", month1)] "Month 1"
           {| name := "Push-up"; sets_goal := "3"; reps_goal := "12"; rest := "60 sec";
              gspread_row := 4; gspread_col := 6 |}
           [ {| name := "Plank"; sets_goal := "3"; reps_goal := "45-60 sec";
                rest := "30 sec"; gspread_row := 5; gspread_col := 6 |} ]
           "Workout 2 (Actual)" "12, 11, 10").
  - reflexivity.
  - discriminate.
  - discriminate.
Defined.

(** ** Completion and the resolver *)

Section Full.

Lemma count_filled_cols_full (rows : list (list string)) (i : nat)
    (cols : list nat) (f f' : Z) :
  count_filled_cols rows i cols f = Ok f' →
  f' = f + Z.of_nat (length cols) →
  ∀ c, c ∈ cols → ∃ r, rows !! i = Some r ∧ filled r c = true.
Proof.
  revert f. induction cols as [|c0 cols IH]; intros f; simpl.
  { intros _ _ c ?%elem_of_nil. done. }
  intros (r & Hr%index_Ok & (cell & Hcell & H)%bind_Ok)%bind_Ok Hf' c Hc.
  pose proof (count_filled_cols_bounds _ _ _ _ _ H) as Hb.
  destruct (truthy cell) eqn:Ht; [|lia].
  apply elem_of_cons in Hc as [->|Hc].
  - exists r. by rewrite (filled_truthy _ _ _ Hcell).
  - apply (IH _ H); [lia|done].
Qed.

Lemma count_filled_rows_full (rows : list (list string)) (range cols : list nat)
    (f f' : Z) :
  count_filled_rows rows range cols f = Ok f' →
  f' = f + Z.of_nat (length range) * Z.of_nat (length cols) →
  ∀ i c, i ∈ range → c ∈ cols → ∃ r, rows !! i = Some r ∧ filled r c = true.
Proof.
  revert f. induction range as [|i0 range IH]; intros f; simpl.
  { intros _ _ i c ?%elem_of_nil. done. }
  intros (f1 & H1 & H)%bind_Ok Hf' i c Hi Hc.
  pose proof (count_filled_cols_bounds _ _ _ _ _ H1) as Hb1.
  pose proof (count_filled_rows_bounds _ _ _ _ _ H) as Hb.
  apply elem_of_cons in Hi as [->|Hi].
  - apply (count_filled_cols_full _ _ _ _ _ H1); [lia|done].
  - apply (IH _ H); [lia|done|done].
Qed.

(** The loop adds at most as many filled slots as slots; when it adds as
    many, every sheet is one the resolver passes over. *)
Lemma completion_sheets_full (all : sheets) (t f t' f' : Z) :
  completion_sheets all t f = Ok (t', f') →
  0 ≤ f' - f ≤ t' - t
  ∧ (f' - f = t' - t → Forall (λ td, passed_over td.2 = true) all).
Proof.
  revert t f. induction all as [|[title data] all IH]; intros t f.
  { simpl. intros [= <- <-]. split; [lia|constructor]. }
  cbn [completion_sheets].
  assert (∀ t0 f0, qualifies data = false →
            completion_sheets all t0 f0 = Ok (t', f') →
            0 ≤ f' - f0 ≤ t' - t0
            ∧ (f' - f0 = t' - t0 →
               Forall (λ td, passed_over td.2 = true) ((title, data) :: all))) as Hskip.
  { intros t0 f0 Hq [? ?]%IH. split; [done|]. intros ?. constructor; [|auto].
    simpl. unfold passed_over. by rewrite Hq. }
  destruct (Nat.ltb_spec (length data) 3) as [Hlen|Hlen].
  { apply Hskip. unfold qualifies.
    by rewrite (proj2 (Nat.leb_gt 3 (length data))) by lia. }
  destruct (index_lt data 1 ltac:(lia)) as (headers & -> & Hh). run.
  destruct (list_truthy (workout_col_indices headers)) eqn:Hcols; cbn [negb].
  2: { apply Hskip. unfold qualifies. rewrite Hh. simpl. rewrite Hcols.
       apply andb_false_intro1, andb_false_r. }
  rewrite count_exercises_block. simpl Nat.add.
  destruct (exercise_block (drop 2 data)) as [|r0 b] eqn:Hb.
  { apply Hskip. unfold qualifies. rewrite Hb. apply andb_false_r. }
  cbn [length Nat.eqb].
  intros (f1 & H1 & [Hd Hfull]%IH)%bind_Ok.
  pose proof (count_filled_rows_bounds _ _ _ _ _ H1) as Hb1.
  rewrite length_seq in Hb1.
  split; [lia|]. intros Heq. constructor; [|apply Hfull; lia].
  simpl. unfold passed_over. apply orb_true_iff. right. rewrite Hh, Hb. simpl default.
  destruct (last (r0 :: b)) as [last_row|] eqn:Hlast; [|done].
  rewrite <- Hb in Hlast. apply exercise_block_last in Hlast.
  rewrite Hb in Hlast. simpl in Hlast.
  apply forallb_forall. intros c Hc%list_elem_of_In.
  destruct (count_filled_rows_full _ _ _ _ _ H1) with (i := length b) (c := c)
    as (r & Hr & Hf).
  - rewrite length_seq. lia.
  - apply elem_of_seq. lia.
  - done.
  - congruence.
Qed.

End Full.

(** When [calculate_overall_completion] finds every slot filled
    (filled_slots = total_slots), [find_next_workout_and_exercises] on the
    same snapshot set returns (None, [], None) and raises nothing.  The
    converse does not hold: the resolver looks at the last row of each
    block only, so it reports a plan complete in which the calculator
    still finds an empty slot. *)
Theorem all_filled_plan_complete :
  (∀ (all : sheets) (total filled : Z) (pct : Q),
     calculate_overall_completion all = Ok (total, filled, pct) →
     filled = total →
     find_next_workout_and_exercises all = Ok (None, [], None))
  ∧ ∃ all : sheets,
      find_next_workout_and_exercises all = Ok (None, [], None)
      ∧ calculate_overall_completion all = Ok (2, 1, percentage_of 1 2).
Proof.
  split.
  - intros all total filled pct
      (t & f & Hloop & Hb & Hcase)%calculate_overall_completion_Ok Heq.
    apply plan_complete_iff.
    apply (completion_sheets_full _ _ _ _ _ Hloop).
    destruct Hcase as [(-> & _)|(_ & -> & -> & _)]; lia.
  - exists [("Month 4", month4)]. by split.
Qed.

Lemma all_filled_plan_complete_witness :
  find_next_workout_and_exercises [("Month 0", month0)] = Ok (None, [], None).
Proof.
  destruct all_filled_plan_complete as [H _].
  apply (H [("Month 0", month0)] 2 2 (percentage_of 2 2)); reflexivity.
Defined.

(** ** Sheets without workouts *)

Section Ignored.

Lemma workout_col_indices_cols (headers : list string) :
  workout_col_indices headers = (workout_cols headers).*1.
Proof.
  unfold workout_col_indices, workout_cols.
  induction (List.filter _ (enumerate headers)) as [|x l IH]; simpl; [done|].
  by rewrite IH.
Qed.

Lemma list_truthy_indices (headers : list string) :
  list_truthy (workout_col_indices headers) = list_truthy (workout_cols headers).
Proof. rewrite workout_col_indices_cols. by destruct (workout_cols headers). Qed.

Lemma ignored_headers (data : list (list string)) (headers : list string) :
  ignored data = true → (length data <? 3)%nat = false →
  data !! 1%nat = Some headers →
  list_truthy (workout_cols headers) = false.
Proof.
  unfold ignored. intros H Hlen Hh. rewrite Hlen, Hh in H. simpl in H.
  by destruct (list_truthy _).
Qed.

Lemma completion_sheets_ignored (pre post : sheets) (title : string)
    (data : list (list string)) (t f : Z) :
  ignored data = true →
  completion_sheets (pre ++ (title, data) :: post) t f
  = completion_sheets (pre ++ post) t f.
Proof.
  intros Hig. revert t f. induction pre as [|[t0 d0] pre IH]; intros t f; simpl.
  - destruct (length data <? 3)%nat eqn:Hlen; [done|].
    destruct (index data 1) as [headers|e] eqn:Hh.
    + apply index_Ok in Hh. run.
      by rewrite list_truthy_indices, (ignored_headers _ _ Hig Hlen Hh).
    + apply Nat.ltb_ge in Hlen. destruct (index_lt data 1 ltac:(lia)) as (? & ? & _).
      congruence.
  - destruct (length d0 <? 3)%nat; [apply IH|].
    destruct (index d0 1) as [headers|e]; [|done]. run.
    destruct (list_truthy (workout_col_indices headers)); simpl; [|apply IH].
    destruct (count_exercises (drop 2 d0) 0 =? 0)%nat; [apply IH|].
    destruct (count_filled_rows _ _ _ f) as [f1|e]; [|done]. run. apply IH.
Qed.

Lemma history_sheets_ignored (pre post : sheets) (title : string)
    (data : list (list string)) (counter : Z) :
  ignored data = true →
  history_sheets counter (pre ++ (title, data) :: post)
  = history_sheets counter (pre ++ post).
Proof.
  intros Hig. revert counter. induction pre as [|[t0 d0] pre IH]; intros counter; simpl.
  - destruct (length data <? 3)%nat eqn:Hlen; [done|].
    destruct (index data 1) as [headers|e] eqn:Hh.
    + apply index_Ok in Hh. run.
      by rewrite (ignored_headers _ _ Hig Hlen Hh).
    + apply Nat.ltb_ge in Hlen. destruct (index_lt data 1 ltac:(lia)) as (? & ? & _).
      congruence.
  - destruct (length d0 <? 3)%nat; [apply IH|].
    destruct (index d0 1) as [headers|e]; [|done]. run.
    destruct (list_truthy (workout_cols headers)); simpl; [|apply IH].
    destruct (history_rows _ _ _ _) as [recs|e]; [|done]. run. by rewrite IH.
Qed.

Lemma ignored_not_qualified (data : list (list string)) :
  ignored data = true → qualifies data = false.
Proof.
  unfold ignored, qualifies. rewrite list_truthy_indices.
  destruct (Nat.ltb_spec (length data) 3) as [?|?]; cbn [orb].
  - by rewrite (proj2 (Nat.leb_gt 3 (length data))) by lia.
  - intros ->%negb_true_iff. by rewrite andb_false_r.
Qed.

Lemma spec_resolve_ignored (pre post : sheets) (title : string)
    (data : list (list string)) :
  ignored data = true →
  spec_resolve (pre ++ (title, data) :: post) = spec_resolve (pre ++ post).
Proof.
  intros Hq%ignored_not_qualified.
  induction pre as [|[t0 d0] pre IH]; simpl.
  - by rewrite (not_qualified_skipped title data Hq).
  - destruct (spec_resolve_sheet t0 d0) as [[[[? ?] ?]|]|]; simpl; done.
Qed.

End Ignored.

(** A sheet with fewer than 3 rows, or without a header that contains both
    "Workout" and "Actual", counts for nothing: wherever it stands in the
    snapshot set, the completion figures, the history and the next
    workout are what they are without it.  In particular such a sheet
    never raises, whatever its rows look like, and does not advance the
    ordinals of the sheets after it. *)
Theorem ignored_sheet_counts_for_nothing (pre post : sheets) (title : string)
    (data : list (list string)) :
  ignored data = true →
  calculate_overall_completion (pre ++ (title, data) :: post)
  = calculate_overall_completion (pre ++ post)
  ∧ load_and_process_history (pre ++ (title, data) :: post)
    = load_and_process_history (pre ++ post)
  ∧ find_next_workout_and_exercises (pre ++ (title, data) :: post)
    = find_next_workout_and_exercises (pre ++ post).
Proof.
  intros Hig. repeat split.
  - unfold calculate_overall_completion. by rewrite completion_sheets_ignored.
  - unfold load_and_process_history. by rewrite history_sheets_ignored.
  - rewrite !find_next_spec_resolve. by apply spec_resolve_ignored.
Qed.

Lemma ignored_sheet_counts_for_nothing_witness :
  calculate_overall_completion ([("Month 0", month0)] ++ ("Notes", notes) :: [("Month 1", month1)])
  = calculate_overall_completion ([("Month 0", month0)] ++ [("Month 1", month1)])
  ∧ load_and_process_history ([("Month 0", month0)] ++ ("Notes", notes) :: [("Month 1", month1)])
    = load_and_process_history ([("Month 0", month0)] ++ [("Month 1", month1)])
  ∧ find_next_workout_and_exercises
      ([("Month 0", month0)] ++ ("Notes", notes) :: [("Month 1", month1)])
    = find_next_workout_and_exercises ([("Month 0", month0)] ++ [("Month 1", month1)]).
Proof.
  apply (ignored_sheet_counts_for_nothing [("Month 0", month0)] [("Month 1", month1)]
           "Notes" notes).
  reflexivity.
Defined.

(** ** Completion of a plan in parts *)

Section Additive.

Lemma count_filled_cols_shift (rows : list (list string)) (i : nat)
    (cols : list nat) (f f' g : Z) :
  count_filled_cols rows i cols f = Ok f' →
  count_filled_cols rows i cols g = Ok (f' + (g - f)).
Proof.
  revert f g. induction cols as [|c cols IH]; intros f g; simpl.
  - intros [= <-]. f_equal. lia.
  - intros (r & Hr & (cell & Hcell & H)%bind_Ok)%bind_Ok.
    rewrite Hr. run. rewrite Hcell. run.
    destruct (truthy cell); rewrite (IH _ _ H); f_equal; lia.
Qed.

Lemma count_filled_rows_shift (rows : list (list string)) (range cols : list nat)
    (f f' g : Z) :
  count_filled_rows rows range cols f = Ok f' →
  count_filled_rows rows range cols g = Ok (f' + (g - f)).
Proof.
  revert f g. induction range as [|i range IH]; intros f g; simpl.
  - intros [= <-]. f_equal. lia.
  - intros (f1 & H1 & H)%bind_Ok.
    rewrite (count_filled_cols_shift _ _ _ _ _ g H1). run.
    rewrite (IH _ _ H). f_equal. lia.
Qed.

Lemma completion_sheets_shift (all : sheets) (t f t' f' u g : Z) :
  completion_sheets all t f = Ok (t', f') →
  completion_sheets all u g = Ok (t' + (u - t), f' + (g - f)).
Proof.
  revert t f u g. induction all as [|[title data] all IH]; intros t f u g; simpl.
  - intros [= <- <-]. do 2 f_equal; lia.
  - destruct (length data <? 3)%nat; [apply IH|].
    destruct (index data 1) as [headers|e]; [|done]. run.
    destruct (list_truthy (workout_col_indices headers)); simpl; [|apply IH].
    destruct (count_exercises (drop 2 data) 0 =? 0)%nat; [apply IH|].
    intros (f1 & H1 & H)%bind_Ok.
    rewrite (count_filled_rows_shift _ _ _ _ _ g H1). run.
    rewrite (IH _ _ _ _ H). do 2 f_equal; lia.
Qed.

Lemma completion_sheets_app (all rest : sheets) (t f t1 f1 : Z) :
  completion_sheets all t f = Ok (t1, f1) →
  completion_sheets (all ++ rest) t f = completion_sheets rest t1 f1.
Proof.
  revert t f. induction all as [|[title data] all IH]; intros t f; simpl.
  - by intros [= <- <-].
  - destruct (length data <? 3)%nat; [apply IH|].
    destruct (index data 1) as [headers|e]; [|done]. run.
    destruct (list_truthy (workout_col_indices headers)); simpl; [|apply IH].
    destruct (count_exercises (drop 2 data) 0 =? 0)%nat; [apply IH|].
    intros (f2 & -> & H)%bind_Ok. run. by apply IH.
Qed.

(** The figures the calculator returns are those its loop ends with. *)
Lemma calculate_overall_completion_loop (all : sheets) (total filled : Z) (pct : Q) :
  calculate_overall_completion all = Ok (total, filled, pct) →
  completion_sheets all 0 0 = Ok (total, filled) ∧ 0 ≤ filled ≤ total.
Proof.
  intros (t & f & Hloop & Hb & [(-> & -> & -> & _)|(_ & -> & -> & _)])%calculate_overall_completion_Ok.
  - replace f with 0 in Hloop by lia. split; [done|lia].
  - done.
Qed.

End Additive.

(** The completion figures of a plan are the sums of the figures of its
    parts, in whichever order the parts come: when the calculator returns
    on two snapshot sets, it returns on their concatenation, either way
    round, the sum of the slot totals, the sum of the filled-slot counts
    and one percentage. *)
Theorem completion_additive (all1 all2 : sheets) (t1 f1 t2 f2 : Z) (p1 p2 : Q) :
  calculate_overall_completion all1 = Ok (t1, f1, p1) →
  calculate_overall_completion all2 = Ok (t2, f2, p2) →
  ∃ p, calculate_overall_completion (all1 ++ all2) = Ok (t1 + t2, f1 + f2, p)
       ∧ calculate_overall_completion (all2 ++ all1) = Ok (t1 + t2, f1 + f2, p).
Proof.
  intros [H1 Hb1]%calculate_overall_completion_loop
         [H2 Hb2]%calculate_overall_completion_loop.
  assert (completion_sheets (all1 ++ all2) 0 0 = Ok (t1 + t2, f1 + f2)) as H12.
  { rewrite (completion_sheets_app _ _ _ _ _ _ H1),
      (completion_sheets_shift _ _ _ _ _ t1 f1 H2). do 2 f_equal; lia. }
  assert (completion_sheets (all2 ++ all1) 0 0 = Ok (t1 + t2, f1 + f2)) as H21.
  { rewrite (completion_sheets_app _ _ _ _ _ _ H2),
      (completion_sheets_shift _ _ _ _ _ t2 f2 H1). do 2 f_equal; lia. }
  unfold calculate_overall_completion. rewrite H12, H21. run.
  destruct (Z.eqb_spec (t1 + t2) 0) as [H0|_].
  - exists 0%Q. replace (t1 + t2) with 0 by lia. replace (f1 + f2) with 0 by lia. done.
  - by eexists.
Qed.

Lemma completion_additive_witness :
  ∃ p, calculate_overall_completion ([("Month 0", month0)] ++ [("Month 1", month1)])
       = Ok (2 + 6, 2 + 4, p)
       ∧ calculate_overall_completion ([("Month 1", month1)] ++ [("Month 0", month0)])
         = Ok (2 + 6, 2 + 4, p).
Proof.
  apply (completion_additive [("Month 0", month0)] [("Month 1", month1)]
           2 2 6 4 (percentage_of 2 2) (percentage_of 4 6)); reflexivity.
Defined.

(** ** History records and the cells they come from *)

Section Records.

Lemma truthy_true (s : string) : truthy s = true ↔ s ≠ EmptyString.
Proof. destruct s; simpl; split; done. Qed.

Lemma history_cols_Ok (sheet_title exercise_name : string) (r : list string)
    (counter : Z) (c : nat) (h : string) (cols : list (nat * string))
    (recs : list history_record) :
  history_cols sheet_title exercise_name r counter ((c, h) :: cols) = Ok recs →
  ∃ cell recs', r !! c = Some cell
    ∧ history_cols sheet_title exercise_name r counter cols = Ok recs'
    ∧ ((cell = EmptyString ∧ recs = recs')
       ∨ (cell ≠ EmptyString
          ∧ ∃ d, recs = {| Sheet := sheet_title; Day := h; Exercise := exercise_name;
                           Actual_Raw := cell; Workout_Order := counter + d |} :: recs')).
Proof.
  simpl. intros (cell & Hcell%index_Ok & H)%bind_Ok.
  destruct (truthy cell) eqn:Ht.
  - apply bind_Ok in H as (ch & _ & (d & _ & (recs' & Hrecs' & H)%bind_Ok)%bind_Ok).
    injection H as <-. exists cell, recs'. repeat split; try done.
    right. split; [by apply truthy_true|]. by exists d.
  - exists cell, recs. repeat split; try done. left. by apply truthy_false in Ht.
Qed.

Lemma history_cols_sound (sheet_title exercise_name : string) (r : list string)
    (counter : Z) (cols : list (nat * string)) (recs : list history_record)
    (x : history_record) :
  history_cols sheet_title exercise_name r counter cols = Ok recs → x ∈ recs →
  Sheet x = sheet_title ∧ Exercise x = exercise_name
  ∧ Actual_Raw x ≠ EmptyString
  ∧ ∃ c, (c, Day x) ∈ cols ∧ r !! c = Some (Actual_Raw x).
Proof.
  revert recs. induction cols as [|[c h] cols IH]; intros recs.
  { simpl. intros [= <-] ?%elem_of_nil. done. }
  intros (cell & recs' & Hcell & Hrecs' & Hcase)%history_cols_Ok Hx.
  assert (x ∈ recs' → Sheet x = sheet_title ∧ Exercise x = exercise_name
                      ∧ Actual_Raw x ≠ EmptyString
                      ∧ ∃ c0, (c0, Day x) ∈ (c, h) :: cols
                              ∧ r !! c0 = Some (Actual_Raw x)) as IH'.
  { intros Hx'. destruct (IH _ Hrecs' Hx') as (? & ? & ? & c0 & ? & ?).
    repeat split; try done. exists c0. split; [by right|done]. }
  destruct Hcase as [[_ ->]|(Hne & d & ->)]; [by apply IH'|].
  apply elem_of_cons in Hx as [->|Hx]; [|by apply IH'].
  simpl. repeat split; try done. exists c. split; [left|done].
Qed.

Lemma history_cols_complete (sheet_title exercise_name : string) (r : list string)
    (counter : Z) (cols : list (nat * string)) (recs : list history_record)
    (c : nat) (h v : string) :
  history_cols sheet_title exercise_name r counter cols = Ok recs →
  (c, h) ∈ cols → r !! c = Some v → v ≠ EmptyString →
  ∃ x, x ∈ recs ∧ Sheet x = sheet_title ∧ Exercise x = exercise_name
       ∧ Day x = h ∧ Actual_Raw x = v.
Proof.
  revert recs. induction cols as [|[c0 h0] cols IH]; intros recs.
  { intros _ ?%elem_of_nil. done. }
  intros (cell & recs' & Hcell & Hrecs' & Hcase)%history_cols_Ok Hin Hv Hne.
  apply elem_of_cons in Hin as [[= <- <-]|Hin].
  - destruct Hcase as [[-> _]|(_ & d & ->)]; [congruence|].
    eexists. split; [left|]. simpl. repeat split; congruence.
  - destruct (IH _ Hrecs' Hin Hv Hne) as (x & Hx & Hrest).
    exists x. split; [|done].
    destruct Hcase as [[_ ->]|(_ & d & ->)]; [done|by right].
Qed.

Lemma history_rows_Ok (sheet_title : string) (counter : Z)
    (cols : list (nat * string)) (r : list string) (rows : list (list string))
    (recs : list history_record) :
  history_rows sheet_title counter cols (r :: rows) = Ok recs →
  ∃ n recs', r !! 0%nat = Some n
    ∧ history_rows sheet_title counter cols rows = Ok recs'
    ∧ ((n = EmptyString ∧ recs = recs')
       ∨ (n ≠ EmptyString
          ∧ ∃ recs0, history_cols sheet_title n r counter cols = Ok recs0
                     ∧ recs = recs0 ++ recs')).
Proof.
  simpl. intros (n & Hn%index_Ok & H)%bind_Ok.
  destruct (truthy n) eqn:Ht; simpl in H.
  - apply bind_Ok in H as (recs0 & H0 & (recs' & Hrecs' & H)%bind_Ok).
    injection H as <-. exists n, recs'. repeat split; try done.
    right. split; [by apply truthy_true|]. by exists recs0.
  - exists n, recs. repeat split; try done. left. by apply truthy_false in Ht.
Qed.

Lemma history_rows_sound (sheet_title : string) (counter : Z)
    (cols : list (nat * string)) (rows : list (list string))
    (recs : list history_record) (x : history_record) :
  history_rows sheet_title counter cols rows = Ok recs → x ∈ recs →
  Sheet x = sheet_title ∧ Exercise x ≠ EmptyString ∧ Actual_Raw x ≠ EmptyString
  ∧ ∃ r c, r ∈ rows ∧ r !! 0%nat = Some (Exercise x)
           ∧ (c, Day x) ∈ cols ∧ r !! c = Some (Actual_Raw x).
Proof.
  revert recs. induction rows as [|r rows IH]; intros recs.
  { simpl. intros [= <-] ?%elem_of_nil. done. }
  intros (n & recs' & Hn & Hrecs' & Hcase)%history_rows_Ok Hx.
  assert (x ∈ recs' → Sheet x = sheet_title ∧ Exercise x ≠ EmptyString
                      ∧ Actual_Raw x ≠ EmptyString
                      ∧ ∃ r0 c, r0 ∈ r :: rows ∧ r0 !! 0%nat = Some (Exercise x)
                                ∧ (c, Day x) ∈ cols
                                ∧ r0 !! c = Some (Actual_Raw x)) as IH'.
  { intros Hx'. destruct (IH _ Hrecs' Hx') as (? & ? & ? & r0 & c & ? & ?).
    repeat split; try done. exists r0, c. split; [by right|done]. }
  destruct Hcase as [[_ ->]|(Hne & recs0 & H0 & ->)]; [by apply IH'|].
  apply elem_of_app in Hx as [Hx|Hx]; [|by apply IH'].
  destruct (history_cols_sound _ _ _ _ _ _ _ H0 Hx) as (? & -> & ? & c & ? & ?).
  repeat split; try done. exists r, c. split; [left|done].
Qed.

Lemma history_rows_complete (sheet_title : string) (counter : Z)
    (cols : list (nat * string)) (rows : list (list string))
    (recs : list history_record) (r : list string) (c : nat) (n h v : string) :
  history_rows sheet_title counter cols rows = Ok recs →
  r ∈ rows → r !! 0%nat = Some n → n ≠ EmptyString →
  (c, h) ∈ cols → r !! c = Some v → v ≠ EmptyString →
  ∃ x, x ∈ recs ∧ Sheet x = sheet_title ∧ Exercise x = n
       ∧ Day x = h ∧ Actual_Raw x = v.
Proof.
  revert recs. induction rows as [|r0 rows IH]; intros recs.
  { intros _ ?%elem_of_nil. done. }
  intros (n0 & recs' & Hn0 & Hrecs' & Hcase)%history_rows_Ok Hr Hn Hne Hc Hv Hvne.
  apply elem_of_cons in Hr as [->|Hr].
  - destruct Hcase as [[-> _]|(_ & recs0 & H0 & ->)]; [congruence|].
    assert (n0 = n) as -> by congruence.
    destruct (history_cols_complete _ _ _ _ _ _ _ _ _ H0 Hc Hv Hvne) as (x & Hx & ?).
    exists x. split; [|done]. apply elem_of_app. by left.
  - destruct (IH _ Hrecs' Hr Hn Hne Hc Hv Hvne) as (x & Hx & ?).
    exists x. split; [|done].
    destruct Hcase as [[_ ->]|(_ & recs0 & _ & ->)]; [done|].
    apply elem_of_app. by right.
Qed.

End Records.

Section RecordsOfSheets.

Lemma history_sheets_Ok (counter : Z) (title : string) (data : list (list string))
    (rest : sheets) (recs : list history_record) :
  history_sheets counter ((title, data) :: rest) = Ok recs →
  (ignored data = true ∧ history_sheets counter rest = Ok recs)
  ∨ ∃ headers recs0 recs',
      (3 ≤ length data)%nat ∧ data !! 1%nat = Some headers
      ∧ history_rows title counter (workout_cols headers) (drop 2 data) = Ok recs0
      ∧ history_sheets (counter + Z.of_nat (length (workout_cols headers))) rest
        = Ok recs'
      ∧ recs = recs0 ++ recs'.
Proof.
  simpl. unfold ignored.
  destruct (Nat.ltb_spec (length data) 3) as [?|Hlen]; [by left|].
  intros (headers & Hh%index_Ok & H)%bind_Ok. rewrite Hh. simpl.
  destruct (list_truthy (workout_cols headers)); simpl in *; [|by left].
  apply bind_Ok in H as (recs0 & H0 & (recs' & Hrecs' & H)%bind_Ok).
  injection H as <-. right. by exists headers, recs0, recs'.
Qed.

Lemma history_sheets_sound (counter : Z) (all : sheets)
    (recs : list history_record) (x : history_record) :
  history_sheets counter all = Ok recs → x ∈ recs →
  Exercise x ≠ EmptyString ∧ Actual_Raw x ≠ EmptyString
  ∧ ∃ data headers r c,
      (Sheet x, data) ∈ all ∧ (3 ≤ length data)%nat ∧ data !! 1%nat = Some headers
      ∧ r ∈ drop 2 data ∧ r !! 0%nat = Some (Exercise x)
      ∧ (c, Day x) ∈ workout_cols headers ∧ r !! c = Some (Actual_Raw x).
Proof.
  revert counter recs. induction all as [|[title data] all IH]; intros counter recs.
  { simpl. intros [= <-] ?%elem_of_nil. done. }
  intros Hrecs Hx.
  assert (∀ counter' recs', history_sheets counter' all = Ok recs' → x ∈ recs' →
            Exercise x ≠ EmptyString ∧ Actual_Raw x ≠ EmptyString
            ∧ ∃ data0 headers r c,
                (Sheet x, data0) ∈ (title, data) :: all
                ∧ (3 ≤ length data0)%nat ∧ data0 !! 1%nat = Some headers
                ∧ r ∈ drop 2 data0 ∧ r !! 0%nat = Some (Exercise x)
                ∧ (c, Day x) ∈ workout_cols headers
                ∧ r !! c = Some (Actual_Raw x)) as IH'.
  { intros counter' recs' H' Hx'.
    destruct (IH _ _ H' Hx') as (? & ? & data0 & headers & r & c & ? & ?).
    repeat split; try done. exists data0, headers, r, c. split; [by right|done]. }
  apply history_sheets_Ok in Hrecs
    as [[_ H]|(headers & recs0 & recs' & Hlen & Hh & H0 & H' & ->)]; [by eapply IH'|].
  apply elem_of_app in Hx as [Hx|Hx]; [|by eapply IH'].
  destruct (history_rows_sound _ _ _ _ _ _ H0 Hx) as (<- & ? & ? & r & c & ? & ? & ? & ?).
  repeat split; try done. exists data, headers, r, c. split; [left|done].
Qed.

Lemma history_sheets_complete (counter : Z) (all : sheets)
    (recs : list history_record) (title : string) (data : list (list string))
    (headers r : list string) (c : nat) (n h v : string) :
  history_sheets counter all = Ok recs →
  (title, data) ∈ all → (3 ≤ length data)%nat → data !! 1%nat = Some headers →
  r ∈ drop 2 data → r !! 0%nat = Some n → n ≠ EmptyString →
  (c, h) ∈ workout_cols headers → r !! c = Some v → v ≠ EmptyString →
  ∃ x, x ∈ recs ∧ Sheet x = title ∧ Exercise x = n ∧ Day x = h ∧ Actual_Raw x = v.
Proof.
  revert counter recs. induction all as [|[t0 d0] all IH]; intros counter recs.
  { intros _ ?%elem_of_nil. done. }
  intros Hrecs Hin Hlen Hh Hr Hn Hne Hc Hv Hvne.
  apply history_sheets_Ok in Hrecs
    as [[Hig H]|(headers0 & recs0 & recs' & _ & Hh0 & H0 & H' & ->)].
  - apply elem_of_cons in Hin as [[= <- <-]|Hin]; [|by eapply IH].
    exfalso. pose proof (ignored_headers data headers Hig) as Hnil.
    rewrite (proj2 (Nat.ltb_ge _ _) Hlen) in Hnil. specialize (Hnil eq_refl Hh).
    destruct (workout_cols headers); [by apply elem_of_nil in Hc|done].
  - apply elem_of_cons in Hin as [[= <- <-]|Hin].
    + assert (headers0 = headers) as -> by congruence.
      destruct (history_rows_complete _ _ _ _ _ _ _ _ _ _ H0 Hr Hn Hne Hc Hv Hvne)
        as (x & Hx & ?).
      exists x. split; [|done]. apply elem_of_app. by left.
    + destruct (IH _ _ H' Hin Hlen Hh Hr Hn Hne Hc Hv Hvne) as (x & Hx & ?).
      exists x. split; [|done]. apply elem_of_app. by right.
Qed.

End RecordsOfSheets.

(** When the history scan returns, its rows are exactly the filled result
    cells: there is a row for sheet [t], day [h], exercise [n] and raw
    result [v] if and only if [n] and [v] are non-empty and some sheet
    titled [t] with at least 3 rows has, below its header row, a row whose
    first cell is [n] and whose cell under a workout-actual header [h] is
    [v].  Rows with an empty name and empty cells give no row, rows after a
    row without a name do. *)
Theorem history_rows_are_filled_cells (all : sheets) (df : list history_row) :
  load_and_process_history all = Ok df →
  ∀ t h n v : string,
    (∃ x, x ∈ df ∧ Sheet (record x) = t ∧ Day (record x) = h
          ∧ Exercise (record x) = n ∧ Actual_Raw (record x) = v)
    ↔ (n ≠ EmptyString ∧ v ≠ EmptyString
       ∧ ∃ (data : list (list string)) (headers r : list string) (c : nat),
           (t, data) ∈ all ∧ (3 ≤ length data)%nat
           ∧ data !! 1%nat = Some headers
           ∧ r ∈ drop 2 data ∧ r !! 0%nat = Some n
           ∧ (c, h) ∈ workout_cols headers ∧ r !! c = Some v).
Proof.
  intros (_ & recs & Hrecs & Hdf)%load_and_process_history_Ok.
  intros t h n v. split.
  - intros (x & (x0 & Hx0 & ->)%Hdf & <- & <- & <- & <-). simpl.
    destruct (history_sheets_sound _ _ _ _ Hrecs Hx0)
      as (? & ? & data & headers & r & c & ?).
    repeat split; try done. by exists data, headers, r, c.
  - intros (Hne & Hvne & data & headers & r & c & Hin & Hlen & Hh & Hr & Hn & Hc & Hv).
    destruct (history_sheets_complete _ _ _ _ _ _ _ _ _ _ _ Hrecs
                Hin Hlen Hh Hr Hn Hne Hc Hv Hvne) as (x & Hx & ? & ? & ? & ?).
    exists (with_metric x). split; [apply Hdf; by exists x|done].
Qed.

Lemma history_rows_are_filled_cells_witness :
  load_and_process_history [("Week A", week_a); ("Week B", week_b)]
  = Ok week_ab_history
  ∧ ∀ t h n v : string,
      (∃ x, x ∈ week_ab_history ∧ Sheet (record x) = t ∧ Day (record x) = h
            ∧ Exercise (record x) = n ∧ Actual_Raw (record x) = v)
      ↔ (n ≠ EmptyString ∧ v ≠ EmptyString
         ∧ ∃ (data : list (list string)) (headers r : list string) (c : nat),
             (t, data) ∈ [("Week A", week_a); ("Week B", week_b)]
             ∧ (3 ≤ length data)%nat
             ∧ data !! 1%nat = Some headers
             ∧ r ∈ drop 2 data ∧ r !! 0%nat = Some n
             ∧ (c, h) ∈ workout_cols headers ∧ r !! c = Some v).
Proof.
  split; [reflexivity|].
  apply (history_rows_are_filled_cells [("Week A", week_a); ("Week B", week_b)]).
  reflexivity.
Defined.

(** ** Ordinals as the scan assigns them *)

Lemma header_digit_range (h : string) (d : Z) :
  header_digit h = Some d → 0 ≤ d ≤ 9.
Proof.
  unfold header_digit. destruct (String.get 8 h) as [c|]; [|done].
  destruct (isdecimal_char c) eqn:Hc; [|done]. intros [= <-].
  unfold isdecimal_char, between in Hc.
  apply andb_prop in Hc as [H1%N.leb_le H2%N.leb_le]. lia.
Qed.

(** The rows of the returned history come in ascending order of ordinal,
    and the ordinal of a row is the number of workout-actual headers of
    the sheets that stand before its own sheet (those with fewer than 3
    rows not counted) plus the decimal digit at offset 8 of its day
    label, a number from 0 to 9 whatever the label says after it. *)
Theorem history_ordinal_formula (all : sheets) (df : list history_row) :
  load_and_process_history all = Ok df →
  StronglySorted by_ordinal df
  ∧ ∀ x, x ∈ df →
      ∃ (k : nat) (data : list (list string)) (d : Z),
        all !! k = Some (Sheet (record x), data)
        ∧ Day (record x) ∈ workout_headers data
        ∧ header_digit (Day (record x)) = Some d ∧ 0 ≤ d ≤ 9
        ∧ Workout_Order (record x) = columns_before all k + d.
Proof.
  intros (Hsorted & recs & Hrecs & Hdf)%load_and_process_history_Ok.
  split; [done|]. intros x (x0 & Hx0 & ->)%Hdf. simpl.
  destruct (history_sheets_elem _ _ _ _ Hrecs Hx0) as (k & data & d & Hk & Hday & Hd & Hord).
  exists k, data, d. repeat split; try done.
  - by apply (header_digit_range (Day x0)).
  - by apply (header_digit_range (Day x0)).
Qed.

Lemma history_ordinal_formula_witness :
  StronglySorted by_ordinal week_ab_history
  ∧ ∀ x, x ∈ week_ab_history →
      ∃ (k : nat) (data : list (list string)) (d : Z),
        [("Week A", week_a); ("Week B", week_b)] !! k = Some (Sheet (record x), data)
        ∧ Day (record x) ∈ workout_headers data
        ∧ header_digit (Day (record x)) = Some d ∧ 0 ≤ d ≤ 9
        ∧ Workout_Order (record x)
          = columns_before [("Week A", week_a); ("Week B", week_b)] k + d.
Proof.
  apply (history_ordinal_formula [("Week A", week_a); ("Week B", week_b)]).
  reflexivity.
Defined.

(** ** What the history scan can raise *)

Section Raises.

Lemma append_cons (c : ascii) (s1 s2 : string) :
  (String c s1 ++ s2)%string = String c (s1 ++ s2)%string.
Proof. done. Qed.

Lemma prefix_app (s1 s2 : string) :
  String.prefix s1 s2 = true → ∃ post, s2 = (s1 ++ post)%string.
Proof.
  revert s2. induction s1 as [|a s1 IH]; intros s2.
  - intros _. by exists s2.
  - destruct s2 as [|b s2]; simpl; [done|].
    destruct (ascii_dec a b) as [->|]; [|done].
    intros (post & ->)%IH. by exists post.
Qed.

Lemma contains_app (sub s : string) :
  contains sub s = true → ∃ pre post, s = (pre ++ sub ++ post)%string.
Proof.
  induction s as [|c s IH]; cbn [contains].
  - rewrite orb_false_r. intros (post & ->)%prefix_app. by exists EmptyString, post.
  - intros [(post & ->)%prefix_app|(pre & post & ->)%IH]%orb_prop.
    + by exists EmptyString, post.
    + by exists (String c pre), post.
Qed.

Lemma str_length_app (s1 s2 : string) :
  String.length (s1 ++ s2) = (String.length s1 + String.length s2)%nat.
Proof.
  induction s1 as [|c s1 IH]; [done|].
  rewrite append_cons. simpl. by rewrite IH.
Qed.

Lemma get_None_length (n : nat) (s : string) :
  String.get n s = None → (String.length s ≤ n)%nat.
Proof.
  revert n. induction s as [|c s IH]; intros n; simpl; [lia|].
  destruct n as [|n]; [done|]. intros ?%IH. lia.
Qed.

(** A header with "Workout" and "Actual" in it has a character at offset 8:
    the two words cannot overlap. *)
Lemma workout_header_long (h : string) :
  is_workout_actual h = true → ∃ c, String.get 8 h = Some c.
Proof.
  unfold is_workout_actual. intros [Hw Ha]%andb_prop.
  destruct (String.get 8 h) as [c|] eqn:Hget; [by exists c|].
  exfalso. apply get_None_length in Hget.
  apply contains_app in Hw as (pre & post & ->).
  rewrite !str_length_app in Hget. simpl in Hget.
  destruct pre as [|c0 [|c1 pre]], post as [|c2 [|c3 post]]; simpl in Hget; try lia.
  - by vm_compute in Ha.
  - destruct c2 as [[] [] [] [] [] [] [] []]; by vm_compute in Ha.
  - destruct c0 as [[] [] [] [] [] [] [] []]; by vm_compute in Ha.
Qed.

Lemma int_raises (s : string) (e : exn) : int s = Raise e → e = ValueError.
Proof.
  unfold int. destruct (_ && _); [|by intros [= <-]].
  destruct (_ <? _); [by intros [= <-]|done].
Qed.

Lemma history_cols_raises (sheet_title exercise_name : string) (r : list string)
    (counter : Z) (cols : list (nat * string)) (e : exn) :
  Forall (λ ch, (ch.1 < length r)%nat ∧ is_workout_actual ch.2 = true) cols →
  history_cols sheet_title exercise_name r counter cols = Raise e →
  e = ValueError.
Proof.
  induction 1 as [|[c h] cols [Hc Hh] _ IH]; simpl; [done|].
  simpl in Hc, Hh. destruct (index_lt r c Hc) as (cell & -> & _). run.
  destruct (truthy cell); [|done].
  destruct (workout_header_long h Hh) as [ch Hch].
  unfold str_index. rewrite Hch. run.
  destruct (int (String ch EmptyString)) as [d|e'] eqn:Hint; run.
  - destruct (history_cols _ _ _ _ cols); [done|]. run. intros [= <-]. by apply IH.
  - intros [= <-]. by apply int_raises in Hint.
Qed.

Lemma history_rows_raises (sheet_title : string) (counter : Z)
    (cols : list (nat * string)) (rows : list (list string)) (e : exn) :
  Forall (λ r, (0 < length r)%nat
               ∧ Forall (λ ch, (ch.1 < length r)%nat
                               ∧ is_workout_actual ch.2 = true) cols) rows →
  history_rows sheet_title counter cols rows = Raise e →
  e = ValueError.
Proof.
  induction 1 as [|r rows [Hr Hcols] _ IH]; simpl; [done|].
  destruct (index_lt r 0 Hr) as (n & -> & _). run.
  destruct (truthy n); simpl; [|done].
  destruct (history_cols _ _ _ _ _) as [recs|e'] eqn:Hc; run.
  - destruct (history_rows _ _ _ rows); [done|]. run. intros [= <-]. by apply IH.
  - intros [= <-]. by apply (history_cols_raises _ _ _ _ _ _ Hcols Hc).
Qed.

Lemma history_sheets_raises (counter : Z) (all : sheets) (e : exn) :
  Forall (λ td, padded td.2 = true) all →
  history_sheets counter all = Raise e → e = ValueError.
Proof.
  intros H. revert counter.
  induction H as [|[title data] all Hp _ IH]; intros counter; simpl in *; [done|].
  destruct (Nat.ltb_spec (length data) 3) as [?|Hlen]; [apply IH|].
  destruct (index_lt data 1 ltac:(lia)) as (headers & -> & Hh). run.
  destruct (workout_cols headers) as [|ch cols] eqn:Hcols; simpl; [apply IH|].
  destruct (history_rows _ _ _ _) as [recs|e'] eqn:Hrows; run.
  - destruct (history_sheets _ all) eqn:Hrest; [done|]. run. intros [= <-].
    by apply (IH _ Hrest).
  - intros [= <-]. eapply history_rows_raises; [|exact Hrows].
    unfold padded in Hp. rewrite Hh, forallb_forall in Hp.
    apply Forall_forall. intros r Hr%list_elem_of_In%Hp%Nat.leb_le.
    assert (∀ ch', ch' ∈ ch :: cols →
                   (ch'.1 < length r)%nat ∧ is_workout_actual ch'.2 = true) as Hlt.
    { intros ch' Hin. rewrite <- Hcols in Hin.
      apply workout_cols_lt in Hin as (? & _ & ?). split; [lia|done]. }
    split; [|by apply Forall_forall].
    destruct (Hlt ch ltac:(left)). lia.
Qed.

End Raises.

(** On a snapshot set whose exercise rows have a cell under each header,
    the only exception [load_and_process_history] can raise is the
    [ValueError] of [int]: [day_title[8]] never raises [IndexError],
    because a header that contains both "Workout" and "Actual" has at
    least 13 characters. *)
Theorem history_never_IndexError (all : sheets) :
  Forall (λ td, padded td.2 = true) all →
  load_and_process_history all ≠ Raise IndexError.
Proof.
  intros Hp. unfold load_and_process_history.
  destruct (history_sheets 0 all) as [recs|e'] eqn:Hs; run.
  - by destruct (list_truthy recs).
  - intros [= ->]. by apply (history_sheets_raises 0 all) in Hs.
Qed.

Lemma history_never_IndexError_witness :
  load_and_process_history [("Month 1", month1); ("Month 3", month3)] ≠ Raise IndexError.
Proof.
  apply (history_never_IndexError [("Month 1", month1); ("Month 3", month3)]).
  repeat constructor.
Defined.

(** ** Loading the snapshots *)

Example get_workout_data_workbook1 :
  get_workout_data (Ok workbook1) = Some [("Month 0", month0); ("Month 1", month1)]
  ∧ get_workout_data (Raise ValueError) = None.
Proof. done. Qed.

Section Loading.

Lemma dict_set_keys {V : Type} (d : list (string * V)) (k : string) (v : V) :
  (dict_set d k v).*1 = if bool_decide (k ∈ d.*1) then d.*1 else d.*1 ++ [k].
Proof.
  induction d as [|[k' v'] d IH]; [done|].
  cbn [dict_set]. rewrite fmap_cons. cbn [fst].
  destruct (String.eqb_spec k' k) as [->|Hne].
  - rewrite bool_decide_eq_true_2; [done|left].
  - rewrite fmap_cons, IH. cbn [fst]. destruct (bool_decide (k ∈ d.*1)) eqn:Hin.
    + apply bool_decide_eq_true_1 in Hin.
      rewrite bool_decide_eq_true_2; [done|by right].
    + apply bool_decide_eq_false_1 in Hin.
      rewrite bool_decide_eq_false_2; [done|].
      intros [?|?]%elem_of_cons; congruence.
Qed.

Lemma dict_set_NoDup {V : Type} (d : list (string * V)) (k : string) (v : V) :
  NoDup (d.*1) → NoDup ((dict_set d k v).*1).
Proof.
  intros Hnd. rewrite dict_set_keys. case_bool_decide; [done|].
  apply NoDup_app. repeat split; [done| |apply NoDup_singleton].
  intros x Hx ->%list_elem_of_singleton. done.
Qed.

Lemma dict_set_key_elem {V : Type} (d : list (string * V)) (k t : string) (v : V) :
  t ∈ (dict_set d k v).*1 ↔ t = k ∨ t ∈ d.*1.
Proof.
  rewrite dict_set_keys. case_bool_decide.
  - split; [by right|]. by intros [->|?].
  - rewrite elem_of_app, list_elem_of_singleton. tauto.
Qed.

Lemma dict_set_elem {V : Type} (d : list (string * V)) (k t : string) (v w : V) :
  (t, w) ∈ dict_set d k v → (t = k ∧ w = v) ∨ (t, w) ∈ d.
Proof.
  induction d as [|[k' v'] d IH]; simpl.
  - intros [= -> ->]%list_elem_of_singleton. by left.
  - destruct (String.eqb_spec k' k) as [->|Hne].
    + intros [[= -> ->]|?]%elem_of_cons; [by left|right; by right].
    + intros [[= -> ->]|[?|?]%IH]%elem_of_cons; [right; left|by left|right; by right].
Qed.

Lemma dict_set_fresh {V : Type} (d : list (string * V)) (k : string) (v : V) :
  k ∉ d.*1 → dict_set d k v = d ++ [(k, v)].
Proof.
  induction d as [|[k' v'] d IH]; simpl; [done|].
  intros Hk. destruct (String.eqb_spec k' k) as [->|Hne].
  - exfalso. apply Hk. left.
  - rewrite IH; [done|]. intros ?. apply Hk. by right.
Qed.

(** What the loop keeps and what it adds. *)
Lemma get_workout_data_loop_Ok (worksheets : list (string * result (list (list string))))
    (acc all : sheets) :
  get_workout_data_loop worksheets acc = Ok all →
  NoDup (acc.*1) →
  NoDup (all.*1)
  ∧ (∀ t, t ∈ all.*1 ↔ t ∈ acc.*1
                         ∨ (String.prefix "Month" t = true ∧ t ∈ worksheets.*1))
  ∧ (∀ t data, (t, data) ∈ all → (t, data) ∈ acc ∨ (t, Ok data) ∈ worksheets).
Proof.
  revert acc. induction worksheets as [|[title fetch] ws IH]; intros acc; simpl.
  { intros [= <-] Hnd. repeat split; try done.
    - by left.
    - intros [?|[_ ?%elem_of_nil]]; done.
    - by left. }
  destruct (String.prefix "Month" title) eqn:Hm.
  - intros (values & -> & H)%bind_Ok Hnd.
    destruct (IH _ H (dict_set_NoDup _ _ values Hnd)) as (Hnd' & Hkeys & Hvals).
    repeat split; [done| | |].
    + intros [[->|?]%dict_set_key_elem|[? ?]]%Hkeys; [right; split; [done|left]|by left|].
      right. split; [done|by right].
    + intros Ht. apply Hkeys. rewrite dict_set_key_elem.
      destruct Ht as [?|[? [->|?]%elem_of_cons]]; [left; by right|left; by left|].
      by right.
    + intros t data [[[-> ->]|?]%dict_set_elem|?]%Hvals;
        [right; left|by left|right; by right].
  - intros H Hnd. destruct (IH _ H Hnd) as (Hnd' & Hkeys & Hvals).
    repeat split; [done| | |].
    + intros [?|[? ?]]%Hkeys; [by left|]. right. split; [done|by right].
    + intros Ht. apply Hkeys.
      destruct Ht as [?|[Hp [->|?]%elem_of_cons]]; [by left|congruence|by right].
    + intros t data [?|?]%Hvals; [by left|right; by right].
Qed.

Lemma get_workout_data_loop_Raise (worksheets : list (string * result (list (list string))))
    (acc : sheets) :
  (∃ e, get_workout_data_loop worksheets acc = Raise e)
  ↔ ∃ t e, (t, Raise e) ∈ worksheets ∧ String.prefix "Month" t = true.
Proof.
  revert acc. induction worksheets as [|[title fetch] ws IH]; intros acc; simpl.
  { split; [by intros [? ?]|]. by intros (? & ? & ?%elem_of_nil & _). }
  destruct (String.prefix "Month" title) eqn:Hm.
  - destruct fetch as [values|e]; run.
    + rewrite IH. split.
      * intros (t & e & ? & ?). exists t, e. split; [by right|done].
      * intros (t & e & [?|?]%elem_of_cons & ?); simplify_eq; eauto.
    + split; [|by eexists]. intros _. exists title, e. split; [left|done].
  - rewrite IH. split.
    + intros (t & e & ? & ?). exists t, e. split; [by right|done].
    + intros (t & e & [?|?]%elem_of_cons & ?); simplify_eq; [congruence|eauto].
Qed.

(** With distinct titles the loop appends the month sheets in order. *)
Lemma get_workout_data_loop_distinct
    (worksheets : list (string * result (list (list string)))) (acc all : sheets) :
  NoDup (acc.*1 ++ worksheets.*1) →
  get_workout_data_loop worksheets acc = Ok all →
  (λ td, (td.1, Ok td.2)) <$> all
  = ((λ td, (td.1, Ok td.2)) <$> acc)
    ++ List.filter (λ tr, String.prefix "Month" tr.1) worksheets.
Proof.
  revert acc. induction worksheets as [|[title fetch] ws IH]; intros acc Hnd.
  { simpl. intros [= <-]. by rewrite app_nil_r. }
  rewrite fmap_cons in Hnd. cbn [fst] in Hnd.
  assert (title ∉ acc.*1) as Htitle.
  { apply NoDup_app in Hnd as (_ & Hdisj & _). intros Hin. apply (Hdisj _ Hin). left. }
  assert (∀ values : list (list string),
            NoDup ((acc ++ [(title, values)]).*1 ++ ws.*1)) as Hnd1.
  { intros values. rewrite fmap_app, <- app_assoc. done. }
  assert (NoDup (acc.*1 ++ ws.*1)) as Hnd2.
  { apply NoDup_app in Hnd as (Hacc & Hdisj & [_ Hws]%NoDup_cons).
    apply NoDup_app. repeat split; [done| |done].
    intros x Hx Hin. apply (Hdisj _ Hx). by right. }
  cbn [get_workout_data_loop List.filter fst].
  destruct (String.prefix "Month" title) eqn:Hm.
  - intros (values & -> & H)%bind_Ok.
    rewrite (dict_set_fresh _ _ values Htitle) in H.
    rewrite (IH _ (Hnd1 values) H).
    rewrite fmap_app. simpl. by rewrite <- app_assoc.
  - by apply IH.
Qed.

End Loading.

(** What [get_workout_data] hands to the three derivations.  The titles
    of the returned snapshot set are distinct, they are exactly the
    worksheet titles that start with "Month", and every snapshot is the
    grid of a worksheet of that title. *)
Theorem get_workout_data_titles
    (worksheets : list (string * result (list (list string)))) (all : sheets) :
  get_workout_data (Ok worksheets) = Some all →
  NoDup (all.*1)
  ∧ (∀ t, t ∈ all.*1 ↔ String.prefix "Month" t = true ∧ t ∈ worksheets.*1)
  ∧ (∀ t data, (t, data) ∈ all → (t, Ok data) ∈ worksheets).
Proof.
  unfold get_workout_data. run.
  destruct (get_workout_data_loop worksheets []) as [all'|e] eqn:Hloop; [|done].
  intros [= <-].
  destruct (get_workout_data_loop_Ok _ _ _ Hloop) as (Hnd & Hkeys & Hvals);
    [constructor|].
  split; [done|]. split.
  - intros t. rewrite Hkeys. split; [|by right].
    by intros [?%elem_of_nil|?].
  - by intros t data [?%elem_of_nil|?]%Hvals.
Qed.

Lemma get_workout_data_titles_witness :
  NoDup ([("Month 0", month0); ("Month 1", month1)].*1)
  ∧ (∀ t, t ∈ [("Month 0", month0); ("Month 1", month1)].*1
          ↔ String.prefix "Month" t = true ∧ t ∈ workbook1.*1)
  ∧ (∀ t data, (t, data) ∈ [("Month 0", month0); ("Month 1", month1)] →
               (t, Ok data) ∈ workbook1).
Proof.
  apply (get_workout_data_titles workbook1 [("Month 0", month0); ("Month 1", month1)]).
  reflexivity.
Defined.

(** [get_workout_data] gives up, returning no snapshot set at all, exactly
    when the workbook cannot be opened and listed, or reading a worksheet
    whose title starts with "Month" raises.  Worksheets with other titles
    are never read, so they cannot make it fail. *)
Theorem get_workout_data_fails_iff
    (workbook : result (list (string * result (list (list string))))) :
  get_workout_data workbook = None
  ↔ (∃ e, workbook = Raise e)
    ∨ ∃ worksheets t e, workbook = Ok worksheets
        ∧ (t, Raise e) ∈ worksheets ∧ String.prefix "Month" t = true.
Proof.
  destruct workbook as [worksheets|e0]; unfold get_workout_data; run.
  - pose proof (get_workout_data_loop_Raise worksheets []) as Hloop.
    destruct (get_workout_data_loop worksheets []) as [all|e]; simpl.
    + split; [done|]. intros [[? [=]]|(ws & t & e & [= <-] & Hin)].
      destruct (proj2 Hloop) as [? [=]]. by exists t, e.
    + split; [|done]. intros _. right.
      destruct (proj1 Hloop) as (t & e' & ?); [by eexists|].
      by exists worksheets, t, e'.
  - split; [|done]. intros _. left. by eexists.
Qed.

(** When the worksheet titles are distinct, as they are within one
    spreadsheet, the returned snapshot set lists the worksheets whose
    title starts with "Month" in workbook order, each with its grid, and
    nothing else. *)
Theorem get_workout_data_in_order
    (worksheets : list (string * result (list (list string)))) (all : sheets) :
  NoDup (worksheets.*1) →
  get_workout_data (Ok worksheets) = Some all →
  (λ td, (td.1, Ok td.2)) <$> all
  = List.filter (λ tr, String.prefix "Month" tr.1) worksheets.
Proof.
  intros Hnd. unfold get_workout_data. run.
  destruct (get_workout_data_loop worksheets []) as [all'|e] eqn:Hloop; [|done].
  intros [= <-]. by apply (get_workout_data_loop_distinct worksheets [] all').
Qed.

Lemma get_workout_data_in_order_witness :
  (λ td, (td.1, Ok td.2)) <$> [("Month 0", month0); ("Month 1", month1)]
  = List.filter (λ tr, String.prefix "Month" tr.1) workbook1.
Proof.
  apply (get_workout_data_in_order workbook1).
  - apply (bool_decide_eq_true_1 _). reflexivity.
  - reflexivity.
Defined.

(** ** The rest time *)

Example rest_duration_examples :
  rest_duration "60 sec" = Ok 60 ∧ rest_duration "30-60 sec" = Ok 60
  ∧ rest_duration "45 Sec." = Ok 5 ∧ rest_duration "1 min" = Ok 5
  ∧ rest_duration "" = Ok 5 ∧ rest_duration "-90 sec" = Ok 90
  ∧ rest_duration "60-" = Ok 5 ∧ rest_duration " 1_0 - +2_0 SEC " = Ok 20.
Proof. by repeat split. Qed.

(** [int] does not pass over the separator U+001C, though [str.strip]
    does. *)
Example rest_duration_separator :
  int_of_str (String (ascii_of_N 28) "60") = Raise ValueError
  ∧ rest_duration ("30-" ++ String (ascii_of_N 28) "60") = Ok 5
  ∧ rest_duration (String (ascii_of_N 28) "60") = Ok 60
  ∧ rest_duration ("30-" ++ String (ascii_of_N 133) "60") = Ok 60.
Proof. by repeat split. Qed.

Section RestTime.

Lemma lstrip_forallb (p : ascii → bool) (s : string) :
  str_forallb p s = true → str_forallb p (lstrip s) = true.
Proof.
  induction s as [|c s IH]; simpl; [done|].
  intros [Hc Hs]%andb_prop. destruct (isspace_char c); [by apply IH|].
  simpl. by rewrite Hc, Hs.
Qed.

Lemma strip_forallb (p : ascii → bool) (s : string) :
  str_forallb p s = true → str_forallb p (strip s) = true.
Proof.
  intros Hs. unfold strip.
  rewrite str_forallb_rev. apply lstrip_forallb.
  rewrite str_forallb_rev. by apply lstrip_forallb.
Qed.

Lemma int_lstrip_forallb (p : ascii → bool) (s : string) :
  str_forallb p s = true → str_forallb p (int_lstrip s) = true.
Proof.
  induction s as [|c s IH]; simpl; [done|].
  intros [Hc Hs]%andb_prop. destruct (int_space_char c); [by apply IH|].
  simpl. by rewrite Hc, Hs.
Qed.

Lemma int_strip_forallb (p : ascii → bool) (s : string) :
  str_forallb p s = true → str_forallb p (int_strip s) = true.
Proof.
  intros Hs. unfold int_strip.
  rewrite str_forallb_rev. apply int_lstrip_forallb.
  rewrite str_forallb_rev. by apply int_lstrip_forallb.
Qed.

Lemma int_lstrip_decimal (s : string) :
  str_forallb isdecimal_char s = true → int_lstrip s = s.
Proof.
  destruct s as [|c s]; simpl; [done|]. intros [Hc _]%andb_prop.
  assert (int_space_char c = false) as ->; [|done].
  revert Hc. destruct c as [[] [] [] [] [] [] [] []]; by vm_compute.
Qed.

Lemma int_strip_decimal (s : string) :
  str_forallb isdecimal_char s = true → int_strip s = s.
Proof.
  intros Hs. unfold int_strip. rewrite (int_lstrip_decimal s Hs).
  rewrite int_lstrip_decimal by (by rewrite str_forallb_rev).
  apply str_rev_involutive.
Qed.

Lemma contains_char_false (c : ascii) (s : string) :
  contains (String c EmptyString) s = false →
  str_forallb (λ x, negb (Ascii.eqb x c)) s = true.
Proof.
  induction s as [|x s IH]; [done|].
  cbn [contains String.prefix str_forallb].
  intros [Hp Hs]%orb_false_elim. rewrite (IH Hs), andb_true_r.
  destruct (ascii_dec c x) as [->|Hne].
  - by destruct s.
  - destruct (Ascii.eqb_spec x c); [congruence|done].
Qed.

Lemma split_on_second (sep : ascii) (s : string) :
  contains (String sep EmptyString) s = true →
  ∃ x, split_on sep s !! 1%nat = Some x.
Proof.
  induction s as [|c s IH]; [done|].
  cbn [contains String.prefix split_on].
  destruct (Ascii.eqb_spec c sep) as [->|Hne].
  - intros _. destruct s; simpl; [by eexists|].
    destruct (Ascii.eqb _ sep); [by eexists|]. destruct (split_on sep s); by eexists.
  - destruct (ascii_dec sep c) as [->|_]; [done|]. simpl.
    intros [x Hx]%IH. destruct (split_on sep s) as [|t ts]; [done|]. by exists x.
Qed.

Lemma split_on_no_sep (sep : ascii) (s : string) :
  Forall (λ t, str_forallb (λ x, negb (Ascii.eqb x sep)) t = true) (split_on sep s).
Proof.
  induction s as [|c s IH]; simpl; [by repeat constructor|].
  destruct (Ascii.eqb c sep) eqn:Hc; [by constructor|].
  destruct (split_on sep s) as [|t ts]; simpl.
  - repeat constructor. simpl. by rewrite Hc.
  - apply Forall_cons in IH as [Ht Hts]. constructor; [|done].
    simpl. by rewrite Hc, Ht.
Qed.

Lemma literal_value_nonneg (s : string) (acc : Z) (prev : bool) (v : Z) :
  0 ≤ acc → literal_value s acc prev = Some v → 0 ≤ v.
Proof.
  revert acc prev. induction s as [|c s IH]; intros acc prev Hacc; simpl.
  - destruct prev; [|done]. by intros [= <-].
  - destruct (isdecimal_char c) eqn:Hc.
    + apply IH. unfold isdecimal_char, between in Hc.
      apply andb_prop in Hc as [H1%N.leb_le _]. lia.
    + destruct (Ascii.eqb c "_"); [|done]. destruct prev; [|done]. by apply IH.
Qed.

Lemma int_of_str_raises (s : string) (e : exn) :
  int_of_str s = Raise e → e = ValueError.
Proof.
  unfold int_of_str. destruct (int_strip s) as [|c b].
  - destruct (literal_value _ _ _); [|by intros [= <-]].
    destruct (_ <? _); [by intros [= <-]|done].
  - destruct (Ascii.eqb c "+"); [|destruct (Ascii.eqb c "-")];
      (destruct (literal_value _ _ _); [|by intros [= <-]];
       destruct (_ <? _); [by intros [= <-]|done]).
Qed.

(** Without a minus sign in the string, [int] gives no negative number. *)
Lemma int_of_str_nonneg (s : string) (v : Z) :
  str_forallb (λ x, negb (Ascii.eqb x "-")) s = true →
  int_of_str s = Ok v → 0 ≤ v.
Proof.
  intros Hs%int_strip_forallb. unfold int_of_str.
  destruct (int_strip s) as [|c b].
  - destruct (literal_value _ _ _) as [w|] eqn:Hw; [|done].
    destruct (_ <? _); [done|].
    intros [= <-]. apply literal_value_nonneg in Hw; lia.
  - simpl in Hs. apply andb_prop in Hs as [Hc%negb_true_iff _]. rewrite Hc.
    destruct (Ascii.eqb c "+");
      (destruct (literal_value _ _ _) as [w|] eqn:Hw; [|done];
       destruct (_ <? _); [done|];
       intros [= <-]; apply literal_value_nonneg in Hw; lia).
Qed.

End RestTime.

(** Whatever the rest text of an exercise, the rest-time computation of
    [render_workout_view] raises nothing and gives a duration that is not
    negative: a minus sign is always read as the dash of a range, never as
    a sign, and [split('-')[1]] is only evaluated when a dash is there. *)
Theorem rest_duration_never_negative (rest_text : string) :
  ∃ d, rest_duration rest_text = Ok d ∧ 0 ≤ d.
Proof.
  unfold rest_duration.
  set (s := strip (replace "sec" "" (lower rest_text))).
  destruct (contains "-" s) eqn:Hdash.
  - destruct (split_on_second "-" s Hdash) as [second Hsecond].
    pose proof (split_on_no_sep "-" s) as Hno. rewrite Forall_forall in Hno.
    specialize (Hno _ (list_elem_of_lookup_2 _ _ _ Hsecond)).
    apply index_Ok in Hsecond. rewrite Hsecond. run.
    destruct (int_of_str second) as [v|e] eqn:Hint.
    + exists v. split; [done|]. by apply (int_of_str_nonneg second).
    + apply int_of_str_raises in Hint as ->. by exists 5.
  - apply contains_char_false in Hdash.
    destruct (int_of_str s) as [v|e] eqn:Hint.
    + exists v. split; [done|]. by apply (int_of_str_nonneg s).
    + apply int_of_str_raises in Hint as ->. by exists 5.
Qed.

Section RestTimeDigits.

Lemma str_forallb_app (p : ascii → bool) (s1 s2 : string) :
  str_forallb p (s1 ++ s2) = str_forallb p s1 && str_forallb p s2.
Proof.
  induction s1 as [|c s1 IH]; [done|].
  rewrite append_cons. simpl. by rewrite IH, andb_assoc.
Qed.

Lemma lower_char_digit (c : ascii) :
  isdecimal_char (lower_char c) = isdecimal_char c.
Proof. destruct c as [[] [] [] [] [] [] [] []]; by vm_compute. Qed.

Lemma lower_no_digit (s : string) :
  str_forallb (λ c, negb (isdecimal_char c)) s = true →
  str_forallb (λ c, negb (isdecimal_char c)) (lower s) = true.
Proof.
  induction s as [|c s IH]; simpl; [done|].
  intros [Hc Hs]%andb_prop. by rewrite lower_char_digit, Hc, IH.
Qed.

Lemma replace_loop_forallb (p : ascii → bool) (old new s : string) (skip : nat) :
  str_forallb p new = true → str_forallb p s = true →
  str_forallb p (replace_loop old new s skip) = true.
Proof.
  intros Hnew. revert skip. induction s as [|c s IH]; intros skip; [done|].
  cbn [replace_loop str_forallb]. intros [Hc Hs]%andb_prop.
  destruct skip as [|k]; [|by apply IH].
  destruct (String.prefix old (String c s)).
  - by rewrite str_forallb_app, Hnew, IH.
  - simpl. by rewrite Hc, IH.
Qed.

Lemma split_on_forallb (p : ascii → bool) (sep : ascii) (s : string) :
  str_forallb p s = true →
  Forall (λ t, str_forallb p t = true) (split_on sep s).
Proof.
  induction s as [|c s IH]; simpl; [by repeat constructor|].
  intros [Hc Hs]%andb_prop. specialize (IH Hs).
  destruct (Ascii.eqb c sep); [by constructor|].
  destruct (split_on sep s) as [|t ts]; simpl.
  - repeat constructor. simpl. by rewrite Hc.
  - apply Forall_cons in IH as [Ht Hts]. constructor; [|done].
    simpl. by rewrite Hc, Ht.
Qed.

Lemma literal_value_no_digit (s : string) (acc : Z) :
  str_forallb (λ c, negb (isdecimal_char c)) s = true →
  literal_value s acc false = None.
Proof.
  destruct s as [|c s]; simpl; [done|].
  intros [Hc%negb_true_iff _]%andb_prop. rewrite Hc. by destruct (Ascii.eqb c "_").
Qed.

(** [int] needs a digit. *)
Lemma int_of_str_no_digit (s : string) :
  str_forallb (λ c, negb (isdecimal_char c)) s = true →
  int_of_str s = Raise ValueError.
Proof.
  intros Hs%int_strip_forallb. unfold int_of_str.
  destruct (int_strip s) as [|c b].
  - done.
  - pose proof Hs as Hcb. simpl in Hs. apply andb_prop in Hs as [_ Hb].
    destruct (Ascii.eqb c "+"); [|destruct (Ascii.eqb c "-")];
      by rewrite literal_value_no_digit.
Qed.

End RestTimeDigits.

(** A rest text without a decimal digit, the empty text included, gives
    the fallback of [except ValueError]: a rest of 5 seconds. *)
Theorem rest_duration_fallback (rest_text : string) :
  str_forallb (λ c, negb (isdecimal_char c)) rest_text = true →
  rest_duration rest_text = Ok 5.
Proof.
  intros Hs. unfold rest_duration.
  assert (str_forallb (λ c, negb (isdecimal_char c))
            (strip (replace "sec" "" (lower rest_text))) = true) as Hno.
  { apply strip_forallb, replace_loop_forallb; [done|]. by apply lower_no_digit. }
  destruct (contains "-" _) eqn:Hdash.
  - destruct (split_on_second "-" _ Hdash) as [second Hsecond].
    pose proof (split_on_forallb _ "-" _ Hno) as Hall. rewrite Forall_forall in Hall.
    specialize (Hall _ (list_elem_of_lookup_2 _ _ _ Hsecond)).
    apply index_Ok in Hsecond. rewrite Hsecond. run.
    by rewrite (int_of_str_no_digit second Hall).
  - by rewrite (int_of_str_no_digit _ Hno).
Qed.

Lemma rest_duration_fallback_witness : rest_duration "until ready" = Ok 5.
Proof. apply (rest_duration_fallback "until ready"). reflexivity. Defined.

Section RestTimeRange.

Lemma isdecimal_char_facts (c : ascii) :
  isdecimal_char c = true →
  isspace_char c = false ∧ lower_char c = c ∧ isdigit_char c = true
  ∧ Ascii.eqb c "-" = false ∧ Ascii.eqb c "+" = false ∧ c ≠ "s"%char.
Proof.
  destruct c as [[] [] [] [] [] [] [] []]; vm_compute; intros; by repeat split.
Qed.

Lemma lower_app (s1 s2 : string) : lower (s1 ++ s2) = (lower s1 ++ lower s2)%string.
Proof.
  induction s1 as [|c s1 IH]; [done|].
  rewrite append_cons. simpl. by rewrite IH.
Qed.

Lemma lower_decimal (a : string) :
  str_forallb isdecimal_char a = true → lower a = a.
Proof.
  induction a as [|c a IH]; simpl; [done|].
  intros [Hc Ha]%andb_prop.
  destruct (isdecimal_char_facts c Hc) as (_ & -> & _). by rewrite IH.
Qed.

Lemma replace_sec_decimal (a t : string) :
  str_forallb isdecimal_char a = true →
  replace_loop "sec" "" (a ++ t) 0 = (a ++ replace_loop "sec" "" t 0)%string.
Proof.
  induction a as [|c a IH]; [done|].
  intros [Hc Ha]%andb_prop. rewrite !append_cons.
  cbn [replace_loop String.prefix].
  destruct (isdecimal_char_facts c Hc) as (_ & _ & _ & _ & _ & Hs).
  destruct (ascii_dec "s" c) as [<-|_]; [done|]. by rewrite IH.
Qed.

Lemma decimal_no_space (a : string) :
  str_forallb isdecimal_char a = true →
  str_forallb (λ c, negb (isspace_char c)) a = true.
Proof.
  apply str_forallb_impl. intros c Hc.
  by destruct (isdecimal_char_facts c Hc) as (-> & _).
Qed.

Lemma list_ascii_app (s1 s2 : string) :
  list_ascii_of_string (s1 ++ s2)
  = (list_ascii_of_string s1 ++ list_ascii_of_string s2)%list.
Proof.
  induction s1 as [|c s1 IH]; [done|].
  rewrite append_cons. simpl. by rewrite IH.
Qed.

(** One blank at the end of a text without blanks is what [strip] removes. *)
Lemma strip_trailing_blank (x : string) :
  str_forallb (λ c, negb (isspace_char c)) x = true →
  strip (x ++ " ") = x.
Proof.
  intros Hx. destruct x as [|c x]; [done|]. unfold strip.
  assert (lstrip (String c x ++ " ") = (String c x ++ " ")%string) as ->.
  { rewrite append_cons. simpl in *. apply andb_prop in Hx as [Hc _].
    by destruct (isspace_char c). }
  unfold str_rev at 2.
  rewrite list_ascii_app, rev_app_distr.
  change (rev (list_ascii_of_string " ")) with [" "%char].
  cbn [app string_of_list_ascii lstrip].
  change (isspace_char " ") with true. cbn iota.
  change (string_of_list_ascii (rev (list_ascii_of_string (String c x))))
    with (str_rev (String c x)).
  rewrite lstrip_no_space by (by rewrite str_forallb_rev).
  apply str_rev_involutive.
Qed.

Lemma contains_app_r (sub pre s : string) :
  contains sub s = true → contains sub (pre ++ s) = true.
Proof.
  intros Hs. induction pre as [|c pre IH]; [done|].
  rewrite append_cons. cbn [contains]. rewrite IH. apply orb_true_r.
Qed.

Lemma split_on_decimal (a t : string) :
  str_forallb isdecimal_char a = true →
  split_on "-" (a ++ String "-" t) = a :: split_on "-" t.
Proof.
  induction a as [|c a IH]; [done|].
  intros [Hc Ha]%andb_prop. rewrite append_cons. cbn [split_on].
  destruct (isdecimal_char_facts c Hc) as (_ & _ & _ & -> & _).
  by rewrite (IH Ha).
Qed.

Lemma split_on_decimal_last (b : string) :
  str_forallb isdecimal_char b = true → split_on "-" b = [b].
Proof.
  induction b as [|c b IH]; [done|].
  intros [Hc Hb]%andb_prop. cbn [split_on].
  destruct (isdecimal_char_facts c Hc) as (_ & _ & _ & -> & _).
  by rewrite (IH Hb).
Qed.

Lemma literal_value_decimal (s : string) (acc : Z) (prev : bool) :
  str_forallb isdecimal_char s = true →
  literal_value s acc prev
  = if truthy s || prev then Some (decimal_value s acc) else None.
Proof.
  revert acc prev. induction s as [|c s IH]; intros acc prev; simpl.
  - by destruct prev.
  - intros [-> Hs]%andb_prop. rewrite (IH _ _ Hs). by rewrite orb_true_r.
Qed.

Lemma count_digits_length (s : string) :
  count_digits s ≤ Z.of_nat (String.length s).
Proof. induction s as [|c s IH]; simpl; [done|]. destruct (isdecimal_char c); lia. Qed.

(** [int] of a string of decimal digits, not too many, is its value. *)
Lemma int_of_str_decimal (b : string) :
  decimal b = true → Z.of_nat (String.length b) ≤ int_max_str_digits →
  int_of_str b = Ok (decimal_value b 0).
Proof.
  unfold decimal. intros [Hne Hb]%andb_prop Hlen. unfold int_of_str.
  rewrite (int_strip_decimal b Hb).
  pose proof (count_digits_length b) as Hcount.
  destruct b as [|c b]; [done|].
  pose proof Hb as Hcb. simpl in Hb. apply andb_prop in Hb as [Hc _].
  destruct (isdecimal_char_facts c Hc) as (_ & _ & _ & -> & -> & _).
  rewrite (literal_value_decimal _ _ _ Hcb).
  cbn [truthy orb].
  destruct (Z.ltb_spec int_max_str_digits (count_digits (String c b))); [lia|].
  by destruct (decimal_value _ _).
Qed.

End RestTimeRange.

Section RestTimeTexts.

Lemma str_app_assoc (s1 s2 s3 : string) :
  ((s1 ++ s2) ++ s3 = s1 ++ (s2 ++ s3))%string.
Proof.
  induction s1 as [|c s1 IH]; [done|]. rewrite !append_cons. by rewrite IH.
Qed.

Lemma contains_dash_decimal (a : string) :
  str_forallb isdecimal_char a = true → contains "-" a = false.
Proof.
  induction a as [|c a IH]; [done|].
  intros [Hc Ha]%andb_prop. cbn [contains String.prefix]. rewrite (IH Ha).
  destruct (isdecimal_char_facts c Hc) as (_ & _ & _ & Hd & _).
  destruct (ascii_dec "-" c) as [<-|_]; [done|]. done.
Qed.

Lemma filter_join_decimal (a : string) :
  str_forallb isdecimal_char a = true → filter_join isdigit_char a = a.
Proof.
  induction a as [|c a IH]; simpl; [done|].
  intros [Hc Ha]%andb_prop.
  destruct (isdecimal_char_facts c Hc) as (_ & _ & -> & _). by rewrite IH.
Qed.

Lemma rest_text_single (a : string) :
  str_forallb isdecimal_char a = true →
  strip (replace "sec" "" (lower (a ++ " sec"))) = a.
Proof.
  intros Ha. rewrite lower_app, (lower_decimal a Ha).
  unfold replace. rewrite (replace_sec_decimal a _ Ha).
  change (replace_loop "sec" "" (lower " sec") 0) with " ".
  apply strip_trailing_blank. by apply decimal_no_space.
Qed.

Lemma rest_text_range (a b : string) :
  str_forallb isdecimal_char a = true → str_forallb isdecimal_char b = true →
  strip (replace "sec" "" (lower (a ++ "-" ++ b ++ " sec")))
  = (a ++ String "-" b)%string.
Proof.
  intros Ha Hb. change ("-" ++ b ++ " sec")%string with (String "-" (b ++ " sec")).
  rewrite lower_app, (lower_decimal a Ha).
  cbn [lower]. change (lower_char "-") with "-"%char.
  rewrite lower_app, (lower_decimal b Hb).
  unfold replace. rewrite (replace_sec_decimal a _ Ha).
  cbn [replace_loop String.prefix].
  destruct (ascii_dec "s" "-") as [?|_]; [done|].
  rewrite (replace_sec_decimal b _ Hb).
  change (replace_loop "sec" "" (lower " sec") 0) with " ".
  rewrite <- append_cons, <- str_app_assoc.
  apply strip_trailing_blank.
  rewrite str_forallb_app. simpl.
  by rewrite (decimal_no_space a Ha), (decimal_no_space b Hb).
Qed.

End RestTimeTexts.

(** For strings [a] and [b] of decimal digits, at most 4300 of them (the
    limit [int] puts on a literal): the rest text "a sec" gives a rest of
    [a] seconds, and the range "a-b sec" gives a rest of [b] seconds, the
    upper figure, whereas [parse_actual] reads the same text, as a result,
    as [a], the lower figure. *)
Theorem rest_duration_range (a b : string) :
  decimal a = true → decimal b = true →
  Z.of_nat (String.length a) ≤ int_max_str_digits →
  Z.of_nat (String.length b) ≤ int_max_str_digits →
  rest_duration (a ++ " sec") = Ok (decimal_value a 0)
  ∧ rest_duration (a ++ "-" ++ b ++ " sec") = Ok (decimal_value b 0)
  ∧ parse_actual (a ++ "-" ++ b ++ " sec") = Some (decimal_value a 0).
Proof.
  intros Hda Hdb Hla Hlb. pose proof Hda as Hda'. pose proof Hdb as Hdb'.
  unfold decimal in Hda', Hdb'.
  apply andb_prop in Hda' as [Hna Ha]. apply andb_prop in Hdb' as [Hnb Hb].
  repeat split.
  - unfold rest_duration. rewrite (rest_text_single a Ha).
    by rewrite (contains_dash_decimal a Ha), (int_of_str_decimal a Hda Hla).
  - unfold rest_duration. rewrite (rest_text_range a b Ha Hb).
    rewrite (contains_app_r "-" a (String "-" b)) by (by destruct b).
    rewrite (split_on_decimal a b Ha), (split_on_decimal_last b Hb).
    cbn [index lookup list_lookup]. run.
    by rewrite (int_of_str_decimal b Hdb Hlb).
  - unfold parse_actual, parse_actual_body.
    change ("-" ++ b ++ " sec")%string with (String "-" (b ++ " sec")).
    rewrite lower_app. rewrite contains_app_r.
    2: { cbn [lower contains]. rewrite lower_app.
         rewrite (contains_app_r "sec" (lower b) (lower " sec")) by done.
         apply orb_true_r. }
    rewrite (split_on_decimal a _ Ha). cbn [index lookup list_lookup]. run.
    rewrite (filter_join_decimal a Ha). unfold int.
    fold (decimal a). rewrite Hda.
    by destruct (Z.ltb_spec int_max_str_digits (Z.of_nat (String.length a))); [lia|].
Qed.

Lemma rest_duration_range_witness :
  rest_duration ("45" ++ " sec") = Ok 45
  ∧ rest_duration ("45" ++ "-" ++ "60" ++ " sec") = Ok 60
  ∧ parse_actual ("45" ++ "-" ++ "60" ++ " sec") = Some 45.
Proof.
  apply (rest_duration_range "45" "60");
    [reflexivity | reflexivity | by vm_compute | by vm_compute].
Defined.

(** ** The session *)

(** Runs a piece of the script on the world it is applied to. *)
Ltac script :=
  unfold mbind, script_bind, mret, script_ret, attr, get, has_key, assign, lift,
    overflow, update_google_sheet,
    st.set_client,
    st.set_workbook,
    st.set_sheet_title,
    st.set_exercises_today,
    st.set_day_title,
    st.set_current_exercise_index,
    st.set_current_view,
    st.set_app_ready,
    st.set_rest_duration,
    st.set_rest_start_time,
    st.set_sound_played,
    st.set_timer_finished,
    st.set_play_sound;
  cbn [session calls fst snd negb
       st.client
       st.workbook
       st.sheet_title
       st.exercises_today
       st.day_title
       st.current_exercise_index
       st.current_view
       st.app_ready
       st.rest_duration
       st.rest_start_time
       st.sound_played
       st.timer_finished
       st.play_sound].

Section SessionSteps.

Lemma rest_duration_returns (rest_text : string) :
  ∃ d, rest_duration rest_text = Ok d.
Proof.
  unfold rest_duration. set (s := strip _).
  destruct (contains "-" s) eqn:Hdash.
  - destruct (split_on_second "-" s Hdash) as [second Hsecond].
    apply index_Ok in Hsecond. rewrite Hsecond. run.
    destruct (int_of_str second) as [v|e] eqn:Hint; [by eexists|].
    apply int_of_str_raises in Hint as ->. by eexists.
  - destruct (int_of_str s) as [v|e] eqn:Hint; [by eexists|].
    apply int_of_str_raises in Hint as ->. by eexists.
Qed.

Lemma uninterrupted_snoc (runs : list inputs) (i : inputs) :
  uninterrupted (runs ++ [i]) ↔ uninterrupted runs ∧ restart_button i = false.
Proof.
  unfold uninterrupted. rewrite Forall_app, Forall_singleton. done.
Qed.

Lemma writes_snoc (title : string) (todo : list exercise) (values : list string)
    (idx : nat) (ex : exercise) (v : string) :
  todo !! idx = Some ex → length values = idx →
  writes title (take (S idx) todo) (values ++ [v])
  = writes title (take idx todo) values
    ++ [{| worksheet := title; cell_row := gspread_row ex;
           cell_col := gspread_col ex; cell_value := v |}].
Proof.
  intros Hex Hlen. unfold writes.
  rewrite (take_S_r _ _ _ Hex).
  rewrite zip_with_app; [done|].
  rewrite length_take. apply lookup_lt_Some in Hex. lia.
Qed.

Lemma session_inv_snoc (runs : list inputs) (i : inputs) (w : world) :
  session_inv runs w → session_inv (runs ++ [i]) w.
Proof.
  unfold session_inv. destruct (st.app_ready (session w)) as [[]|].
  - intros (i0 & all_data & sheet_title & todo & day_title & idx & view
            & values & earlier & Hi0 & Hrest).
    exists i0, all_data, sheet_title, todo, day_title, idx, view, values, earlier.
    split; [apply elem_of_app; by left|].
    destruct Hrest as (? & ? & ? & ? & ? & ? & ? & ? & ? & ? & ? & ? & Hearlier).
    repeat split; try done. intros [? _]%uninterrupted_snoc. by apply Hearlier.
  - intros (? & ? & Hcalls). repeat split; try done.
    intros [? _]%uninterrupted_snoc. by apply Hcalls.
  - intros (? & ? & Hcalls). repeat split; try done.
    intros [? _]%uninterrupted_snoc. by apply Hcalls.
Qed.

Lemma saved_rest (s : st.session_state) (idx : nat) :
  st.current_exercise_index s = Some idx → st.current_view s = Some "rest" →
  saved s = S idx.
Proof. unfold saved. by intros -> ->. Qed.

Lemma saved_other (s : st.session_state) (idx : nat) (view : string) :
  st.current_exercise_index s = Some idx → st.current_view s = Some view →
  view ≠ "rest" → saved s = idx.
Proof.
  unfold saved. intros -> -> Hne.
  rewrite bool_decide_eq_false_2; [done|]. by intros [= ->].
Qed.

Lemma workout_view_inv (runs : list inputs) (i : inputs) (w : world) (title : string) :
  session_inv runs w →
  st.app_ready (session w) = Some true →
  st.sheet_title (session w) = Some (Some title) →
  st.current_view (session w) = Some "workout" →
  (render_workout_view i w).1 = Done tt
  ∧ session_inv runs (render_workout_view i w).2.
Proof.
  destruct w as [s cs]. intros Hinv0 Hready Hsheet Hview.
  pose proof Hinv0 as Hinv.
  unfold session_inv in Hinv. cbn [session calls] in Hinv, Hready, Hview, Hsheet.
  rewrite Hready in Hinv.
  destruct Hinv as (i0 & all_data & sheet_title & todo & day_title & idx & view
                    & values & earlier & Hi0 & Hget & Hnext & Hwb & Htitle & Htodo
                    & Hday & Hidx & Hview' & Hcase & Hlen & Hvalues & Hcalls & Hearlier).
  unfold saved in *. rewrite Hidx, Hview in *. injection Hview' as <-.
  rewrite bool_decide_eq_false_2 in * by done.
  destruct Hcase as [[_ Hle]|[[? _]|[? _]]]; [|done|done].
  destruct s as [client workbook sheet_title' exercises_today day_title' idx' view'
                 app_ready rest_duration' rest_start_time sound_played
                 timer_finished play_sound].
  cbn in Hwb, Htitle, Htodo, Hday, Hidx, Hview, Hready, Hsheet. simplify_eq.
  unfold render_workout_view. script.
  destruct (Nat.leb_spec (length todo) (length values)) as [Hge|Hlt]; script.
  { split; [done|]. unfold session_inv. script.
    exists i0, all_data, (Some title), todo, day_title, (length values), "done",
      values, earlier.
    rewrite (saved_other _ (length values) "done") by done.
    repeat split; try done. right. right. split; [done|lia]. }
  destruct (lookup_lt_is_Some_2 todo (length values) Hlt) as [ex Hex].
  rewrite (proj2 (index_Ok _ _ _) Hex). script.
  destruct (submitted i); script; [|done].
  destruct (truthy (actual_result i)) eqn:Hres; script; [|done].
  destruct (rest_duration_returns (rest ex)) as [d Hd]. rewrite Hd. script.
  split; [done|]. unfold session_inv. script.
  exists i0, all_data, (Some title), todo, day_title, (length values), "rest",
    (values ++ [actual_result i]), earlier.
  rewrite (saved_rest _ (length values)) by done.
  repeat split; try done.
  - right. left. repeat split; [done|by eexists|by eexists].
  - rewrite length_app. simpl. lia.
  - apply Forall_app. split; [done|]. constructor; [|done].
    intros Hv. by rewrite Hv in Hres.
  - rewrite <- app_assoc. f_equal. by rewrite (writes_snoc _ _ _ _ ex).
Qed.

Lemma rest_view_inv (runs : list inputs) (i : inputs) (w : world) (title : string) :
  session_inv runs w →
  st.app_ready (session w) = Some true →
  st.sheet_title (session w) = Some (Some title) →
  st.current_view (session w) = Some "rest" →
  ((render_rest_view i w).1 = Done tt
   ∨ (render_rest_view i w).1 = Failed OverflowError
     ∧ (render_rest_view i w).2 = w
     ∧ ∃ d t, st.rest_duration (session w) = Some d
              ∧ st.rest_start_time (session w) = Some t
              ∧ remaining_time d t (time i) = None)
  ∧ session_inv runs (render_rest_view i w).2.
Proof.
  destruct w as [s cs]. intros Hinv0 Hready Hsheet Hview.
  pose proof Hinv0 as Hinv.
  unfold session_inv in Hinv. cbn [session calls] in Hinv, Hready, Hview, Hsheet.
  rewrite Hready in Hinv.
  destruct Hinv as (i0 & all_data & sheet_title & todo & day_title & idx & view
                    & values & earlier & Hi0 & Hget & Hnext & Hwb & Htitle & Htodo
                    & Hday & Hidx & Hview' & Hcase & Hlen & Hvalues & Hcalls & Hearlier).
  rewrite (saved_rest _ idx) in * by done.
  rewrite Hview in Hview'. injection Hview' as <-.
  destruct Hcase as [[? _]|[(_ & Hlt & [d Hd] & [t Ht])|[? _]]]; [done| |done].
  destruct s as [client workbook sheet_title' exercises_today day_title' idx' view'
                 app_ready rest_duration' rest_start_time sound_played
                 timer_finished play_sound].
  cbn in Hwb, Htitle, Htodo, Hday, Hidx, Hview, Hready, Hsheet, Hd, Ht. simplify_eq.
  unfold render_rest_view. script.
  destruct (remaining_time d t (time i)) as [remaining|] eqn:Hremaining; script.
  2: { split; [|done]. right. repeat split. by exists d, t. }
  destruct (0 <? remaining); script.
  { destruct (Nat.ltb_spec (idx + 1) (length todo)) as [Hlt'|Hge]; script;
      [|split; [by left|done]].
    destruct (lookup_lt_is_Some_2 todo (idx + 1) Hlt') as [ex Hex].
    rewrite (proj2 (index_Ok _ _ _) Hex). script. split; [by left|done]. }
  assert (∀ tf ps : option bool,
    session_inv runs
      {| session :=
           {| st.client := client; st.workbook := Some (Some ());
              st.sheet_title := Some (Some title); st.exercises_today := Some todo;
              st.day_title := Some day_title;
              st.current_exercise_index := Some idx;
              st.current_view := Some "rest"; st.app_ready := Some true;
              st.rest_duration := Some d; st.rest_start_time := Some t;
              st.sound_played := sound_played; st.timer_finished := tf;
              st.play_sound := ps |};
         calls := earlier ++ writes (default "" (Some title))
                             (take (S idx) todo) values |}) as Hsame.
  { intros tf ps. unfold session_inv. script.
    exists i0, all_data, (Some title), todo, day_title, idx, "rest", values, earlier.
    rewrite (saved_rest _ idx) by done.
    repeat split; try done. right. left. repeat split; [done|by eexists|by eexists]. }
  assert (∀ tf ps : option bool,
    session_inv runs
      {| session :=
           {| st.client := client; st.workbook := Some (Some ());
              st.sheet_title := Some (Some title); st.exercises_today := Some todo;
              st.day_title := Some day_title;
              st.current_exercise_index := Some (idx + 1)%nat;
              st.current_view := Some "workout"; st.app_ready := Some true;
              st.rest_duration := Some d; st.rest_start_time := Some t;
              st.sound_played := sound_played; st.timer_finished := tf;
              st.play_sound := ps |};
         calls := earlier ++ writes (default "" (Some title))
                             (take (S idx) todo) values |}) as Hnext'.
  { intros tf ps. unfold session_inv. script.
    exists i0, all_data, (Some title), todo, day_title, (idx + 1)%nat, "workout",
      values, earlier.
    rewrite (saved_other _ (idx + 1) "workout") by done.
    replace (idx + 1)%nat with (S idx) by lia.
    repeat split; try done. left. split; [done|lia]. }
  destruct timer_finished as [[]|]; script;
    destruct (next_button i); script; (split; [by left|]);
    first [apply Hsame | apply Hnext'].
Qed.

Lemma done_view_inv (runs : list inputs) (i : inputs) (w : world) :
  session_inv runs w → i ∈ runs →
  st.app_ready (session w) = Some true →
  (render_done_view i w).1 = Done tt
  ∧ session_inv runs (render_done_view i w).2.
Proof.
  destruct w as [s cs]. intros Hinv0 Hi Hready.
  pose proof Hinv0 as Hinv.
  unfold session_inv in Hinv. cbn [session calls] in Hinv, Hready.
  rewrite Hready in Hinv.
  destruct Hinv as (i0 & all_data & sheet_title & todo & day_title & idx & view
                    & values & earlier & Hi0 & Hget & Hnext & Hwb & Htitle & Htodo
                    & Hday & _).
  unfold render_done_view. script. rewrite Hday. script. rewrite Htitle. script.
  destruct (restart_button i) eqn:Hrestart; script; [|done].
  split; [done|]. unfold session_inv. cbn. repeat split.
  unfold uninterrupted. rewrite Forall_forall. intros Hall.
  specialize (Hall i Hi). simpl in Hall. congruence.
Qed.

Lemma tab1_initialized (runs : list inputs) (i : inputs) (w : world) (b : bool) :
  session_inv runs w → i ∈ runs →
  st.app_ready (session w) = Some b →
  ((tab1 i w).1 = Done tt
   ∨ (tab1 i w).1 = Failed OverflowError ∧ (tab1 i w).2 = w
     ∧ rest_overflows i (session w))
  ∧ session_inv runs (tab1 i w).2.
Proof.
  intros Hinv0 Hi Hready. pose proof Hinv0 as Hinv.
  unfold tab1. script. rewrite Hready. script. rewrite Hready.
  destruct b; script; [|split; [by left|done]].
  unfold session_inv in Hinv. rewrite Hready in Hinv.
  destruct Hinv as (i0 & all_data & sheet_title & todo & day_title & idx & view
                    & values & earlier & Hi0 & Hget & Hnext & Hwb & Htitle & Htodo
                    & Hday & Hidx & Hview & Hcase & _).
  rewrite Htitle. script.
  destruct sheet_title as [title|]; cbn [option_truthy]; [|split; [by left|done]].
  destruct (truthy title); script; [|split; [by left|done]].
  rewrite Htodo. script.
  destruct (list_truthy todo); script; [|split; [by left|done]].
  rewrite Hview. script.
  destruct Hcase as [[-> _]|[(-> & _)|[-> _]]].
  - change (String.eqb "workout" "workout") with true. cbn iota.
    destruct (workout_view_inv runs i w title) as [Hdone Hinv']; try done.
    split; [by left|done].
  - change (String.eqb "rest" "workout") with false. cbn iota. script.
    rewrite Hview. script.
    change (String.eqb "rest" "rest") with true. cbn iota.
    destruct (rest_view_inv runs i w title) as [[Hdone|(Hfail & Hsame & Hover)] Hinv'];
      try done.
    + split; [by left|done].
    + split; [|done]. right. by repeat split.
  - change (String.eqb "done" "workout") with false. cbn iota. script.
    rewrite Hview. script.
    change (String.eqb "done" "rest") with false. cbn iota. script.
    rewrite Hview. script.
    change (String.eqb "done" "done") with true. cbn iota.
    destruct (done_view_inv runs i w) as [Hdone Hinv']; try done.
    split; [by left|done].
Qed.

(** A run that finds no [app_ready] initializes the session and goes on
    as a run on the initialized session does. *)
Lemma tab1_init (i : inputs) (w : world) :
  st.app_ready (session w) = None →
  tab1 i w = match initialize_session i w with
             | (Done _, w') => tab1 i w'
             | (Failed f, w') => (Failed f, w')
             end.
Proof.
  intros Hnone. unfold tab1 at 1. script. rewrite Hnone. script.
  unfold initialize_session. 
  destruct (authorize_gspread i); script.
  - destruct (get_workout_data (spreadsheet i)) as [all_data|]; script.
    + destruct (list_truthy all_data); script.
      * destruct (find_next_workout_and_exercises all_data) as [[[t todo] d]|e]; script.
        -- unfold tab1. by script.
        -- done.
      * unfold tab1. by script.
    + unfold tab1. by script.
  - unfold tab1. by script.
Qed.

Lemma initialize_session_inv (runs : list inputs) (i : inputs) (w : world) :
  session_inv runs w → i ∈ runs →
  st.app_ready (session w) = None →
  match initialize_session i w with
  | (Done _, w') =>
      session_inv runs w' ∧ is_Some (st.app_ready (session w'))
      ∧ (st.app_ready (session w') = Some true →
         st.current_view (session w') = Some "workout")
  | (Failed f, w') =>
      session_inv runs w' ∧ st.app_ready (session w') = None
      ∧ ∃ all_data e,
          f = Uncaught e ∧ authorize_gspread i = true
          ∧ get_workout_data (spreadsheet i) = Some all_data
          ∧ find_next_workout_and_exercises all_data = Raise e
  end.
Proof.
  intros Hinv Hi Hnone.
  unfold session_inv in Hinv. rewrite Hnone in Hinv.
  destruct Hinv as (Htitle & Htodo & Hcalls).
  unfold initialize_session.
  destruct (authorize_gspread i) eqn:Hauth; script.
  2: { split; [|split; [by eexists|done]]. unfold session_inv. by script. }
  destruct (get_workout_data (spreadsheet i)) as [all_data|] eqn:Hget; script.
  2: { split; [|split; [by eexists|done]]. unfold session_inv. by script. }
  destruct (list_truthy all_data); script.
  2: { split; [|split; [by eexists|done]]. unfold session_inv. by script. }
  destruct (find_next_workout_and_exercises all_data) as [[[t todo] d]|e] eqn:Hnext;
    script.
  - split; [|split; [by eexists|done]]. unfold session_inv. script.
    exists i, all_data, t, todo, d, 0%nat, "workout", [], (calls w).
    rewrite (saved_other _ 0 "workout") by done.
    repeat split; try done.
    + left. split; [done|lia].
    + unfold writes. rewrite take_0. simpl. by rewrite app_nil_r.
  - split; [|split; [done|by exists all_data, e]].
    unfold session_inv. script. by rewrite Hnone.
Qed.

Lemma tab1_inv (runs : list inputs) (i : inputs) (w : world) :
  session_inv runs w → i ∈ runs →
  session_inv runs (tab1 i w).2
  ∧ ((tab1 i w).1 = Done tt
     ∨ (st.app_ready (session w) = None
        ∧ st.app_ready (session (tab1 i w).2) = None
        ∧ ∃ all_data e,
            (tab1 i w).1 = Failed (Uncaught e) ∧ authorize_gspread i = true
            ∧ get_workout_data (spreadsheet i) = Some all_data
            ∧ find_next_workout_and_exercises all_data = Raise e)
     ∨ ((tab1 i w).1 = Failed OverflowError ∧ (tab1 i w).2 = w
        ∧ rest_overflows i (session w))).
Proof.
  intros Hinv Hi. destruct (st.app_ready (session w)) as [b|] eqn:Hready.
  - destruct (tab1_initialized runs i w b Hinv Hi Hready) as [[Hdone|Hover] Hinv'].
    + split; [done|by left].
    + split; [done|]. right. by right.
  - rewrite (tab1_init i w Hready).
    pose proof (initialize_session_inv runs i w Hinv Hi Hready) as Hinit.
    destruct (initialize_session i w) as [[[]|f] w'].
    + destruct Hinit as (Hinv' & [b Hb] & Hview).
      destruct (tab1_initialized runs i w' b Hinv' Hi Hb)
        as [[Hdone|(_ & _ & Hready' & Hrest & _)] Hinv''].
      * split; [done|by left].
      * rewrite (Hview Hready') in Hrest. done.
    + destruct Hinit as (Hinv' & Hnone & all_data & e & -> & Hauth & Hget & Hnext).
      split; [done|]. right. left. split; [done|]. split; [done|].
      by exists all_data, e.
Qed.

Lemma session_runs_snoc (runs : list inputs) (i : inputs) :
  session_runs (runs ++ [i]) = (tab1 i (session_runs runs)).2.
Proof. unfold session_runs. by rewrite foldl_snoc. Qed.

(** The invariant holds after any runs. *)
Lemma session_runs_inv (runs : list inputs) : session_inv runs (session_runs runs).
Proof.
  induction runs as [|i runs IH] using rev_ind.
  - unfold session_inv. by cbn.
  - rewrite session_runs_snoc. apply tab1_inv.
    + by apply session_inv_snoc.
    + apply elem_of_app. right. left.
Qed.

End SessionSteps.

Section ResolverRaises.

Lemma bind_Raise {A B : Type} (c : result A) (k : A → result B) (e : exn) :
  c ≫= k = Raise e → c = Raise e ∨ ∃ a, c = Ok a ∧ k a = Raise e.
Proof.
  destruct c as [a|e']; run; [intros H; right; by exists a|].
  intros [= ->]. by left.
Qed.

Lemma index_raises {A : Type} (l : list A) (i : nat) (e : exn) :
  index l i = Raise e → e = IndexError.
Proof. unfold index. destruct (l !! i); [done|]. by intros [= <-]. Qed.

Lemma spec_next_column_raises (last_row : list string) (cols : list nat) (e : exn) :
  spec_next_column last_row cols = Raise e → e = IndexError.
Proof.
  induction cols as [|c cols IH]; simpl; [done|].
  intros [H%index_raises|(cell & _ & H)]%bind_Raise; [done|].
  destruct (truthy cell); [by apply IH|done].
Qed.

Lemma to_do_entry_raises (i : nat) (r : list string) (col : nat) (e : exn) :
  to_do_entry i r col = Raise e → e = IndexError.
Proof.
  unfold to_do_entry.
  intros [H%index_raises|(? & _ & H)]%bind_Raise; [done|].
  apply bind_Raise in H as [H%index_raises|(? & _ & H)]; [done|].
  apply bind_Raise in H as [H%index_raises|(? & _ & H)]; [done|].
  by apply bind_Raise in H as [H%index_raises|(? & _ & H)].
Qed.

Lemma spec_to_do_raises (block : list (nat * list string)) (col : nat) (e : exn) :
  spec_to_do block col = Raise e → e = IndexError.
Proof.
  induction block as [|[i r] block IH]; simpl; [done|].
  intros [H%index_raises|(cell & _ & H)]%bind_Raise; [done|].
  destruct (truthy cell); [by apply IH|].
  apply bind_Raise in H as [H%to_do_entry_raises|(? & _ & H)]; [done|].
  by apply bind_Raise in H as [H%IH|(? & _ & H)].
Qed.

Lemma spec_resolve_sheet_raises (sheet_title : string) (data : list (list string))
    (e : exn) :
  spec_resolve_sheet sheet_title data = Raise e → e = IndexError.
Proof.
  unfold spec_resolve_sheet. destruct (negb (qualifies data)); [done|].
  destruct (last _) as [last_row|]; [|done].
  intros [H%spec_next_column_raises|([col|] & _ & H)]%bind_Raise; [done| |done].
  apply bind_Raise in H as [H%spec_to_do_raises|(? & _ & H)]; [done|].
  by apply bind_Raise in H as [H%index_raises|(? & _ & H)].
Qed.

(** The resolver raises nothing but [IndexError]. *)
Lemma find_next_raises (all : sheets) (e : exn) :
  find_next_workout_and_exercises all = Raise e → e = IndexError.
Proof.
  rewrite find_next_spec_resolve.
  induction all as [|[sheet_title data] all IH]; simpl; [done|].
  intros [H%spec_resolve_sheet_raises|([[[? ?] ?]|] & _ & H)]%bind_Raise;
    [done|done|by apply IH].
Qed.

(** The cells a to-do list points at: empty cells of the returned sheet,
    in rows that go down the sheet. *)
Lemma to_do_cells (all : sheets) (title : string) (todo : list exercise)
    (day : option string) :
  find_next_workout_and_exercises all = Ok (Some title, todo, day) →
  ∃ data,
    (title, data) ∈ all
    ∧ Forall (λ e, ∃ r, data !! Z.to_nat (gspread_row e - 1) = Some r
                        ∧ r !! Z.to_nat (gspread_col e - 1) = Some EmptyString) todo
    ∧ StronglySorted Z.lt (gspread_row <$> todo).
Proof.
  rewrite find_next_spec_resolve.
  intros [[=]|(title' & data & todo' & day' & Hin & Hsheet & [= <- <- ->])]%spec_resolve_Ok.
  apply spec_resolve_sheet_Some in Hsheet
    as (_ & _ & headers & last_row & col & _ & _ & _ & _ & Htodo & _).
  exists data. split; [done|]. split.
  - eapply Forall_impl; [exact (spec_to_do_sound _ _ _ _ Htodo)|]. simpl.
    intros e (j & r & Hj & Hrow & Hcol & Hcell & _).
    exists r. rewrite Hrow, Hcol.
    replace (Z.to_nat (Z.of_nat j + 3 - 1)) with (2 + j)%nat by lia.
    replace (Z.to_nat (Z.of_nat col + 1 - 1)) with col by lia.
    apply exercise_block_lookup in Hj. rewrite lookup_drop in Hj. done.
  - by destruct (spec_to_do_rows _ _ _ _ Htodo).
Qed.

End ResolverRaises.

(** [int(duration - elapsed)]: the fraction is dropped; a duration from
    2^1024 - 2^970 on is no float, and the subtraction raises. *)
Example remaining_time_examples :
  remaining_time 60 (1 # 2) 45 = Some 15
  ∧ remaining_time 60 10 (151 # 2) = Some (-5)
  ∧ remaining_time (2 ^ 1024 - 2 ^ 970 - 1) 0 1 = Some (2 ^ 1024 - 2 ^ 971)
  ∧ remaining_time (2 ^ 1024 - 2 ^ 970) 0 1 = None
  ∧ remaining_time (10 ^ 309) 0 1 = None.
Proof. repeat split; by vm_compute. Qed.

(** With a rest of 10^309 seconds the rest view is reached, and every run
    of it raises [OverflowError], whatever the clock and the button. *)
Example rest_view_overflows :
  rest_duration long_rest = Ok (10 ^ 309)
  ∧ st.current_view (session (session_runs session_long_rest)) = Some "rest"
  ∧ ∀ (clock : Q) (next : bool),
      (tab1 (a_run (Ok [("Month 1", Ok month_long_rest)]) "" false clock next)
            (session_runs session_long_rest)).1
      = Failed OverflowError.
Proof.
  split; [by vm_compute|]. split; [by vm_compute|]. intros clock next.
  assert (∀ t, remaining_time (10 ^ 309) t clock = None) as Hnone.
  { intros t. unfold remaining_time. destruct (float_sub clock t); [|done].
    cbn [mbind option_bind].
    by assert (float_of_int (10 ^ 309) = None) as -> by (by vm_compute). }
  set (w := session_runs session_long_rest). vm_compute in w. subst w.
  unfold tab1. script. cbn [option_truthy truthy negb]. script.
  cbn [list_truthy negb]. script.
  change (String.eqb "rest" "workout") with false. cbn iota. script.
  change (String.eqb "rest" "rest") with true. cbn iota.
  unfold render_rest_view. script. cbn [a_run time].
  match goal with |- context [remaining_time ?d ?t clock] =>
    change d with (10 ^ 309); rewrite (Hnone t) end.
  by script.
Qed.

Example session1_state :
  st.current_view (session (session_runs session1)) = Some "rest"
  ∧ st.current_exercise_index (session (session_runs session1)) = Some 1%nat
  ∧ st.rest_duration (session (session_runs session1)) = Some 30
  ∧ calls (session_runs session1)
    = [ {| worksheet := "Month 1"; cell_row := 4; cell_col := 6;
           cell_value := "12, 11" |};
        {| worksheet := "Month 1"; cell_row := 5; cell_col := 6;
           cell_value := "50 sec" |} ].
Proof. by vm_compute. Qed.


(** In a session the calls of [update_cell] follow the to-do list: when
    the session state holds a sheet title and a to-do list, the calls
    made since the session state was last empty (all the calls, when the
    button of the done view was never pressed) write, in the order of the
    list, one non-empty value into the cell of each of the first entries
    of the list: those before the current one, and the current one while
    the rest view is shown.  No entry is skipped or written twice, and the
    done view is only shown when every entry has been written. *)
Theorem session_writes_follow_plan (runs : list inputs) (title : string)
    (todo : list exercise) :
  st.sheet_title (session (session_runs runs)) = Some (Some title) →
  st.exercises_today (session (session_runs runs)) = Some todo →
  ∃ earlier values,
    calls (session_runs runs)
    = earlier ++ writes title (take (saved (session (session_runs runs))) todo) values
    ∧ length values = saved (session (session_runs runs))
    ∧ (saved (session (session_runs runs)) ≤ length todo)%nat
    ∧ Forall (λ v, v ≠ EmptyString) values
    ∧ (uninterrupted runs → earlier = [])
    ∧ (st.current_view (session (session_runs runs)) = Some "done" →
       saved (session (session_runs runs)) = length todo).
Proof.
  pose proof (session_runs_inv runs) as Hinv. unfold session_inv in Hinv.
  set (w := session_runs runs) in *. intros Hsheet Htodo.
  destruct (st.app_ready (session w)) as [[]|];
    [|destruct Hinv as [? _]; congruence..].
  destruct Hinv as (i0 & all_data & sheet_title & todo' & day_title & idx & view
                    & values & earlier & Hi0 & Hget & Hnext & Hwb & Htitle & Htodo'
                    & Hday & Hidx & Hview & Hcase & Hlen & Hvalues & Hcalls & Hearlier).
  simplify_eq. exists earlier, values. repeat split; try done.
  - destruct Hcase as [[-> ?]|[(-> & ? & _)|[-> ?]]].
    + by rewrite (saved_other _ idx "workout").
    + rewrite (saved_rest _ idx) by done. lia.
    + rewrite (saved_other _ idx "done") by done. lia.
  - intros Hdone. rewrite Hview in Hdone. injection Hdone as ->.
    destruct Hcase as [[? ?]|[(? & ? & _)|[_ ?]]]; [done|done|].
    by rewrite (saved_other _ idx "done").
Qed.

Lemma session_writes_follow_plan_witness :
  ∃ earlier values,
    calls (session_runs session1)
    = earlier ++ writes "Month 1"
                   (take (saved (session (session_runs session1))) month1_to_do) values
    ∧ length values = saved (session (session_runs session1))
    ∧ (saved (session (session_runs session1)) ≤ length month1_to_do)%nat
    ∧ Forall (λ v, v ≠ EmptyString) values
    ∧ (uninterrupted session1 → earlier = [])
    ∧ (st.current_view (session (session_runs session1)) = Some "done" →
       saved (session (session_runs session1)) = length month1_to_do).
Proof.
  apply (session_writes_follow_plan session1 "Month 1" month1_to_do); reflexivity.
Defined.

Section SessionCells.

Lemma writes_Forall (P : update_cell → Prop) (title : string)
    (todo : list exercise) (values : list string) :
  Forall (λ e, ∀ v, v ∈ values →
            P {| worksheet := title; cell_row := gspread_row e;
                 cell_col := gspread_col e; cell_value := v |}) todo →
  Forall P (writes title todo values).
Proof.
  unfold writes. revert values.
  induction todo as [|e todo IH]; intros values Hall; [constructor|].
  destruct values as [|v values]; [constructor|].
  apply Forall_cons in Hall as [He Hall]. simpl. constructor.
  - apply He. left.
  - apply IH. eapply Forall_impl; [exact Hall|]. simpl.
    intros e' H v' Hv'. apply H. by right.
Qed.

Lemma writes_rows (title : string) (todo : list exercise) (values : list string) :
  length values = length todo →
  cell_row <$> writes title todo values = gspread_row <$> todo.
Proof.
  unfold writes. revert values.
  induction todo as [|e todo IH]; intros [|v values] Hlen; try done.
  simpl. f_equal. apply IH. simpl in Hlen. lia.
Qed.

End SessionCells.

(** A session only fills in empty cells, going down the sheet: the calls
    of [update_cell] made since the session state was last empty (all the
    calls, when the button of the done view was never pressed) name the
    worksheet the session works on, carry a non-empty value, point at
    cells that are empty in the snapshot the session was initialized
    with, and come in strictly increasing order of row, so that no cell
    is written twice. *)
Theorem session_fills_empty_cells (runs : list inputs) (title : string) :
  st.sheet_title (session (session_runs runs)) = Some (Some title) →
  ∃ i all_data data earlier current,
    i ∈ runs
    ∧ get_workout_data (spreadsheet i) = Some all_data
    ∧ (title, data) ∈ all_data
    ∧ calls (session_runs runs) = earlier ++ current
    ∧ (uninterrupted runs → earlier = [])
    ∧ length current = saved (session (session_runs runs))
    ∧ Forall (λ c, worksheet c = title ∧ cell_value c ≠ EmptyString
                   ∧ ∃ r, data !! Z.to_nat (cell_row c - 1) = Some r
                          ∧ r !! Z.to_nat (cell_col c - 1) = Some EmptyString)
             current
    ∧ StronglySorted Z.lt (cell_row <$> current).
Proof.
  pose proof (session_runs_inv runs) as Hinv. unfold session_inv in Hinv.
  set (w := session_runs runs) in *. intros Hsheet.
  destruct (st.app_ready (session w)) as [[]|];
    [|destruct Hinv as [? _]; congruence..].
  destruct Hinv as (i0 & all_data & sheet_title & todo & day_title & idx & view
                    & values & earlier & Hi0 & Hget & Hnext & Hwb & Htitle & Htodo
                    & Hday & Hidx & Hview & Hcase & Hlen & Hvalues & Hcalls & Hearlier).
  simplify_eq. cbn [default] in Hcalls.
  destruct (to_do_cells _ _ _ _ Hnext) as (data & Hdata & Hcells & Hsorted).
  assert (saved (session w) ≤ length todo)%nat as Hle.
  { destruct Hcase as [[-> ?]|[(-> & ? & _)|[-> ?]]].
    - by rewrite (saved_other _ idx "workout").
    - rewrite (saved_rest _ idx) by done. lia.
    - rewrite (saved_other _ idx "done") by done. lia. }
  exists i0, all_data, data, earlier,
    (writes title (take (saved (session w)) todo) values).
  repeat split; try done.
  - unfold writes. rewrite length_zip_with, length_take. lia.
  - apply writes_Forall. apply Forall_take.
    eapply Forall_impl; [exact Hcells|]. simpl. intros e He v Hv.
    repeat split; [|done]. simpl.
    rewrite Forall_forall in Hvalues. by apply Hvalues.
  - rewrite writes_rows by (rewrite length_take; lia).
    rewrite fmap_take.
    rewrite <- (take_drop (saved (session w)) (gspread_row <$> todo)) in Hsorted.
    by apply StronglySorted_app_1_l in Hsorted.
Qed.

Lemma session_fills_empty_cells_witness :
  ∃ i all_data data earlier current,
    i ∈ session1
    ∧ get_workout_data (spreadsheet i) = Some all_data
    ∧ ("Month 1", data) ∈ all_data
    ∧ calls (session_runs session1) = earlier ++ current
    ∧ (uninterrupted session1 → earlier = [])
    ∧ length current = saved (session (session_runs session1))
    ∧ Forall (λ c, worksheet c = "Month 1" ∧ cell_value c ≠ EmptyString
                   ∧ ∃ r, data !! Z.to_nat (cell_row c - 1) = Some r
                          ∧ r !! Z.to_nat (cell_col c - 1) = Some EmptyString)
             current
    ∧ StronglySorted Z.lt (cell_row <$> current).
Proof. apply (session_fills_empty_cells session1 "Month 1"). reflexivity. Defined.

Section SessionRounds.

Lemma to_do_nonempty (all : sheets) (title : string) (todo : list exercise)
    (day : option string) :
  find_next_workout_and_exercises all = Ok (Some title, todo, day) →
  list_truthy todo = true ∧ list_truthy all = true ∧ title ∈ all.*1.
Proof.
  intros Hnext. pose proof Hnext as Hnext'. revert Hnext'.
  rewrite find_next_spec_resolve.
  intros [[=]|(t & data & todo' & d & Hin & Hsheet & [= -> -> ->])]%spec_resolve_Ok.
  apply spec_resolve_sheet_Some in Hsheet
    as (_ & _ & headers & last_row & col & _ & Hlast & _ & Hcell & Htodo & _).
  pose proof Hlast as Hlk. rewrite last_lookup in Hlk.
  destruct (spec_to_do_elem _ _ _ _ _ _ Htodo Hlk Hcell) as (e & He & _).
  repeat split.
  - destruct todo'; [by apply elem_of_nil in He|done].
  - destruct all; [by apply elem_of_nil in Hin|done].
  - apply list_elem_of_fmap. by exists (t, data).
Qed.

Lemma month_title_truthy (book : result (list (string * result (list (list string)))))
    (all : sheets) (title : string) :
  get_workout_data book = Some all → title ∈ all.*1 → truthy title = true.
Proof.
  unfold get_workout_data. destruct book as [worksheets|e]; run; [|done].
  destruct (get_workout_data_loop worksheets []) as [all'|e] eqn:Hloop; [|done].
  intros [= <-] Hin.
  destruct (get_workout_data_loop_Ok _ _ _ Hloop) as (_ & Hkeys & _); [constructor|].
  apply Hkeys in Hin as [?%elem_of_nil|[Hprefix _]]; [done|].
  by destruct title.
Qed.

Variable book : result (list (string * result (list (list string)))).
Variable all_data : sheets.
Variable title : string.
Variable todo : list exercise.
Variable day : option string.
Hypothesis Hbook : get_workout_data book = Some all_data.
Hypothesis Hnext : find_next_workout_and_exercises all_data = Ok (Some title, todo, day).

(** Opening the page. *)
Lemma round_open (clock : Q) :
  let w := session_runs [a_run book "" false clock false] in
  session_at title todo "workout" 0 (session w) ∧ calls w = [].
Proof.
  destruct (to_do_nonempty _ _ _ _ Hnext) as (Htodo & Hall & Hin).
  pose proof (month_title_truthy _ _ _ Hbook Hin) as Htitle.
  unfold session_runs, script_run. cbn [foldl].
  rewrite tab1_init by done.
  unfold initialize_session. cbn [a_run authorize_gspread spreadsheet]. script.
  rewrite Hbook. script. rewrite Hall. script. rewrite Hnext. script.
  unfold tab1. script. cbn [option_truthy]. rewrite Htitle. script.
  rewrite Htodo. script.
  change (String.eqb "workout" "workout") with true. cbn iota.
  unfold render_workout_view. script.
  destruct todo as [|e todo']; [done|]. cbn [length Nat.leb]. script.
  cbn [index lookup list_lookup]. script. cbn [a_run submitted]. script.
  split; [|done]. unfold session_at. script. repeat split; by eexists.
Qed.

Lemma rest_of_Ok (e : exercise) : rest_duration (rest e) = Ok (rest_of e).
Proof.
  unfold rest_of. by destruct (rest_duration_returns (rest e)) as [d ->].
Qed.

Lemma rest_of_nonneg (e : exercise) : 0 ≤ rest_of e.
Proof.
  unfold rest_of, rest_duration.
  set (s := strip (replace "sec" "" (lower (rest e)))).
  destruct (contains "-" s) eqn:Hdash.
  - destruct (split_on_second "-" s Hdash) as [second Hsecond].
    pose proof (split_on_no_sep "-" s) as Hno. rewrite Forall_forall in Hno.
    specialize (Hno _ (list_elem_of_lookup_2 _ _ _ Hsecond)).
    apply index_Ok in Hsecond. rewrite Hsecond. run.
    destruct (int_of_str second) as [v|e'] eqn:Hint.
    + by apply (int_of_str_nonneg second).
    + by apply int_of_str_raises in Hint as ->.
  - apply contains_char_false in Hdash.
    destruct (int_of_str s) as [v|e'] eqn:Hint.
    + by apply (int_of_str_nonneg s).
    + by apply int_of_str_raises in Hint as ->.
Qed.

Lemma total_rest_nonneg (l : list exercise) : 0 ≤ total_rest l.
Proof.
  induction l as [|e l IH]; simpl; [done|]. pose proof (rest_of_nonneg e). lia.
Qed.

(** Submitting a result. *)
Lemma round_submit (w : world) (idx : nat) (e : exercise) (v : string) (clock : Q) :
  session_at title todo "workout" idx (session w) →
  todo !! idx = Some e → v ≠ EmptyString →
  let w' := (tab1 (a_run book v true clock false) w).2 in
  session_at title todo "rest" idx (session w')
  ∧ st.rest_duration (session w') = Some (rest_of e)
  ∧ st.rest_start_time (session w') = Some clock
  ∧ calls w' = calls w ++ writes title [e] [v].
Proof.
  destruct (to_do_nonempty _ _ _ _ Hnext) as (Htodo & Hall & Hin).
  pose proof (month_title_truthy _ _ _ Hbook Hin) as Htitle.
  destruct w as [s cs].
  destruct s as [client workbook sheet_title' exercises_today day_title' idx' view'
                 app_ready rest_duration' rest_start_time sound_played
                 timer_finished play_sound].
  unfold session_at. cbn [session calls].
  intros (Hready & Hwb & Hsheet & Hex & Hday & Hidx & Hview) He Hv.
  cbn in Hready, Hwb, Hsheet, Hex, Hday, Hidx, Hview. simplify_eq.
  unfold tab1. script. cbn [option_truthy]. rewrite Htitle. script.
  rewrite Htodo. script.
  change (String.eqb "workout" "workout") with true. cbn iota.
  unfold render_workout_view. script.
  pose proof (lookup_lt_Some _ _ _ He) as Hlt.
  destruct (Nat.leb_spec (length todo) idx) as [?|_]; [lia|]. script.
  rewrite (proj2 (index_Ok _ _ _) He). script.
  cbn [a_run submitted actual_result time]. 
  destruct v as [|c v]; [done|]. cbn [truthy negb]. script.
  rewrite rest_of_Ok. script. by repeat split.
Qed.

(** Pressing the next button when the rest time has passed. *)
Lemma round_next (w : world) (idx : nat) (clock d : Z) :
  - 2 ^ 53 ≤ d ≤ 2 ^ 53 →
  session_at title todo "rest" idx (session w) →
  st.rest_duration (session w) = Some d →
  st.rest_start_time (session w) = Some (inject_Z clock) →
  let w' := (tab1 (a_run book "" false (inject_Z (clock + d)) true) w).2 in
  session_at title todo "workout" (S idx) (session w') ∧ calls w' = calls w.
Proof.
  destruct (to_do_nonempty _ _ _ _ Hnext) as (Htodo & Hall & Hin).
  pose proof (month_title_truthy _ _ _ Hbook Hin) as Htitle.
  destruct w as [s cs].
  destruct s as [client workbook sheet_title' exercises_today day_title' idx' view'
                 app_ready rest_duration' rest_start_time sound_played
                 timer_finished play_sound].
  unfold session_at. cbn [session calls].
  intros Hsmall (Hready & Hwb & Hsheet & Hex & Hday & Hidx & Hview) Hd Ht.
  cbn in Hready, Hwb, Hsheet, Hex, Hday, Hidx, Hview, Hd, Ht. simplify_eq.
  unfold tab1. script. cbn [option_truthy]. rewrite Htitle. script.
  rewrite Htodo. script.
  change (String.eqb "rest" "workout") with false. cbn iota. script.
  change (String.eqb "rest" "rest") with true. cbn iota.
  unfold render_rest_view. script.
  cbn [a_run time next_button]. rewrite (remaining_over clock d Hsmall). script.
  change (0 <? 0) with false. cbn iota. script.
  destruct timer_finished as [[]|]; script;
    (repeat split; try done; f_equal; lia).
Qed.

(** The run after the last entry. *)
Lemma round_last (w : world) (clock : Q) :
  session_at title todo "workout" (length todo) (session w) →
  let w' := (tab1 (a_run book "" false clock false) w).2 in
  session_at title todo "done" (length todo) (session w') ∧ calls w' = calls w.
Proof.
  destruct (to_do_nonempty _ _ _ _ Hnext) as (Htodo & Hall & Hin).
  pose proof (month_title_truthy _ _ _ Hbook Hin) as Htitle.
  destruct w as [s cs].
  destruct s as [client workbook sheet_title' exercises_today day_title' idx' view'
                 app_ready rest_duration' rest_start_time sound_played
                 timer_finished play_sound].
  unfold session_at. cbn [session calls].
  intros (Hready & Hwb & Hsheet & Hex & Hday & Hidx & Hview).
  cbn in Hready, Hwb, Hsheet, Hex, Hday, Hidx, Hview. simplify_eq.
  unfold tab1. script. cbn [option_truthy]. rewrite Htitle. script.
  rewrite Htodo. script.
  change (String.eqb "workout" "workout") with true. cbn iota.
  unfold render_workout_view. script.
  rewrite Nat.leb_refl. script. by repeat split.
Qed.

(** The rounds, from any entry on. *)
Lemma rounds_done (rest_todo : list exercise) (values : list string)
    (runs : list inputs) (idx : nat) (clock : Z) :
  session_at title todo "workout" idx (session (session_runs runs)) →
  (idx ≤ length todo)%nat →
  drop idx todo = rest_todo →
  length values = length rest_todo →
  Forall (λ v, v ≠ EmptyString) values →
  total_rest rest_todo ≤ 2 ^ 53 →
  let w := session_runs (runs ++ rounds book clock rest_todo values) in
  session_at title todo "done" (length todo) (session w)
  ∧ calls w = calls (session_runs runs) ++ writes title rest_todo values.
Proof.
  revert values runs idx clock.
  induction rest_todo as [|e rest_todo IH];
    intros values runs idx clock Hat Hle Hdrop Hlen Hvalues Hrest.
  - destruct values; [|done]. cbn [rounds]. rewrite session_runs_snoc.
    assert (idx = length todo) as ->.
    { apply (f_equal length) in Hdrop. rewrite length_drop in Hdrop.
      simpl in Hdrop. lia. }
    destruct (round_last (session_runs runs) (inject_Z clock) Hat) as [Hat' Hcalls].
    split; [done|]. rewrite Hcalls. unfold writes. simpl. by rewrite app_nil_r.
  - destruct values as [|v values]; [done|]. cbn [rounds].
    apply Forall_cons in Hvalues as [Hv Hvalues].
    cbn [total_rest] in Hrest.
    pose proof (rest_of_nonneg e) as He0.
    pose proof (total_rest_nonneg rest_todo) as Hrest0.
    assert (- 2 ^ 53 ≤ rest_of e ≤ 2 ^ 53) as Hsmall by lia.
    assert (todo !! idx = Some e) as He.
    { pose proof (lookup_drop todo idx 0) as H.
      rewrite Hdrop, Nat.add_0_r in H. done. }
    pose (submit := a_run book v true (inject_Z clock) false).
    pose (next := a_run book "" false (inject_Z (clock + rest_of e)) true).
    destruct (round_submit (session_runs runs) idx e v (inject_Z clock) Hat He Hv)
      as (Hat1 & Hd & Ht & Hcalls1).
    rewrite <- session_runs_snoc in Hat1, Hd, Ht, Hcalls1.
    destruct (round_next (session_runs (runs ++ [submit])) idx clock (rest_of e)
                Hsmall Hat1 Hd Ht) as (Hat2 & Hcalls2).
    rewrite <- session_runs_snoc in Hat2, Hcalls2.
    fold submit in Hat1, Hd, Ht, Hcalls1, Hat2, Hcalls2.
    fold next in Hat2, Hcalls2. fold submit next.
    replace (runs ++ submit :: next :: rounds book (clock + rest_of e) rest_todo values)
      with (((runs ++ [submit]) ++ [next])
              ++ rounds book (clock + rest_of e) rest_todo values)
      by (by rewrite <- !app_assoc).
    destruct (IH values ((runs ++ [submit]) ++ [next]) (S idx) (clock + rest_of e))
      as [Hat3 Hcalls3]; try done.
    + apply lookup_lt_Some in He. lia.
    + rewrite (drop_S _ _ _ He) in Hdrop. by injection Hdrop.
    + simpl in Hlen. lia.
    + lia.
    + split; [done|]. rewrite Hcalls3, Hcalls2, Hcalls1.
      rewrite <- app_assoc. done.
Qed.

End SessionRounds.



(** ** The progress bar *)

Example progress_value_month1 :
  progress_value [("Month 1", month1)] = Ok (Some 66)
  ∧ progress_value [("Month 0", month0)] = Ok (Some 100)
  ∧ progress_value [] = Ok None.
Proof. by vm_compute. Qed.

(** The progress bar never gets a value outside of 0..100, which
    [st.progress] would refuse.  It gets 100 when every slot of the plan
    is filled; and for a plan of at most 2^53 slots (the integers a float
    counts exactly) only then, the float percentage of a plan with an
    empty slot being below 100. *)
Theorem progress_value_range (all : sheets) (v : Z) :
  progress_value all = Ok (Some v) →
  0 ≤ v ≤ 100
  ∧ ∃ total filled pct,
      calculate_overall_completion all = Ok (total, filled, pct)
      ∧ (filled = total → v = 100)
      ∧ (total ≤ 2 ^ 53 → v = 100 → filled = total).
Proof.
  unfold progress_value.
  intros ([[total filled] pct] & Hcalc & H)%bind_Ok.
  destruct (Z.ltb_spec 0 total) as [Hpos|?]; [|done]. injection H as <-.
  destruct (calculate_overall_completion_Ok _ _ _ _ Hcalc)
    as (t & f & _ & Hb & [(-> & -> & _)|(Hne & -> & -> & ->)]); [lia|].
  split; [by apply int_of_percentage_bounds|].
  exists t, f, (percentage_of f t). split; [done|].
  by apply int_of_percentage_full.
Qed.

Lemma progress_value_range_witness :
  0 ≤ 66 ≤ 100
  ∧ ∃ total filled pct,
      calculate_overall_completion [("Month 1", month1)] = Ok (total, filled, pct)
      ∧ (filled = total → 66 = 100)
      ∧ (total ≤ 2 ^ 53 → 66 = 100 → filled = total).
Proof. apply (progress_value_range [("Month 1", month1)] 66). reflexivity. Defined.
